(** * Verification of the video-analytics client scripts

    Shallow embedding of the three page scripts
    - [src/app/static/js/stream.js]  (module [Stream])
    - [src/app/static/js/video.js]   (module [Video])
    - [src/app/static/js/photo.js]   (module [Photo])
    followed by the properties established about them.

    Conventions of the embedding.
    - JavaScript integers (tokens, indices, counts) are [Z]; [-1] is the
      "none" index exactly as in the scripts.
    - JavaScript numbers that carry coordinates or timestamps belong to a
      [Number]: the arithmetic the scripts use, given once as IEEE 754
      binary64 ([binary64], the arithmetic of the scripts) and once as exact
      rationals ([exact], the arithmetic without rounding).  The pages are
      written over any [Number]; what is proved of them without a fact of
      arithmetic holds of both.
    - A JavaScript string whose characters are inspected is a list of
      UTF-16 code units ([jsstring]); strings that are only passed around
      (URLs, server messages) are [string].
    - An [async] function is a resumable computation: each [await] is a
      suspension point, the function's locals live in the frame that is kept
      across the suspension, the page globals are threaded explicitly, and a
      rejected promise is an explicit outcome. *)

From Stdlib Require Import ZArith QArith Qround Qabs List Bool Lia Lqa.
From Stdlib Require Import String Ascii Sorted.
From Stdlib Require Floats.
Import ListNotations.

Local Open Scope Z_scope.

(* ================================================================== *)
(** * Strings as sequences of UTF-16 code units                        *)
(* ================================================================== *)

Module Js.

Definition jsstring := list N.

(** Code units of an ASCII literal. *)
Fixpoint units (s : string) : jsstring :=
  match s with
  | EmptyString => []
  | String c rest => N_of_ascii c :: units rest
  end.

(** ECMAScript WhiteSpace and LineTerminator code points: what
    [String.prototype.trim] strips. *)
Definition is_space (c : N) : bool :=
  ( (c =? 9) || (c =? 10) || (c =? 11) || (c =? 12) || (c =? 13)
  || (c =? 32) || (c =? 160) || (c =? 5760)
  || ((8192 <=? c) && (c <=? 8202))
  || (c =? 8232) || (c =? 8233) || (c =? 8239) || (c =? 8287)
  || (c =? 12288) || (c =? 65279) )%N.

Fixpoint trimStart (s : jsstring) : jsstring :=
  match s with
  | c :: rest => if is_space c then trimStart rest else s
  | [] => []
  end.

Definition trimEnd (s : jsstring) : jsstring := rev (trimStart (rev s)).

Definition trim (s : jsstring) : jsstring := trimEnd (trimStart s).

(** [s.startsWith(p)]. *)
Fixpoint startsWith (s p : jsstring) : bool :=
  match p, s with
  | [], _ => true
  | _ :: _, [] => false
  | a :: p', b :: s' => (a =? b)%N && startsWith s' p'
  end.

(** [s.endsWith(p)]. *)
Definition endsWith (s p : jsstring) : bool := startsWith (rev s) (rev p).

(** Truthiness of a string: [Boolean(s)], [!s]. *)
Definition truthy (s : jsstring) : bool :=
  match s with [] => false | _ :: _ => true end.

(** [text.split(/\r?\n/)]: the separator is a line feed together with the
    carriage return immediately before it, when there is one.  [cur] holds
    the code units of the piece being read, most recent first. *)
Fixpoint split_from (cur : jsstring) (s : jsstring) : list jsstring :=
  match s with
  | [] => [rev cur]
  | 13%N :: 10%N :: rest => rev cur :: split_from [] rest
  | 10%N :: rest => rev cur :: split_from [] rest
  | c :: rest => split_from (c :: cur) rest
  end.

Definition split_lines (text : jsstring) : list jsstring := split_from [] text.

End Js.

(* ================================================================== *)
(** * stream.js: pipeline control and the readiness wait               *)
(* ================================================================== *)

Module Stream.
Import Js.

(** ** Page state *)

(** Keys of the [base] table of [setHlsBadge]. *)
Inductive BadgeState := idle | wait | ready | error.

(** The [extra] texts the script passes to [setHlsBadge]. *)
Inductive BadgeExtra :=
| NoExtra                         (* ""                        *)
| Progress (segs minSegs : Z)     (* `${segs}/${minSegments}`  *)
| SegsFound (segs : Z)            (* `${segs} segs`            *)
| TimeoutText                     (* "timeout"                 *)
| NoHlsUrlText                    (* "нет hls_url"             *)
| ReloadErrorText.                (* "ошибка перезагрузки"     *)

Record Badge := { badgeState : BadgeState; badgeExtra : BadgeExtra }.

(** Ways a promise is rejected in this script. *)
Inductive Exn :=
| NetworkError        (* fetch rejected: the request failed outright *)
| SyntaxError         (* resp.json() rejected: the body is not JSON  *)
| TypeError.          (* property read on null                       *)

Inductive StopReason :=
| ReasonStopped | ReasonFatal | ReasonPipelineStopped | ReasonReload | ReasonUser.

(** A playlist URL with its cache-busting query, `${hlsUrl}?_=${Date.now()}`.
    [base = None] is an [undefined] URL. *)
Record BustedUrl := { base : option string; stamp : Z }.

(** The lines handed to [appendLog] (the clock prefix is left out). *)
Inductive LogLine :=
| LogPlayerStopped (reason : StopReason)
| LogLoading (url : BustedUrl)
| LogNativeHls
| LogHlsJs
| LogUnsupported
| LogStartError (detail : option string)   (* None: the fallback text *)
| LogPipelineStarted
| LogWaitCancelled
| LogNotReady
| LogReloadNoUrl
| LogReloadWaiting
| LogReloadCancelled
| LogReloadNotReady
| LogReloadError (e : Exn).

(** The fields of a backend status object the script reads. *)
Record StatusObj := { hls_url : option string; detail : option string }.

(** A decoded JSON body: [null], or a value whose properties can be read. *)
Inductive Json := JNull | JObj (o : StatusObj).

Record Page := {
  startToken     : Z;
  hlsBadge       : option Badge;     (* None: no #hlsBadge element *)
  logLines       : list LogLine;
  safeLastStatus : Json;
  statusShown    : Json;             (* statusEl.textContent *)
  hls            : option BustedUrl; (* the hls.js instance and its source *)
  videoSrc       : option BustedUrl; (* the src attribute of the video *)
  videoPlaying   : bool
}.

(** What the browser offers to [loadPlayer]. *)
Record Browser := {
  canPlayNative  : bool;   (* video.canPlayType("application/vnd.apple.mpegurl") *)
  hlsJsSupported : bool    (* window.Hls && window.Hls.isSupported() *)
}.

Definition MAX_LOG_LINES : nat := 300.

Definition with_token (v : Z) (g : Page) : Page :=
  {| startToken := v; hlsBadge := hlsBadge g; logLines := logLines g;
     safeLastStatus := safeLastStatus g; statusShown := statusShown g;
     hls := hls g; videoSrc := videoSrc g; videoPlaying := videoPlaying g |}.

Definition with_badge (b : option Badge) (g : Page) : Page :=
  {| startToken := startToken g; hlsBadge := b; logLines := logLines g;
     safeLastStatus := safeLastStatus g; statusShown := statusShown g;
     hls := hls g; videoSrc := videoSrc g; videoPlaying := videoPlaying g |}.

Definition with_logs (l : list LogLine) (g : Page) : Page :=
  {| startToken := startToken g; hlsBadge := hlsBadge g; logLines := l;
     safeLastStatus := safeLastStatus g; statusShown := statusShown g;
     hls := hls g; videoSrc := videoSrc g; videoPlaying := videoPlaying g |}.

Definition with_status (d : Json) (g : Page) : Page :=
  {| startToken := startToken g; hlsBadge := hlsBadge g; logLines := logLines g;
     safeLastStatus := d; statusShown := d;
     hls := hls g; videoSrc := videoSrc g; videoPlaying := videoPlaying g |}.

Definition with_player (h v : option BustedUrl) (playing : bool) (g : Page) : Page :=
  {| startToken := startToken g; hlsBadge := hlsBadge g; logLines := logLines g;
     safeLastStatus := safeLastStatus g; statusShown := statusShown g;
     hls := h; videoSrc := v; videoPlaying := playing |}.

(** [appendLog]: push, then shift while more than [MAX_LOG_LINES] are kept. *)
Definition appendLog (line : LogLine) (g : Page) : Page :=
  let l := logLines g ++ [line] in
  with_logs (skipn (List.length l - MAX_LOG_LINES)%nat l) g.

(** [setHlsBadge]: nothing happens when the element is missing. *)
Definition setHlsBadge (st : BadgeState) (extra : BadgeExtra) (g : Page) : Page :=
  match hlsBadge g with
  | None => g
  | Some _ => with_badge (Some {| badgeState := st; badgeExtra := extra |}) g
  end.

(** [startToken++]. *)
Definition bumpToken (g : Page) : Page := with_token (startToken g + 1) g.

(** ** countSegmentsInM3U8 *)

(** [text.split(/\r?\n/).map(s => s.trim()).filter(Boolean)]. *)
Definition playlist_lines (text : jsstring) : list jsstring :=
  filter truthy (map trim (split_lines text)).

(** The [for ... of] loop with its counter [n]. *)
Fixpoint count_loop (lines : list jsstring) (n : Z) : Z :=
  match lines with
  | [] => n
  | ln :: rest =>
      if startsWith ln (units "#") then count_loop rest n
      else if endsWith ln (units ".ts") || endsWith ln (units ".m4s")
           then count_loop rest (n + 1)
           else count_loop rest n
  end.

Definition countSegmentsInM3U8 (text : jsstring) : Z :=
  count_loop (playlist_lines text) 0.

(** The count as the specification words it: a segment line is a line that
    is not empty, does not start with "#", and ends with ".ts" or ".m4s". *)
Definition is_segment_line (ln : jsstring) : bool :=
  truthy ln && negb (startsWith ln (units "#"))
  && (endsWith ln (units ".ts") || endsWith ln (units ".m4s")).

Definition segment_line_count (lines : list jsstring) : Z :=
  Z.of_nat (List.length (filter is_segment_line lines)).

(** The playlist of the specification's example. *)
Definition examplePlaylist : jsstring :=
  units "#EXTM3U" ++ [10%N] ++ units "seg1.ts" ++ [10%N] ++ units "seg2.ts"
  ++ [10%N] ++ units "#EXT-X-ENDLIST".

(** ** Requests *)

(** How a [fetch] ends: the promise is rejected, or a response arrives. *)
Inductive Fetched (A : Type) :=
| Rejected
| Response (ok : bool) (body : A).
Arguments Rejected {A}.
Arguments Response {A} ok body.

(** [fetchTextNoStore]: [null] unless [resp.ok]. *)
Definition fetchTextNoStore (r : Fetched jsstring) : Exn + option jsstring :=
  match r with
  | Rejected => inl NetworkError
  | Response ok body => inr (if ok then Some body else None)
  end.

(** [await fetch(...)] followed by [await resp.json()]; the body is [None]
    when it does not parse. *)
Definition fetchJson (r : Fetched (option Json)) : Exn + (bool * Json) :=
  match r with
  | Rejected => inl NetworkError
  | Response _ None => inl SyntaxError
  | Response ok (Some d) => inr (ok, d)
  end.

(** ** waitForHlsReady *)

Inductive WaitResult :=
| Ready (segs : Z)     (* { ok: true, segs }           *)
| Cancelled            (* { ok: false, cancelled: true } *)
| TimedOut.            (* { ok: false, timeout: true }   *)

Record WaitOptions := { minSegments : Z; timeoutMs : Z; pollMs : Z }.

Definition defaultWaitOptions : WaitOptions :=
  {| minSegments := 2; timeoutMs := 20000; pollMs := 500 |}.

(** The locals of one call, alive across its suspensions. *)
Record WaitFrame := {
  hlsUrl    : option string;
  token     : Z;
  opts      : WaitOptions;
  startTime : Z                  (* const start = Date.now() *)
}.

(** Where a call of [waitForHlsReady] is suspended. *)
Inductive WaitPoint :=
| AtFetch (url : BustedUrl)      (* await fetchTextNoStore(url) *)
| AtSleep (ms : Z).              (* await new Promise(r => setTimeout(r, pollMs)) *)

Inductive WaitStep :=
| Suspended (p : WaitPoint)
| Finished (r : WaitResult)
| Raised (e : Exn).

(** From the loop condition to the next suspension; [now] is the clock. *)
Definition wait_loop_head (now : Z) (f : WaitFrame) (g : Page) : Page * WaitStep :=
  if now - startTime f <? timeoutMs (opts f) then
    if negb (token f =? startToken g) then (g, Finished Cancelled)
    else (g, Suspended (AtFetch {| base := hlsUrl f; stamp := now |}))
  else (setHlsBadge error TimeoutText g, Finished TimedOut).

(** Entry of the function up to its first suspension. *)
Definition waitForHlsReady (now : Z) (url : option string) (tok : Z)
    (o : WaitOptions) (g : Page) : WaitFrame * (Page * WaitStep) :=
  let f := {| hlsUrl := url; token := tok; opts := o; startTime := now |} in
  let g1 := setHlsBadge wait (Progress 0 (minSegments o)) g in
  (f, wait_loop_head now f g1).

(** The playlist request has ended: from there to the next suspension. *)
Definition wait_on_text (r : Fetched jsstring) (f : WaitFrame) (g : Page)
    : Page * WaitStep :=
  match fetchTextNoStore r with
  | inl e => (g, Raised e)
  | inr None => (g, Suspended (AtSleep (pollMs (opts f))))
  | inr (Some text) =>
      if truthy text then
        let segs := countSegmentsInM3U8 text in
        let g1 := setHlsBadge wait (Progress segs (minSegments (opts f))) g in
        if minSegments (opts f) <=? segs
        then (setHlsBadge ready (SegsFound segs) g1, Finished (Ready segs))
        else (g1, Suspended (AtSleep (pollMs (opts f))))
      else (g, Suspended (AtSleep (pollMs (opts f))))
  end.

(** ** Player *)

Definition stopPlayer (reason : StopReason) (g : Page) : Page :=
  let g1 := setHlsBadge idle NoExtra g in
  let g2 := with_player None None false g1 in
  appendLog (LogPlayerStopped reason) g2.

(** [loadPlayer].  The listeners it registers on the hls.js instance run
    on playback events and are not part of this model. *)
Definition loadPlayer (br : Browser) (now : Z) (url : option string) (g : Page) : Page :=
  let u := {| base := url; stamp := now |} in
  let g1 := appendLog (LogLoading u) g in
  if canPlayNative br then
    appendLog LogNativeHls (with_player (hls g1) (Some u) true g1)
  else if hlsJsSupported br then
    appendLog LogHlsJs (with_player (Some u) (videoSrc g1) true g1)
  else appendLog LogUnsupported g1.

(** ** The three operations as resumable computations *)

(** Which handler called [waitForHlsReady]. *)
Inductive Caller := FromStart | FromReload.

(** A handler between two turns of the event loop. *)
Inductive Task :=
| StartRequested (input_url : jsstring)  (* startPipeline awaiting fetch and resp.json() *)
| StopRequested                     (* stopPipeline awaiting fetch and resp.json()  *)
| ReloadRequested (tok : Z)         (* reload handler awaiting the status           *)
| Waiting (k : Caller) (f : WaitFrame) (p : WaitPoint)
| Settled                           (* the handler returned                         *)
| Unhandled (e : Exn).              (* the handler's promise was rejected           *)

(** What wakes a suspended handler. *)
Inductive Wakeup :=
| ResponseArrived (r : Fetched (option Json))
| TextArrived (r : Fetched jsstring)
| TimerFired.

(** The options both callers pass. *)
Definition callerWaitOptions : WaitOptions :=
  {| minSegments := 2; timeoutMs := 25000; pollMs := 500 |}.

(** An exception reaching the top of a handler: the reload handler has a
    [try]/[catch] around its whole body, [startPipeline] has none. *)
Definition handler_catch (k : Caller) (e : Exn) (g : Page) : Page * Task :=
  match k with
  | FromStart => (g, Unhandled e)
  | FromReload =>
      (setHlsBadge error ReloadErrorText (appendLog (LogReloadError e) g), Settled)
  end.

(** The code after [const ready = await waitForHlsReady(...)]. *)
Definition after_wait (k : Caller) (br : Browser) (now : Z) (f : WaitFrame)
    (r : WaitResult) (g : Page) : Page :=
  match r with
  | Cancelled =>
      appendLog (match k with FromStart => LogWaitCancelled
                            | FromReload => LogReloadCancelled end) g
  | TimedOut =>
      appendLog (match k with FromStart => LogNotReady
                            | FromReload => LogReloadNotReady end) g
  | Ready _ => loadPlayer br now (hlsUrl f) g
  end.

(** Run the caller as far as the wait lets it. *)
Definition continue_wait (k : Caller) (br : Browser) (now : Z) (f : WaitFrame)
    (gs : Page * WaitStep) : Page * Task :=
  match gs with
  | (g, Suspended p) => (g, Waiting k f p)
  | (g, Finished r) => (after_wait k br now f r g, Settled)
  | (g, Raised e) => handler_catch k e g
  end.

(** [startPipeline] up to its first [await]; [inputValue] is
    [inputUrl.value]. *)
Definition startPipeline (inputValue : jsstring) (g : Page) : Page * Task :=
  let url := trim inputValue in
  if negb (truthy url) then (g, Settled) else (g, StartRequested url).

(** [data.detail || "ошибка"]; [None] stands for the fallback text. *)
Definition detail_or_fallback (d : option string) : option string :=
  match d with
  | Some EmptyString => None
  | other => other
  end.

(** [startPipeline] from the arrival of the control response to its next
    suspension. *)
Definition start_on_response (br : Browser) (now : Z)
    (r : Fetched (option Json)) (g : Page) : Page * Task :=
  match fetchJson r with
  | inl e => (g, Unhandled e)
  | inr (ok, data) =>
      let g1 := with_status data g in
      if negb ok then
        match data with
        | JNull => (g1, Unhandled TypeError)
        | JObj o => (appendLog (LogStartError (detail_or_fallback (detail o))) g1, Settled)
        end
      else
        let g2 := bumpToken g1 in
        let tok := startToken g2 in
        let g3 := appendLog LogPipelineStarted g2 in
        match data with
        | JNull => (g3, Unhandled TypeError)
        | JObj o =>
            let '(f, gs) := waitForHlsReady now (hls_url o) tok callerWaitOptions g3 in
            continue_wait FromStart br now f gs
        end
  end.

(** [stopPipeline] up to its [await]. *)
Definition stopPipeline (g : Page) : Page * Task :=
  (setHlsBadge idle NoExtra (bumpToken g), StopRequested).

Definition stop_on_response (r : Fetched (option Json)) (g : Page) : Page * Task :=
  match fetchJson r with
  | inl e => (g, Unhandled e)
  | inr (_, data) => (stopPlayer ReasonPipelineStopped (with_status data g), Settled)
  end.

(** The click handler of [btnReload] up to its first [await]. *)
Definition reloadClick (g : Page) : Page * Task :=
  let g1 := bumpToken g in
  (stopPlayer ReasonReload g1, ReloadRequested (startToken g1)).

(** [!st || !st.hls_url]. *)
Definition lacks_hls_url (st : Json) : bool :=
  match st with
  | JNull => true
  | JObj o => match hls_url o with
              | None => true
              | Some u => match u with EmptyString => true | _ => false end
              end
  end.

Definition reload_on_status (br : Browser) (now : Z) (tok : Z)
    (r : Fetched (option Json)) (g : Page) : Page * Task :=
  match fetchJson r with
  | inl e => handler_catch FromReload e g
  | inr (_, st) =>
      let g1 := with_status st g in
      if lacks_hls_url st then
        (setHlsBadge error NoHlsUrlText (appendLog LogReloadNoUrl g1), Settled)
      else
        let g2 := appendLog LogReloadWaiting g1 in
        let url := match st with JObj o => hls_url o | JNull => None end in
        let '(f, gs) := waitForHlsReady now url tok callerWaitOptions g2 in
        continue_wait FromReload br now f gs
  end.

(** One turn of the event loop for a suspended handler.  A wake-up that
    does not belong to the suspension is not delivered. *)
Definition resume (br : Browser) (now : Z) (w : Wakeup) (t : Task) (g : Page)
    : Page * Task :=
  match t, w with
  | StartRequested _, ResponseArrived r => start_on_response br now r g
  | StopRequested, ResponseArrived r => stop_on_response r g
  | ReloadRequested tok, ResponseArrived r => reload_on_status br now tok r g
  | Waiting k f (AtFetch _), TextArrived r =>
      continue_wait k br now f (wait_on_text r f g)
  | Waiting k f (AtSleep _), TimerFired =>
      continue_wait k br now f (wait_loop_head now f g)
  | _, _ => (g, t)
  end.

(** The page as the script leaves it before any click: no token issued,
    an empty status, no player. *)
Definition initialPage (badge : option Badge) : Page :=
  {| startToken := 0; hlsBadge := badge; logLines := [];
     safeLastStatus := JObj {| hls_url := None; detail := None |};
     statusShown := JObj {| hls_url := None; detail := None |};
     hls := None; videoSrc := None; videoPlaying := false |}.

(** ** A run of the page used in the examples below *)

Module Scenario.

Definition br : Browser := {| canPlayNative := true; hlsJsSupported := false |}.

Definition page0 : Page :=
  initialPage (Some {| badgeState := idle; badgeExtra := NoExtra |}).

Definition status_a : Json :=
  JObj {| hls_url := Some "/hls/a.m3u8"%string; detail := None |}.

(** The user starts a pipeline; the backend accepts it at time 1000 and the
    handler suspends on its first playlist request. *)
Definition started : Page * Task :=
  let '(g, k) := startPipeline (units "rtsp://a") page0 in
  resume br 1000 (ResponseArrived (Response true (Some status_a))) k g.

(** While that request is in flight the user presses Stop. *)
Definition stopped : Page * Task := stopPipeline (fst started).

(** The playlist request of the start handler then ends with two segments. *)
Definition late_playlist : Page * Task :=
  resume br 1200 (TextArrived (Response true examplePlaylist))
         (snd started) (fst stopped).

(** Instead of Stop, a second Start that the backend refuses. *)
Definition refused : Page * Task :=
  let '(g, k) := startPipeline (units "rtsp://b") (fst started) in
  resume br 1100
    (ResponseArrived
       (Response false (Some (JObj {| hls_url := None; detail := Some "busy"%string |}))))
    k g.

End Scenario.

(** ** The rest of the page: status polling and the event loop *)

(** [pollStatus] from the end of its request on; its [catch] swallows every
    failure. *)
Definition pollStatus_on_response (r : Fetched (option Json)) (g : Page) : Page :=
  match fetchJson r with
  | inl _ => g
  | inr (_, d) => with_status d g
  end.

(** The page with the handlers that have been started on it. *)
Record System := { page : Page; tasks : list Task }.

(** What the browser delivers to the page. *)
Inductive Action :=
| ClickStart (inputValue : jsstring)     (* btnStart: startPipeline       *)
| ClickStop                              (* btnStop: stopPipeline         *)
| ClickReload                            (* btnReload                     *)
| ClickStopPlayer                        (* btnStopPlayer: stopPlayer("user") *)
| StatusPolled (r : Fetched (option Json))   (* a round of pollStatus     *)
| Wake (i : nat) (now : Z) (w : Wakeup). (* the i-th handler is resumed   *)

(** Replace the [i]-th handler. *)
Fixpoint set_task (ts : list Task) (i : nat) (t : Task) : list Task :=
  match ts, i with
  | [], _ => []
  | _ :: rest, O => t :: rest
  | u :: rest, S i' => u :: set_task rest i' t
  end.

Definition act (br : Browser) (a : Action) (s : System) : System :=
  match a with
  | ClickStart v =>
      let '(g, t) := startPipeline v (page s) in
      {| page := g; tasks := tasks s ++ [t] |}
  | ClickStop =>
      let '(g, t) := stopPipeline (page s) in
      {| page := g; tasks := tasks s ++ [t] |}
  | ClickReload =>
      let '(g, t) := reloadClick (page s) in
      {| page := g; tasks := tasks s ++ [t] |}
  | ClickStopPlayer => {| page := stopPlayer ReasonUser (page s); tasks := tasks s |}
  | StatusPolled r => {| page := pollStatus_on_response r (page s); tasks := tasks s |}
  | Wake i now w =>
      match nth_error (tasks s) i with
      | None => s
      | Some t =>
          let '(g, t') := resume br now w t (page s) in
          {| page := g; tasks := set_task (tasks s) i t' |}
      end
  end.

(** The generation token a suspended handler will compare with
    [startToken]. *)
Definition held_token (t : Task) : option Z :=
  match t with
  | Waiting _ f _ => Some (token f)
  | ReloadRequested tok => Some tok
  | _ => None
  end.

(** No handler holds a token from the future, and no two handlers hold
    the same token. *)
Definition tokens_ok (s : System) : Prop :=
  (forall i t z, nth_error (tasks s) i = Some t -> held_token t = Some z ->
     z <= startToken (page s))
  /\ (forall i j ti tj z,
        nth_error (tasks s) i = Some ti -> nth_error (tasks s) j = Some tj ->
        held_token ti = Some z -> held_token tj = Some z -> i = j).

(** The page after a sequence of deliveries. *)
Definition deliver (br : Browser) (actions : list Action) (s : System) : System :=
  fold_left (fun acc a => act br a acc) actions s.

(** A playlist response that does not make the wait ready: a non-success
    status, an empty body, or fewer segment lines than [minSegments]. *)
Definition not_enough (f : WaitFrame) (r : Fetched jsstring) : Prop :=
  match r with
  | Rejected => False
  | Response ok text =>
      ok = false \/ truthy text = false
      \/ countSegmentsInM3U8 text < minSegments (opts f)
  end.

(** Rounds of polling of one handler: in each round its playlist request
    ends with [r] at time [t_text] and its timer then fires at [t_timer]. *)
Fixpoint poll_rounds (br : Browser) (rounds : list (Fetched jsstring * Z * Z))
    (st : Page * Task) : Page * Task :=
  match rounds with
  | [] => st
  | (r, t_text, t_timer) :: rest =>
      let '(g1, k1) := resume br t_text (TextArrived r) (snd st) (fst st) in
      poll_rounds br rest (resume br t_timer TimerFired k1 g1)
  end.

(** [lines.join(sep)] on code units. *)
Fixpoint join_lines (sep : jsstring) (lines : list jsstring) : jsstring :=
  match lines with
  | [] => []
  | [ln] => ln
  | ln :: rest => ln ++ sep ++ join_lines sep rest
  end.

(** A line without line feed or carriage return. *)
Definition one_line (ln : jsstring) : Prop :=
  Forall (fun c => c <> 10%N /\ c <> 13%N) ln.

End Stream.

(* ================================================================== *)
(** * Numbers shared by the two canvas pages                            *)
(* ================================================================== *)

Module Num.

(** The nearest integer to a rational, halves going up. *)
Definition Qround_half_up (x : Q) : Z := Qfloor (x + (1 # 2)).

(** ToInt32, applied by the bitwise operators to their operands. *)
Definition to_int32 (z : Z) : Z :=
  let m := z mod 2 ^ 32 in
  if m <? 2 ^ 31 then m else m - 2 ^ 32.

(** [z >> 1]. *)
Definition sar1 (z : Z) : Z := Z.shiftr (to_int32 z) 1.

Definition Qltb (a b : Q) : bool := negb (Qle_bool b a).

Definition Qmaxb (a b : Q) : Q := if Qle_bool a b then b else a.
Definition Qminb (a b : Q) : Q := if Qle_bool a b then a else b.

(** [a[i]] for a JavaScript index: [None] is [undefined]. *)
Definition at_index {A : Type} (a : list A) (i : Z) : option A :=
  if i <? 0 then None else nth_error a (Z.to_nat i).

(** How a piece of script run to completion ends.  [OutOfFuel] belongs to
    the model only: the loop was cut before its condition failed. *)
Inductive Run (A : Type) :=
| Done (a : A)
| Throws
| OutOfFuel.
Arguments Done {A} a.
Arguments Throws {A}.
Arguments OutOfFuel {A}.

(** ** The arithmetic of JavaScript numbers

    What the two canvas pages do with numbers: integer literals and
    integer-valued properties, [+ - * /], [<] and [<=], the truth test of
    [||], [Math.max], [Math.min] and [Math.round].  [Math_round] yields the
    integer itself: the scripts round the sides of a layout rectangle only,
    which are finite.  The type of the numbers is kept apart from the
    operations, so that the data of a page depends on the type alone. *)
Class NumberType := { num : Type }.

Class Number {Nt : NumberType} := {
  of_Z : Z -> num;
  add : num -> num -> num;
  sub : num -> num -> num;
  mul : num -> num -> num;
  div : num -> num -> num;
  ltb : num -> num -> bool;
  leb : num -> num -> bool;
  falsy : num -> bool;
  Math_max : num -> num -> num;
  Math_min : num -> num -> num;
  Math_round : num -> Z
}.

Declare Scope num_scope.
Delimit Scope num_scope with num.
Bind Scope num_scope with num.
Infix "+" := add : num_scope.
Infix "-" := sub : num_scope.
Infix "*" := mul : num_scope.
Infix "/" := div : num_scope.
Infix "<?" := ltb : num_scope.
Infix "<=?" := leb : num_scope.

(** Exact arithmetic: the rationals, nothing rounded.  Division by zero
    gives 0 here, where a script gets NaN or an infinity. *)
Definition rationals : NumberType := {| num := Q |}.

Definition exact : @Number rationals :=
  {| of_Z := inject_Z : Z -> @num rationals;
     add := Qplus; sub := Qminus; mul := Qmult; div := Qdiv;
     ltb := Qltb; leb := Qle_bool;
     falsy := fun a => Qeq_bool a 0;
     Math_max := Qmaxb; Math_min := Qminb;
     Math_round := Qround_half_up |}.

(** *** IEEE 754 binary64, the numbers of the scripts *)

Definition float := PrimFloat.float.

Definition doubles : NumberType := {| num := float |}.

(** The double nearest to an integer. *)
Definition float_of_Z (z : Z) : float :=
  FloatOps.SF2Prim (SpecFloat.binary_normalize FloatOps.prec FloatOps.emax z 0 false).

(** [!a]: zero of either sign, or NaN. *)
Definition float_falsy (a : float) : bool :=
  PrimFloat.is_zero a || PrimFloat.is_nan a.

(** [Math.max(a, b)]: NaN if either is; of two zeros the positive one. *)
Definition float_max (a b : float) : float :=
  if PrimFloat.is_nan a || PrimFloat.is_nan b then PrimFloat.nan
  else if PrimFloat.ltb a b then b
  else if PrimFloat.ltb b a then a
  else if PrimFloat.get_sign a then b else a.

(** [Math.min(a, b)]: NaN if either is; of two zeros the negative one. *)
Definition float_min (a b : float) : float :=
  if PrimFloat.is_nan a || PrimFloat.is_nan b then PrimFloat.nan
  else if PrimFloat.ltb a b then a
  else if PrimFloat.ltb b a then b
  else if PrimFloat.get_sign a then a else b.

(** [Math.round] of a finite double [(-1)^s * m * 2^e]: the floor of its
    exact value plus one half.  (0 stands for the result on NaN and the
    infinities, which the scripts never round.) *)
Definition float_round (a : float) : Z :=
  match FloatOps.Prim2SF a with
  | SpecFloat.S754_finite s m e =>
      let v := SpecFloat.cond_Zopp s (Zpos m) in
      if 0 <=? e then v * 2 ^ e
      else (2 * v + 2 ^ (- e)) / 2 ^ (1 - e)
  | _ => 0
  end.

Definition binary64 : @Number doubles :=
  {| of_Z := float_of_Z : Z -> @num doubles;
     add := PrimFloat.add; sub := PrimFloat.sub;
     mul := PrimFloat.mul; div := PrimFloat.div;
     ltb := PrimFloat.ltb; leb := PrimFloat.leb;
     falsy := float_falsy;
     Math_max := float_max; Math_min := float_min;
     Math_round := float_round |}.

(** The exact value of a finite double (0 for NaN and the infinities). *)
Definition value (a : float) : Q :=
  match FloatOps.Prim2SF a with
  | SpecFloat.S754_finite s m e =>
      (inject_Z (SpecFloat.cond_Zopp s (Zpos m)) * Qpower 2 e)%Q
  | _ => 0%Q
  end.

(** What the binary search needs of the order of the numbers. *)
Record OrderLaws {Nt : NumberType} (N : Number) : Prop := {
  leb_trans : forall a b c : num,
    leb a b = true -> leb b c = true -> leb a c = true;
  leb_ltb_trans : forall a b c : num,
    leb a b = true -> ltb b c = true -> ltb a c = true
}.

End Num.

(* ================================================================== *)
(** * video.js: the timeline and its overlay                            *)
(* ================================================================== *)

Module Video.
Import Num.

Section WithNumbers.
Context {Nt : NumberType} {N : Number}.

Record Box := {
  x1 : num; y1 : num; x2 : num; y2 : num;
  cls_name : option string;
  conf : option num
}.

Record TimelineEntry := {
  t : num;
  count : option Z;
  boxes : list Box
}.

(** ** findNearestIndex *)

(** The [while (lo <= hi)] loop; the result is the final [(lo, hi)].
    Reading [.t] of a missing element throws. *)
Fixpoint search_loop (fuel : nat) (timeline : list TimelineEntry) (tq : num)
    (lo hi : Z) : Run (Z * Z) :=
  if lo <=? hi then
    match fuel with
    | O => OutOfFuel
    | S fuel' =>
        let mid := sar1 (lo + hi) in
        match at_index timeline mid with
        | None => Throws
        | Some e =>
            if (t e <? tq)%num
            then search_loop fuel' timeline tq (mid + 1) hi
            else search_loop fuel' timeline tq lo (mid - 1)
        end
    end
  else Done (lo, hi).

Definition findNearestIndex (timeline : list TimelineEntry) (tq : num) : Run Z :=
  let n := Z.of_nat (List.length timeline) in
  if n =? 0 then Done (-1)
  else
    match search_loop (S (List.length timeline)) timeline tq 0 (n - 1) with
    | OutOfFuel => OutOfFuel
    | Throws => Throws
    | Done (lo, hi) =>
        if hi <? 0 then Done 0
        else if n <=? lo then Done (n - 1)
        else
          match at_index timeline hi, at_index timeline lo with
          | Some eh, Some el =>
              if (tq - t eh <=? t el - tq)%num then Done hi else Done lo
          | _, _ => Throws
          end
    end.

(** A timeline ordered by time, non-decreasing: each entry is [<=] the
    next. *)
Definition sorted_by_t (tl : list TimelineEntry) : Prop :=
  Sorted (fun a b => (a <=? b)%num = true) (map t tl).

(** Loop invariant of the search: every entry left of [lo] is before the
    query, every entry right of [hi] is not. *)
Definition brackets (tl : list TimelineEntry) (tq : num) (lo hi : Z) : Prop :=
  (forall j ej, at_index tl j = Some ej -> j < lo -> (t ej <? tq)%num = true) /\
  (forall j ej, at_index tl j = Some ej -> hi < j -> (t ej <? tq)%num = false).

(** ** Page state *)

(** The chosen file, known by its name only. *)
Definition File := string.

(** The label of a box: class name, and the confidence that is printed as
    `${(conf * 100).toFixed(1)}%`. *)
Record Label := { label_cls : string; label_conf : num }.

(** What [drawBoxes] paints for one box. *)
Record Painted := {
  strokeRect : num * num * num * num;   (* x, y, w, h            *)
  chipRect   : num * num * num * num;   (* bx, by, tw + 6, 16    *)
  textAt     : num * num;               (* bx + 3, by + 12       *)
  label      : Label
}.

(** The overlay canvas: backing size and what is painted on it.  The page
    asks for the "2d" context only, so [getContext] always yields it. *)
Record Canvas := {
  width  : Z;
  height : Z;
  painted : list Painted
}.

(** The video element and window as the script reads them. *)
Record Viewport := {
  currentTime      : num;
  videoWidth       : Z;
  videoHeight      : Z;
  rectWidth        : num;          (* video.getBoundingClientRect().width  *)
  rectHeight       : num;
  devicePixelRatio : num;
  measureText      : Label -> num  (* ctx.measureText(label).width         *)
}.

Inductive CountText := CountDash | CountOf (n : Z).
Inductive TimeText := TimeDash | TimeOf (entry_t video_t : num).
Inductive StatsText := StatsDash | StatsOf (avg max : num).

(** What the [catch] clause of [detectVideo] receives. *)
Inductive Failure :=
| DetectionFailed (detail : option string)  (* new Error(data.detail || "Detection failed") *)
| RequestFailed                             (* fetch rejected                              *)
| ScriptError.                              (* TypeError: property read on null/undefined  *)

(** The fields of a detection response the script reads. *)
Record DetectResponse := {
  r_timeline : option (list TimelineEntry);   (* None: not an array *)
  avg_count : option num;
  max_count : option num;
  frames_processed : option Z;
  infer_fps : option num;
  include_boxes : option bool;
  r_detail : option string
}.

Definition emptyResponse : DetectResponse :=
  {| r_timeline := None; avg_count := None; max_count := None;
     frames_processed := None; infer_fps := None; include_boxes := None;
     r_detail := None |}.

Inductive InfoText :=
| InfoUploading
| InfoDone (frames : option Z) (fps : option num)
| InfoFailed (e : Failure)
| InfoChoose
| InfoReady.

Inductive DebugText :=
| DebugEmpty
| DebugSummary (d : DetectResponse) (timeline_len : Z)
| DebugFailed (e : Failure).

Record Page := {
  currentFile    : option File;
  timeline       : list TimelineEntry;
  avgCount       : num;
  maxCount       : num;
  overlayVisible : bool;
  lastIdx        : Z;
  canvas         : Canvas;
  countText      : CountText;
  tText          : TimeText;
  statsText      : StatsText;
  infoText       : InfoText;
  debugText      : DebugText;
  detectDisabled : bool             (* btnDetect.disabled *)
}.

Definition set_currentFile (v : option File) (s : Page) : Page :=
  {| currentFile := v; timeline := timeline s; avgCount := avgCount s;
     maxCount := maxCount s; overlayVisible := overlayVisible s; lastIdx := lastIdx s;
     canvas := canvas s; countText := countText s; tText := tText s;
     statsText := statsText s; infoText := infoText s; debugText := debugText s;
     detectDisabled := detectDisabled s |}.

Definition set_timeline (v : list TimelineEntry) (s : Page) : Page :=
  {| currentFile := currentFile s; timeline := v; avgCount := avgCount s;
     maxCount := maxCount s; overlayVisible := overlayVisible s; lastIdx := lastIdx s;
     canvas := canvas s; countText := countText s; tText := tText s;
     statsText := statsText s; infoText := infoText s; debugText := debugText s;
     detectDisabled := detectDisabled s |}.

Definition set_avgCount (v : num) (s : Page) : Page :=
  {| currentFile := currentFile s; timeline := timeline s; avgCount := v;
     maxCount := maxCount s; overlayVisible := overlayVisible s; lastIdx := lastIdx s;
     canvas := canvas s; countText := countText s; tText := tText s;
     statsText := statsText s; infoText := infoText s; debugText := debugText s;
     detectDisabled := detectDisabled s |}.

Definition set_maxCount (v : num) (s : Page) : Page :=
  {| currentFile := currentFile s; timeline := timeline s; avgCount := avgCount s;
     maxCount := v; overlayVisible := overlayVisible s; lastIdx := lastIdx s;
     canvas := canvas s; countText := countText s; tText := tText s;
     statsText := statsText s; infoText := infoText s; debugText := debugText s;
     detectDisabled := detectDisabled s |}.

Definition set_overlayVisible (v : bool) (s : Page) : Page :=
  {| currentFile := currentFile s; timeline := timeline s; avgCount := avgCount s;
     maxCount := maxCount s; overlayVisible := v; lastIdx := lastIdx s;
     canvas := canvas s; countText := countText s; tText := tText s;
     statsText := statsText s; infoText := infoText s; debugText := debugText s;
     detectDisabled := detectDisabled s |}.

Definition set_lastIdx (v : Z) (s : Page) : Page :=
  {| currentFile := currentFile s; timeline := timeline s; avgCount := avgCount s;
     maxCount := maxCount s; overlayVisible := overlayVisible s; lastIdx := v;
     canvas := canvas s; countText := countText s; tText := tText s;
     statsText := statsText s; infoText := infoText s; debugText := debugText s;
     detectDisabled := detectDisabled s |}.

Definition set_canvas (v : Canvas) (s : Page) : Page :=
  {| currentFile := currentFile s; timeline := timeline s; avgCount := avgCount s;
     maxCount := maxCount s; overlayVisible := overlayVisible s; lastIdx := lastIdx s;
     canvas := v; countText := countText s; tText := tText s;
     statsText := statsText s; infoText := infoText s; debugText := debugText s;
     detectDisabled := detectDisabled s |}.

Definition set_countText (v : CountText) (s : Page) : Page :=
  {| currentFile := currentFile s; timeline := timeline s; avgCount := avgCount s;
     maxCount := maxCount s; overlayVisible := overlayVisible s; lastIdx := lastIdx s;
     canvas := canvas s; countText := v; tText := tText s;
     statsText := statsText s; infoText := infoText s; debugText := debugText s;
     detectDisabled := detectDisabled s |}.

Definition set_tText (v : TimeText) (s : Page) : Page :=
  {| currentFile := currentFile s; timeline := timeline s; avgCount := avgCount s;
     maxCount := maxCount s; overlayVisible := overlayVisible s; lastIdx := lastIdx s;
     canvas := canvas s; countText := countText s; tText := v;
     statsText := statsText s; infoText := infoText s; debugText := debugText s;
     detectDisabled := detectDisabled s |}.

Definition set_statsText (v : StatsText) (s : Page) : Page :=
  {| currentFile := currentFile s; timeline := timeline s; avgCount := avgCount s;
     maxCount := maxCount s; overlayVisible := overlayVisible s; lastIdx := lastIdx s;
     canvas := canvas s; countText := countText s; tText := tText s;
     statsText := v; infoText := infoText s; debugText := debugText s;
     detectDisabled := detectDisabled s |}.

Definition set_infoText (v : InfoText) (s : Page) : Page :=
  {| currentFile := currentFile s; timeline := timeline s; avgCount := avgCount s;
     maxCount := maxCount s; overlayVisible := overlayVisible s; lastIdx := lastIdx s;
     canvas := canvas s; countText := countText s; tText := tText s;
     statsText := statsText s; infoText := v; debugText := debugText s;
     detectDisabled := detectDisabled s |}.

Definition set_debugText (v : DebugText) (s : Page) : Page :=
  {| currentFile := currentFile s; timeline := timeline s; avgCount := avgCount s;
     maxCount := maxCount s; overlayVisible := overlayVisible s; lastIdx := lastIdx s;
     canvas := canvas s; countText := countText s; tText := tText s;
     statsText := statsText s; infoText := infoText s; debugText := v;
     detectDisabled := detectDisabled s |}.

Definition set_detectDisabled (v : bool) (s : Page) : Page :=
  {| currentFile := currentFile s; timeline := timeline s; avgCount := avgCount s;
     maxCount := maxCount s; overlayVisible := overlayVisible s; lastIdx := lastIdx s;
     canvas := canvas s; countText := countText s; tText := tText s;
     statsText := statsText s; infoText := infoText s; debugText := debugText s;
     detectDisabled := v |}.

(** ** Drawing *)

(** [window.devicePixelRatio || 1]. *)
Definition dpr (v : Viewport) : num :=
  if falsy (devicePixelRatio v) then of_Z 1 else devicePixelRatio v.

Definition resizeCanvasToVideo (v : Viewport) (s : Page) : Page :=
  set_canvas
    {| width := Z.max 1 (Math_round (rectWidth v * dpr v));
       height := Z.max 1 (Math_round (rectHeight v * dpr v));
       painted := [] |} s.

Definition clearOverlay (s : Page) : Page :=
  set_canvas {| width := width (canvas s); height := height (canvas s);
                painted := [] |} s.

(** The body of the loop of [drawBoxes] for one box; [sx], [sy] are the
    scale factors. *)
Definition paintBox (v : Viewport) (sx sy : num) (b : Box) : Painted :=
  let x := (x1 b * sx)%num in
  let y := (y1 b * sy)%num in
  let w := ((x2 b - x1 b) * sx)%num in
  let h := ((y2 b - y1 b) * sy)%num in
  let l := {| label_cls := match cls_name b with Some c => c | None => "bicycle"%string end;
              label_conf := match conf b with Some c => c | None => of_Z 0 end |} in
  let tw := measureText v l in
  let bx := Math_max (of_Z 0) (Math_min (rectWidth v - (tw + of_Z 6)) x) in
  let by_ := Math_max (of_Z 0) (y - of_Z 16) in
  {| strokeRect := (x, y, w, h);
     chipRect := (bx, by_, (tw + of_Z 6)%num, of_Z 16);
     textAt := ((bx + of_Z 3)%num, (by_ + of_Z 12)%num);
     label := l |}.

Definition drawBoxes (v : Viewport) (bs : list Box) (s : Page) : Page :=
  if negb (overlayVisible s) then clearOverlay s
  else if (videoWidth v =? 0) || (videoHeight v =? 0) then s
  else
    let s1 := resizeCanvasToVideo v s in
    let sx := (rectWidth v / of_Z (videoWidth v))%num in
    let sy := (rectHeight v / of_Z (videoHeight v))%num in
    set_canvas {| width := width (canvas s1); height := height (canvas s1);
                  painted := map (paintBox v sx sy) bs |} s1.

(** What a piece of the script does to the page: it completes, or an
    exception leaves it with the page as it is at that point.  [Cut] belongs
    to the model only (see [Num.OutOfFuel]). *)
Inductive Outcome :=
| Normal (s : Page)
| Threw (e : Failure) (s : Page)
| Cut.

Definition updateOverlayFromCurrentTime (v : Viewport) (onlyIfChanged : bool)
    (s : Page) : Outcome :=
  match timeline s with
  | [] => Normal (set_lastIdx (-1) (set_tText TimeDash (set_countText CountDash (clearOverlay s))))
  | _ :: _ =>
      let tq := currentTime v in
      match findNearestIndex (timeline s) tq with
      | OutOfFuel => Cut
      | Throws => Threw ScriptError s
      | Done idx =>
          if idx <? 0 then Normal s
          else if onlyIfChanged && (idx =? lastIdx s) then Normal s
          else
            let s1 := set_lastIdx idx s in
            match at_index (timeline s) idx with
            | None => Threw ScriptError s1
            | Some item =>
                let s2 := set_countText
                            (match count item with Some c => CountOf c | None => CountDash end) s1 in
                let s3 := set_tText (TimeOf (t item) tq) s2 in
                Normal (drawBoxes v (boxes item) s3)
            end
      end
  end.

(** ** detectVideo *)

(** How the request ends.  The body is what
    [resp.json().catch(() => ({}))] makes of it. *)
Inductive Body := NotJson | Null | Obj (d : DetectResponse).
Inductive Fetched := Rejected | Response (ok : bool) (body : Body).

(** [detectVideo] up to its [await]: [None] when it returns at once. *)
Definition detectVideo (s : Page) : option Page :=
  match currentFile s with
  | None => None
  | Some _ => Some (set_infoText InfoUploading (set_detectDisabled true s))
  end.

(** [a || 0] on a number that may be missing. *)
Definition or_zero (a : option num) : num :=
  match a with
  | Some q => if falsy q then of_Z 0 else q
  | None => of_Z 0
  end.

(** [data.detail || "Detection failed"]; [None] stands for the fallback. *)
Definition detail_or_fallback (d : option string) : option string :=
  match d with
  | Some EmptyString => None
  | other => other
  end.

(** The [try] block from the end of the request on. *)
Definition detect_try (v : Viewport) (r : Fetched) (s : Page) : Outcome :=
  match r with
  | Rejected => Threw RequestFailed s
  | Response ok Null => Threw ScriptError s
  | Response ok body =>
      let data := match body with Obj d => d | _ => emptyResponse end in
      if negb ok then Threw (DetectionFailed (detail_or_fallback (r_detail data))) s
      else
        let s1 := set_timeline (match r_timeline data with Some tl => tl | None => [] end) s in
        let s2 := set_avgCount (or_zero (avg_count data)) s1 in
        let s3 := set_maxCount (or_zero (max_count data)) s2 in
        let s4 := set_statsText (StatsOf (avgCount s3) (maxCount s3)) s3 in
        let s5 := set_infoText (InfoDone (frames_processed data) (infer_fps data)) s4 in
        let s6 := set_debugText
                    (DebugSummary data (Z.of_nat (List.length (timeline s5)))) s5 in
        updateOverlayFromCurrentTime v false s6
  end.

(** The [catch] clause. *)
Definition detect_catch (e : Failure) (s : Page) : Page :=
  let s1 := set_infoText (InfoFailed e) s in
  let s2 := set_timeline [] s1 in
  let s3 := set_avgCount (of_Z 0) s2 in
  let s4 := set_maxCount (of_Z 0) s3 in
  let s5 := set_statsText StatsDash s4 in
  let s6 := clearOverlay s5 in
  set_debugText (DebugFailed e) s6.

(** The [finally] clause. *)
Definition detect_finally (s : Page) : Page := set_detectDisabled false s.

(** [detectVideo] from the end of the request to its return. *)
Definition detect_on_response (v : Viewport) (r : Fetched) (s : Page) : Outcome :=
  match detect_try v r s with
  | Normal s' => Normal (detect_finally s')
  | Threw e s' => Normal (detect_finally (detect_catch e s'))
  | Cut => Cut
  end.

(** [resetUiForNewFile]. *)
Definition resetUiForNewFile (s : Page) : Page :=
  set_statsText StatsDash
    (set_tText TimeDash (set_countText CountDash (clearOverlay (set_timeline [] s)))).

End WithNumbers.

(** ** A page used in the examples below, in exact arithmetic *)

Module Scenario.
#[local] Existing Instance rationals.
#[local] Existing Instance exact.

Definition viewport : Viewport :=
  {| currentTime := 0%Q; videoWidth := 640; videoHeight := 360;
     rectWidth := 320%Q; rectHeight := 180%Q; devicePixelRatio := 2%Q;
     measureText := fun _ => 40%Q |}.

Definition entry (time : Q) (n : Z) : TimelineEntry :=
  {| t := time; count := Some n;
     boxes := [ {| x1 := 10%Q; y1 := 20%Q; x2 := 110%Q; y2 := 220%Q;
                   cls_name := None; conf := Some (9 # 10) |} ] |}.

(** Entries at 0 s, 0.5 s and 1 s. *)
Definition three_entries : list TimelineEntry :=
  [entry 0 1; entry (1 # 2) 2; entry 1 3].

(** A page holding the result of an earlier detection. *)
Definition loaded : Page :=
  {| currentFile := Some "ride.mp4"%string;
     timeline := three_entries;
     avgCount := 2%Q; maxCount := 3%Q; overlayVisible := true; lastIdx := 0;
     canvas := {| width := 640; height := 360;
                  painted := [paintBox viewport (1 # 2) (1 # 2)
                                {| x1 := 10%Q; y1 := 20%Q; x2 := 110%Q; y2 := 220%Q;
                                   cls_name := None; conf := Some (9 # 10) |}] |};
     countText := CountOf 1; tText := TimeOf 0%Q 0%Q; statsText := StatsOf 2%Q 3%Q;
     infoText := InfoReady; debugText := DebugEmpty; detectDisabled := false |}.

End Scenario.

(** ** Timelines used in the examples below, in binary64 *)

Module Doubles.
#[local] Existing Instance doubles.
#[local] Existing Instance binary64.
Import PrimFloat.

Definition entry (time : float) (n : Z) : TimelineEntry :=
  {| t := time; count := Some n; boxes := [] |}.

(** The doubles nearest to 0.1, 1.1 and 2.1. *)
Definition d0_1 : float := 0x1.999999999999ap-4%float.
Definition d1_1 : float := 0x1.199999999999ap+0%float.
Definition d2_1 : float := 0x1.0cccccccccccdp+1%float.

(** Entries at 0.1 s and 2.1 s. *)
Definition tenths : list TimelineEntry := [entry d0_1 1; entry d2_1 2].

(** Two entries at 1 s. *)
Definition twins : list TimelineEntry := [entry 1%float 1; entry 1%float 2].

End Doubles.

(** ** The remaining listeners of the page *)

Section Listeners.
Context {Nt : NumberType} {N : Number}.

(** The click handler of [btnStopOverlay]; the caption of the button is not
    kept. *)
Definition on_toggleOverlay (v : Viewport) (s : Page) : Outcome :=
  updateOverlayFromCurrentTime v false
    (set_overlayVisible (negb (overlayVisible s)) s).

(** The [change] listener of the file input, as far as the page record
    goes (the Clear button and the source of the video element are outside
    it). *)
Definition on_fileChange (f : option File) (s : Page) : Page :=
  let s1 := resetUiForNewFile (set_currentFile f s) in
  match f with
  | None => set_infoText InfoChoose (set_detectDisabled true s1)
  | Some _ => set_infoText InfoReady (set_detectDisabled false s1)
  end.

(** [clearAll], with the same proviso. *)
Definition clearAll (s : Page) : Page :=
  let s1 := resetUiForNewFile (set_currentFile None s) in
  set_detectDisabled true (set_infoText InfoChoose (set_debugText DebugEmpty s1)).

(** What the page reacts to.  [Tick] is one call of the [tick] closure of
    [startOverlayLoop]. *)
Inductive Event :=
| Tick
| Paused
| Seeked
| LoadedMetadata
| Resized
| ToggleOverlay
| FileChosen (f : option File)
| ClearClicked
| DetectClicked
| DetectDone (r : Fetched).

Definition handle (v : Viewport) (ev : Event) (s : Page) : Outcome :=
  match ev with
  | Tick => updateOverlayFromCurrentTime v true s
  | Paused | Seeked => updateOverlayFromCurrentTime v false s
  | LoadedMetadata | Resized =>
      updateOverlayFromCurrentTime v false (resizeCanvasToVideo v s)
  | ToggleOverlay => on_toggleOverlay v s
  | FileChosen f => Normal (on_fileChange f s)
  | ClearClicked => Normal (clearAll s)
  | DetectClicked => Normal (match detectVideo s with Some s' => s' | None => s end)
  | DetectDone r => detect_on_response v r s
  end.

(** Nothing is painted unless a timeline is loaded and the overlay is
    shown. *)
Definition blank_unless_shown (s : Page) : Prop :=
  timeline s = [] \/ overlayVisible s = false -> painted (canvas s) = [].

End Listeners.

End Video.

(* ================================================================== *)
(** * photo.js: the region-of-interest editor                           *)
(* ================================================================== *)

Module Photo.
Import Num.

Section WithNumbers.
Context {Nt : NumberType} {N : Number}.

Definition File := string.
Definition Box := Video.Box.

(** A polygon point, in native image pixels. *)
Record Point := { x : num; y : num }.

Inductive CountText := CountDash | CountOf (n : Z).

(** What [setStatus] is given. *)
Inductive Status :=
| StatusEmpty                                   (* ""                        *)
| StatusUploading                               (* "Загрузка…"               *)
| StatusEditOn                                  (* "Редактирование ROI: ВКЛ"  *)
| StatusEditOff                                 (* "Редактирование ROI: ВЫКЛ" *)
| StatusLoaded (w h : Z)                        (* { loaded, width, height }  *)
| StatusHttpError (code : Z)                    (* { error, status, data }    *)
| StatusOk (count : option Z) (nboxes : Z) (roi_sent : bool)
| StatusException.                              (* { error, message }         *)

(** What [updateUiEnabled] writes. *)
Record Ui := {
  detectDisabled   : bool;
  clearDisabled    : bool;
  editRoiDisabled  : bool;
  clearRoiDisabled : bool;
  roiCountText     : Z;
  roiModeEdit      : bool        (* the badge shows the edit mode *)
}.

Record Page := {
  file         : option File;
  imgW         : Z;
  imgH         : Z;
  boxes        : list Box;
  roiPts       : list Point;
  roiEdit      : bool;
  dragIdx      : Z;
  roiEnabled   : bool;           (* els.roiEnabled.checked           *)
  overlaySize  : Z * Z;          (* els.overlay.width, .height       *)
  countText    : CountText;
  boxCountText : CountText;
  status       : Status;
  ui           : Ui
}.

(** Where the browser has laid the elements out. *)
Record Layout := {
  imgRectWidth  : num;           (* els.img.getBoundingClientRect()     *)
  imgRectHeight : num;
  overlayLeft   : num;           (* els.overlay.getBoundingClientRect() *)
  overlayTop    : num
}.

Definition set_file (v : option File) (s : Page) : Page :=
  {| file := v; imgW := imgW s; imgH := imgH s;
     boxes := boxes s; roiPts := roiPts s; roiEdit := roiEdit s;
     dragIdx := dragIdx s; roiEnabled := roiEnabled s; overlaySize := overlaySize s;
     countText := countText s; boxCountText := boxCountText s; status := status s;
     ui := ui s |}.

Definition set_imgW (v : Z) (s : Page) : Page :=
  {| file := file s; imgW := v; imgH := imgH s;
     boxes := boxes s; roiPts := roiPts s; roiEdit := roiEdit s;
     dragIdx := dragIdx s; roiEnabled := roiEnabled s; overlaySize := overlaySize s;
     countText := countText s; boxCountText := boxCountText s; status := status s;
     ui := ui s |}.

Definition set_imgH (v : Z) (s : Page) : Page :=
  {| file := file s; imgW := imgW s; imgH := v;
     boxes := boxes s; roiPts := roiPts s; roiEdit := roiEdit s;
     dragIdx := dragIdx s; roiEnabled := roiEnabled s; overlaySize := overlaySize s;
     countText := countText s; boxCountText := boxCountText s; status := status s;
     ui := ui s |}.

Definition set_boxes (v : list Box) (s : Page) : Page :=
  {| file := file s; imgW := imgW s; imgH := imgH s;
     boxes := v; roiPts := roiPts s; roiEdit := roiEdit s;
     dragIdx := dragIdx s; roiEnabled := roiEnabled s; overlaySize := overlaySize s;
     countText := countText s; boxCountText := boxCountText s; status := status s;
     ui := ui s |}.

Definition set_roiPts (v : list Point) (s : Page) : Page :=
  {| file := file s; imgW := imgW s; imgH := imgH s;
     boxes := boxes s; roiPts := v; roiEdit := roiEdit s;
     dragIdx := dragIdx s; roiEnabled := roiEnabled s; overlaySize := overlaySize s;
     countText := countText s; boxCountText := boxCountText s; status := status s;
     ui := ui s |}.

Definition set_roiEdit (v : bool) (s : Page) : Page :=
  {| file := file s; imgW := imgW s; imgH := imgH s;
     boxes := boxes s; roiPts := roiPts s; roiEdit := v;
     dragIdx := dragIdx s; roiEnabled := roiEnabled s; overlaySize := overlaySize s;
     countText := countText s; boxCountText := boxCountText s; status := status s;
     ui := ui s |}.

Definition set_dragIdx (v : Z) (s : Page) : Page :=
  {| file := file s; imgW := imgW s; imgH := imgH s;
     boxes := boxes s; roiPts := roiPts s; roiEdit := roiEdit s;
     dragIdx := v; roiEnabled := roiEnabled s; overlaySize := overlaySize s;
     countText := countText s; boxCountText := boxCountText s; status := status s;
     ui := ui s |}.

Definition set_roiEnabled (v : bool) (s : Page) : Page :=
  {| file := file s; imgW := imgW s; imgH := imgH s;
     boxes := boxes s; roiPts := roiPts s; roiEdit := roiEdit s;
     dragIdx := dragIdx s; roiEnabled := v; overlaySize := overlaySize s;
     countText := countText s; boxCountText := boxCountText s; status := status s;
     ui := ui s |}.

Definition set_overlaySize (v : Z * Z) (s : Page) : Page :=
  {| file := file s; imgW := imgW s; imgH := imgH s;
     boxes := boxes s; roiPts := roiPts s; roiEdit := roiEdit s;
     dragIdx := dragIdx s; roiEnabled := roiEnabled s; overlaySize := v;
     countText := countText s; boxCountText := boxCountText s; status := status s;
     ui := ui s |}.

Definition set_countText (v : CountText) (s : Page) : Page :=
  {| file := file s; imgW := imgW s; imgH := imgH s;
     boxes := boxes s; roiPts := roiPts s; roiEdit := roiEdit s;
     dragIdx := dragIdx s; roiEnabled := roiEnabled s; overlaySize := overlaySize s;
     countText := v; boxCountText := boxCountText s; status := status s;
     ui := ui s |}.

Definition set_boxCountText (v : CountText) (s : Page) : Page :=
  {| file := file s; imgW := imgW s; imgH := imgH s;
     boxes := boxes s; roiPts := roiPts s; roiEdit := roiEdit s;
     dragIdx := dragIdx s; roiEnabled := roiEnabled s; overlaySize := overlaySize s;
     countText := countText s; boxCountText := v; status := status s;
     ui := ui s |}.

Definition set_status (v : Status) (s : Page) : Page :=
  {| file := file s; imgW := imgW s; imgH := imgH s;
     boxes := boxes s; roiPts := roiPts s; roiEdit := roiEdit s;
     dragIdx := dragIdx s; roiEnabled := roiEnabled s; overlaySize := overlaySize s;
     countText := countText s; boxCountText := boxCountText s; status := v;
     ui := ui s |}.

Definition set_ui (v : Ui) (s : Page) : Page :=
  {| file := file s; imgW := imgW s; imgH := imgH s;
     boxes := boxes s; roiPts := roiPts s; roiEdit := roiEdit s;
     dragIdx := dragIdx s; roiEnabled := roiEnabled s; overlaySize := overlaySize s;
     countText := countText s; boxCountText := boxCountText s; status := status s;
     ui := v |}.

Definition updateUiEnabled (s : Page) : Page :=
  let hasFile := match file s with Some _ => true | None => false end in
  set_ui {| detectDisabled := negb hasFile;
            clearDisabled := negb hasFile;
            editRoiDisabled := negb hasFile;
            clearRoiDisabled := (List.length (roiPts s) =? 0)%nat;
            roiCountText := Z.of_nat (List.length (roiPts s));
            roiModeEdit := roiEdit s |} s.

Definition resetResults (s : Page) : Page :=
  set_boxCountText CountDash (set_countText CountDash (set_boxes [] s)).

Definition clearAll (s : Page) : Page :=
  let s1 := set_dragIdx (-1) (set_roiEdit false (set_roiPts [] (set_boxes []
              (set_imgH 0 (set_imgW 0 (set_file None s)))))) in
  let s2 := set_overlaySize (0, 0) s1 in
  updateUiEnabled (set_status StatusEmpty (resetResults s2)).

(** ** Coordinate transforms *)

(** The size [canvasSizeToImage] returns. *)
Definition canvasSize (l : Layout) : Z * Z :=
  (Z.max 1 (Math_round (imgRectWidth l)), Z.max 1 (Math_round (imgRectHeight l))).

(** The write [canvasSizeToImage] does on the way. *)
Definition canvasSizeToImage (l : Layout) (s : Page) : Page :=
  set_overlaySize (canvasSize l) s.

Definition dispToImg (l : Layout) (s : Page) (dispX dispY : num) : Point :=
  let '(w, h) := canvasSize l in
  {| x := ((dispX / of_Z w) * of_Z (imgW s))%num;
     y := ((dispY / of_Z h) * of_Z (imgH s))%num |}.

Definition imgToDisp (l : Layout) (s : Page) (p : Point) : Point :=
  let '(w, h) := canvasSize l in
  {| x := ((x p / of_Z (imgW s)) * of_Z w)%num;
     y := ((y p / of_Z (imgH s)) * of_Z h)%num |}.

(** [draw] as far as the page state goes: what it paints is not kept. *)
Definition draw (l : Layout) (s : Page) : Page :=
  if (imgW s =? 0) || (imgH s =? 0) then s else canvasSizeToImage l s.

(** ** Hit test *)

(** The test inside the loop of [hitTestPoint], with [r = 8]. *)
Definition within_radius (l : Layout) (s : Page) (dispX dispY : num) (pt : Point) : bool :=
  let p := imgToDisp l s pt in
  let dx := (dispX - x p)%num in
  let dy := (dispY - y p)%num in
  (dx * dx + dy * dy <=? of_Z 8 * of_Z 8)%num.

(** The loop of [hitTestPoint] from index [i] on. *)
Fixpoint hit_from (l : Layout) (s : Page) (dispX dispY : num) (pts : list Point) (i : Z) : Z :=
  match pts with
  | [] => -1
  | pt :: rest =>
      if within_radius l s dispX dispY pt then i
      else hit_from l s dispX dispY rest (i + 1)
  end.

Definition hitTestPoint (l : Layout) (s : Page) (dispX dispY : num) : Z :=
  hit_from l s dispX dispY (roiPts s) 0.

(** The page after [hitTestPoint]: each point it looks at goes through
    [imgToDisp], hence through [canvasSizeToImage]. *)
Definition hit_test_sync (l : Layout) (s : Page) : Page :=
  match roiPts s with
  | [] => s
  | _ :: _ => canvasSizeToImage l s
  end.

(** ** Event handlers *)

(** [a[i] = p] for [i] inside the array.  The handlers never write outside:
    the drag index is always that of an existing point. *)
Fixpoint assign_at (a : list Point) (i : nat) (p : Point) : list Point :=
  match a, i with
  | [], _ => []
  | _ :: rest, O => p :: rest
  | q :: rest, S i' => q :: assign_at rest i' p
  end.

Definition on_editRoi (l : Layout) (s : Page) : Page :=
  match file s with
  | None => s
  | Some _ =>
      let s1 := set_dragIdx (-1) (set_roiEdit (negb (roiEdit s)) s) in
      let s2 := draw l (updateUiEnabled s1) in
      set_status (if roiEdit s2 then StatusEditOn else StatusEditOff) s2
  end.

Definition on_clearRoi (l : Layout) (s : Page) : Page :=
  draw l (updateUiEnabled (set_dragIdx (-1) (set_roiPts [] s))).

(** The [keydown] listener; [escape] is [e.key === "Escape"]. *)
Definition on_keydown (l : Layout) (escape : bool) (s : Page) : Page :=
  if escape && roiEdit s then
    let s1 := set_dragIdx (-1) (set_roiEdit false s) in
    set_status StatusEditOff (draw l (updateUiEnabled s1))
  else s.

Definition on_pointerdown (l : Layout) (clientX clientY : num) (s : Page) : Page :=
  if negb (roiEdit s) || (imgW s =? 0) then s
  else
    let px := (clientX - overlayLeft l)%num in
    let py := (clientY - overlayTop l)%num in
    let idx := hitTestPoint l s px py in
    let s0 := hit_test_sync l s in
    if 0 <=? idx then set_dragIdx idx s0
    else
      let p := dispToImg l s px py in
      let s1 := set_roiPts (roiPts s ++ [p]) (canvasSizeToImage l s0) in
      draw l (updateUiEnabled s1).

Definition on_pointermove (l : Layout) (clientX clientY : num) (s : Page) : Page :=
  if negb (roiEdit s) || (dragIdx s <? 0) || (imgW s =? 0) then s
  else
    let px := (clientX - overlayLeft l)%num in
    let py := (clientY - overlayTop l)%num in
    let p := dispToImg l s px py in
    let q := {| x := Math_max (of_Z 0) (Math_min (of_Z (imgW s - 1)) (x p));
                y := Math_max (of_Z 0) (Math_min (of_Z (imgH s - 1)) (y p)) |} in
    let s1 := set_roiPts (assign_at (roiPts s) (Z.to_nat (dragIdx s)) q)
                (canvasSizeToImage l s) in
    draw l s1.

Definition on_pointerup (l : Layout) (s : Page) : Page :=
  if 0 <=? dragIdx s then draw l (updateUiEnabled (set_dragIdx (-1) s))
  else s.

(** The [change] listener of the file input, up to [img.src = url]. *)
Definition on_fileChange (f : option File) (s : Page) : Page :=
  match f with
  | None => s
  | Some f' =>
      let s1 := resetResults (set_file (Some f') s) in
      updateUiEnabled (set_dragIdx (-1) (set_roiEdit false (set_roiPts [] s1)))
  end.

(** [img.onload], with the natural size of the decoded image. *)
Definition on_imgLoad (l : Layout) (naturalWidth naturalHeight : Z) (s : Page) : Page :=
  let s1 := set_imgH naturalHeight (set_imgW naturalWidth s) in
  set_status (StatusLoaded (imgW s1) (imgH s1)) (draw l (updateUiEnabled s1)).

(** The user ticks or unticks the "use ROI" box. *)
Definition on_roiEnabledToggle (s : Page) : Page :=
  set_roiEnabled (negb (roiEnabled s)) s.

(** ** Detection request *)

(** The values appended to the [FormData]. *)
Inductive FormValue :=
| FormFile (f : File)
| FormText (v : string)
| FormPoints (pts : list (num * num)). (* JSON.stringify of an array of [x, y] *)

Definition FormData := list (string * FormValue).

(** [roiPts.map(p => [p.x / imgW, p.y / imgH])]. *)
Definition roiNorm (s : Page) : list (num * num) :=
  map (fun p => ((x p / of_Z (imgW s))%num, (y p / of_Z (imgH s))%num)) (roiPts s).

Definition useRoi (s : Page) : bool :=
  roiEnabled s && (3 <=? List.length (roiPts s))%nat.

(** The body built by the click handler of [btnDetect]. *)
Definition detectForm (f : File) (s : Page) : FormData :=
  [ ("file"%string, FormFile f);
    ("roi_enabled"%string, FormText (if useRoi s then "true" else "false")) ]
  ++ (if useRoi s
      then [ ("roi"%string, FormPoints (roiNorm s));
             ("roi_format"%string, FormText "norm") ]
      else []).

(** The click handler up to its [await]: the page, and the request that is
    sent; [None] when there is no file and nothing is sent. *)
Definition on_detectClick (s : Page) : option (Page * FormData) :=
  match file s with
  | None => None
  | Some f =>
      let s1 := resetResults (set_status StatusUploading s) in
      Some (s1, detectForm f s1)
  end.

(** [fd.get(name)]: the first value appended under [name]. *)
Fixpoint form_get (name : string) (fd : FormData) : option FormValue :=
  match fd with
  | [] => None
  | (k, v) :: rest => if String.eqb k name then Some v else form_get name rest
  end.

(** The fields of a photo response the script reads; the body is what
    [resp.json().catch(() => ({}))] makes of it. *)
Record PhotoResponse := { r_count : option Z; r_boxes : option (list Box) }.
Inductive Body := NotJson | Null | Obj (d : PhotoResponse).
Inductive Fetched := Rejected | Response (ok : bool) (code : Z) (body : Body).

(** The click handler from the end of the request on; [sent] is the
    [useRoi] of the request. *)
Definition detect_on_response (l : Layout) (sent : bool) (r : Fetched) (s : Page) : Page :=
  match r with
  | Rejected => set_status StatusException s
  | Response ok code body =>
      if negb ok then set_status (StatusHttpError code) s
      else
        match body with
        | Null => set_status StatusException s
        | other =>
            let d := match other with
                     | Obj d => d
                     | _ => {| r_count := None; r_boxes := None |}
                     end in
            let s1 := set_boxes (match r_boxes d with Some b => b | None => [] end) s in
            let s2 := set_countText
                        (match r_count d with Some c => CountOf c | None => CountDash end) s1 in
            let nb := Z.of_nat (List.length (boxes s2)) in
            let s3 := set_boxCountText (CountOf nb) s2 in
            draw l (set_status (StatusOk (r_count d) nb sent) s3)
        end
  end.

(** The events of the editor. *)
Inductive Event :=
| EditRoiClick
| ClearRoiClick
| ClearClick
| KeyDown (escape : bool)
| PointerDown (clientX clientY : num)
| PointerMove (clientX clientY : num)
| PointerUp
| FileChange (f : option File)
| ImgLoad (naturalWidth naturalHeight : Z)
| RoiEnabledToggle
| Resize
| DetectClick
| DetectResponse (sent : bool) (r : Fetched).

Definition handle (l : Layout) (ev : Event) (s : Page) : Page :=
  match ev with
  | EditRoiClick => on_editRoi l s
  | ClearRoiClick => on_clearRoi l s
  | ClearClick => clearAll s
  | KeyDown escape => on_keydown l escape s
  | PointerDown cx cy => on_pointerdown l cx cy s
  | PointerMove cx cy => on_pointermove l cx cy s
  | PointerUp => on_pointerup l s
  | FileChange f => on_fileChange f s
  | ImgLoad w h => on_imgLoad l w h s
  | RoiEnabledToggle => on_roiEnabledToggle s
  | Resize => draw l s
  | DetectClick => match on_detectClick s with Some (s', _) => s' | None => s end
  | DetectResponse sent r => detect_on_response l sent r s
  end.

(** ** Editor invariant and runs *)

(** Nothing is dragged, or one existing point is and the editor is in edit
    mode. *)
Definition drag_ok (s : Page) : Prop :=
  dragIdx s = -1
  \/ (0 <= dragIdx s < Z.of_nat (List.length (roiPts s)) /\ roiEdit s = true).

(** Exclusivity as the specification words it: while an index is dragged no
    event other than the release makes another index the dragged one. *)
Definition drag_exclusive : Prop :=
  forall (l : Layout) (ev : Event) (s : Page),
    drag_ok s -> 0 <= dragIdx s -> ev <> PointerUp ->
    dragIdx (handle l ev s) = dragIdx s \/ dragIdx (handle l ev s) = -1.

Definition run (l : Layout) (evs : list Event) (s : Page) : Page :=
  fold_left (fun acc ev => handle l ev acc) evs s.

(** The page when the script has run [clearAll()] at load. *)
Definition at_load : Page :=
  clearAll
    {| file := None; imgW := 0; imgH := 0; boxes := []; roiPts := [];
       roiEdit := false; dragIdx := -1; roiEnabled := false;
       overlaySize := (0, 0); countText := CountDash; boxCountText := CountDash;
       status := StatusEmpty;
       ui := {| detectDisabled := true; clearDisabled := true;
                editRoiDisabled := true; clearRoiDisabled := true;
                roiCountText := 0; roiModeEdit := false |} |}.

(** [toDisplay] and back: the round trip of a native point. *)
Definition round_trip (l : Layout) (s : Page) (p : Point) : Point :=
  let d := imgToDisp l s p in
  dispToImg l s (x d) (y d).

End WithNumbers.

(** ** Pages used in the examples below, in exact arithmetic *)

Module Scenario.
#[local] Existing Instance rationals.
#[local] Existing Instance exact.

Definition layout : Layout :=
  {| imgRectWidth := 200%Q; imgRectHeight := 100%Q;
     overlayLeft := 8%Q; overlayTop := 8%Q |}.

Definition fresh : Page := at_load.

Definition ui_editing (npoints : Z) : Ui :=
  {| detectDisabled := false; clearDisabled := false; editRoiDisabled := false;
     clearRoiDisabled := (npoints =? 0); roiCountText := npoints;
     roiModeEdit := true |}.

(** A file has been chosen and edit mode switched on before the image has
    loaded: the page after [unloaded_events]. *)
Definition unloaded_events : list Event :=
  [FileChange (Some "a.png"%string); EditRoiClick].

Definition editing_unloaded : Page :=
  {| file := Some "a.png"%string; imgW := 0; imgH := 0; boxes := [];
     roiPts := []; roiEdit := true; dragIdx := -1; roiEnabled := false;
     overlaySize := (0, 0); countText := CountDash; boxCountText := CountDash;
     status := StatusEditOn; ui := ui_editing 0 |}.

(** A 400 x 200 image shown at half size, edit mode on, and two points set
    by presses at the client positions (28, 28) and (108, 58): the page
    after [two_points_events].  The points are (40, 40) and (200, 100), as
    the fractions the divisions leave. *)
Definition two_points_events : list Event :=
  [FileChange (Some "a.png"%string); ImgLoad 400 200; EditRoiClick;
   PointerDown 28%Q 28%Q; PointerDown 108%Q 58%Q].

Definition point_a : Point := {| x := 8000 # 200; y := 4000 # 100 |}.
Definition point_b : Point := {| x := 40000 # 200; y := 10000 # 100 |}.

Definition two_points : Page :=
  {| file := Some "a.png"%string; imgW := 400; imgH := 200; boxes := [];
     roiPts := [point_a; point_b]; roiEdit := true; dragIdx := -1;
     roiEnabled := false; overlaySize := (200, 100); countText := CountDash;
     boxCountText := CountDash; status := StatusEditOn; ui := ui_editing 2 |}.

(** The first point has been pressed again, which drags it. *)
Definition dragging_first : Page :=
  {| file := Some "a.png"%string; imgW := 400; imgH := 200; boxes := [];
     roiPts := [point_a; point_b]; roiEdit := true; dragIdx := 0;
     roiEnabled := false; overlaySize := (200, 100); countText := CountDash;
     boxCountText := CountDash; status := StatusEditOn; ui := ui_editing 2 |}.

(** The same two points with "use ROI" ticked. *)
Definition two_points_roi_on : Page := set_roiEnabled true two_points.

End Scenario.

(** ** Pages used in the examples below, in binary64 *)

Module Doubles.
#[local] Existing Instance doubles.
#[local] Existing Instance binary64.
Import PrimFloat.

(** The layout of [Scenario]: the image is shown 200 x 100 at (8, 8). *)
Definition layout : Layout :=
  {| imgRectWidth := 200%float; imgRectHeight := 100%float;
     overlayLeft := 8%float; overlayTop := 8%float |}.

(** A file has been chosen and edit mode switched on before the image has
    loaded: the page after [unloaded_events]. *)
Definition unloaded_events : list Event :=
  [FileChange (Some "a.png"%string); EditRoiClick].

Definition editing_unloaded : Page :=
  {| file := Some "a.png"%string; imgW := 0; imgH := 0; boxes := [];
     roiPts := []; roiEdit := true; dragIdx := -1; roiEnabled := false;
     overlaySize := (0, 0); countText := CountDash; boxCountText := CountDash;
     status := StatusEditOn; ui := Scenario.ui_editing 0 |}.

(** A 400 x 200 image shown at half size, edit mode on, and one point set
    by a press at the client position (37, 28): the page after
    [one_point_events].  The point is at (29 / 200) * 400, which is one unit
    in the last place below 58, and 40. *)
Definition one_point_events : list Event :=
  [FileChange (Some "a.png"%string); ImgLoad 400 200; EditRoiClick;
   PointerDown 37%float 28%float].

Definition point_c : Point := {| x := 0x1.cffffffffffffp+5%float; y := 40%float |}.

Definition one_point : Page :=
  {| file := Some "a.png"%string; imgW := 400; imgH := 200; boxes := [];
     roiPts := [point_c]; roiEdit := true; dragIdx := -1;
     roiEnabled := false; overlaySize := (200, 100); countText := CountDash;
     boxCountText := CountDash; status := StatusEditOn;
     ui := Scenario.ui_editing 1 |}.

(** A second file is chosen while the 400 x 200 image is shown; before the
    new image has loaded three points are set at the corners (200, 100),
    (100, 100) and (100, 0) of the canvas; then the new image loads, 100 x 50,
    and "use ROI" is ticked: the page after [swapped_image_events]. *)
Definition swapped_image_events : list Event :=
  [FileChange (Some "a.png"%string); ImgLoad 400 200;
   FileChange (Some "b.png"%string); EditRoiClick;
   PointerDown 208%float 108%float; PointerDown 108%float 108%float;
   PointerDown 108%float 8%float;
   ImgLoad 100 50; RoiEnabledToggle].

Definition swapped_image : Page :=
  {| file := Some "b.png"%string; imgW := 100; imgH := 50; boxes := [];
     roiPts := [ {| x := 400%float; y := 200%float |};
                 {| x := 200%float; y := 200%float |};
                 {| x := 200%float; y := 0%float |} ];
     roiEdit := true; dragIdx := -1; roiEnabled := true;
     overlaySize := (200, 100); countText := CountDash;
     boxCountText := CountDash; status := StatusLoaded 100 50;
     ui := Scenario.ui_editing 3 |}.

(** The double next above 7. *)
Definition seven_up : float := 0x1.c000000000001p+2%float.

End Doubles.

(** The round trip of [p] ends within the relative tolerance [tol] of [p],
    coordinate by coordinate; the doubles are compared by their exact
    values. *)
Definition round_trip_within (tol : Q) (l : @Layout doubles) (s : @Page doubles)
    (p : @Point doubles) : Prop :=
  let q := @round_trip doubles binary64 l s p in
  (Qabs (value (x q) - value (x p)) <= tol * Qabs (value (x p)))%Q
  /\ (Qabs (value (y q) - value (y p)) <= tol * Qabs (value (y p)))%Q.

(** ** What the page shows against what it holds *)

Section InStep.
Context {Nt : NumberType} {N : Number}.

(** The point counter, the Clear-ROI button and the mode badge are those
    [updateUiEnabled] would write now. *)
Definition ui_in_step (s : Page) : Prop := ui s = ui (updateUiEnabled s).

(** The box counter shows "-" with no box held, or the number of boxes
    held. *)
Definition results_in_step (s : Page) : Prop :=
  (boxes s = [] /\ boxCountText s = CountDash)
  \/ boxCountText s = CountOf (Z.of_nat (List.length (boxes s))).

End InStep.

End Photo.

(* ================================================================== *)
(** * Properties of stream.js                                           *)
(* ================================================================== *)

Section SegmentCount.
Import Js Stream.

Lemma count_loop_filter lines n :
  count_loop lines n
  = n + Z.of_nat (List.length
          (filter (fun ln => negb (startsWith ln (units "#"))
                             && (endsWith ln (units ".ts") || endsWith ln (units ".m4s")))
                  lines)).
Proof.
  revert n. induction lines as [|ln rest IH]; intros n.
  - simpl. lia.
  - cbn [count_loop filter].
    destruct (startsWith ln (units "#")); cbn [negb andb].
    + apply IH.
    + destruct (endsWith ln (units ".ts") || endsWith ln (units ".m4s")).
      * rewrite IH. cbn [List.length]. lia.
      * apply IH.
Qed.

Lemma filter_truthy_then (p : jsstring -> bool) lines :
  filter p (filter truthy lines) = filter (fun ln => truthy ln && p ln) lines.
Proof.
  induction lines as [|ln rest IH]; [reflexivity|].
  cbn [filter]. destruct (truthy ln); cbn [andb filter]; rewrite IH; reflexivity.
Qed.

(** C4, as amended: [countSegmentsInM3U8] counts the lines of the text that,
    once stripped of leading and trailing white space, are not empty, do not
    start with "#" and end with ".ts" or ".m4s"; on the playlist
    "#EXTM3U\nseg1.ts\nseg2.ts\n#EXT-X-ENDLIST" it returns 2. *)
Theorem countSegmentsInM3U8_counts_trimmed_lines (text : jsstring) :
  countSegmentsInM3U8 text = segment_line_count (map trim (split_lines text))
  /\ countSegmentsInM3U8 examplePlaylist = 2.
Proof.
  split; [|reflexivity].
  unfold countSegmentsInM3U8, playlist_lines, segment_line_count.
  rewrite count_loop_filter, filter_truthy_then.
  rewrite Z.add_0_l. do 2 f_equal.
  apply filter_ext. intros ln. unfold is_segment_line.
  rewrite andb_assoc. reflexivity.
Qed.

(** C4, as stated, fails on a segment line followed by a space: no line of
    the text ends with a segment suffix, yet the function counts one; and on
    an indented comment line, which does not start with "#" but is skipped. *)
Lemma countSegmentsInM3U8_not_raw_lines :
  countSegmentsInM3U8 (units "seg1.ts ")
    <> segment_line_count (split_lines (units "seg1.ts "))
  /\ countSegmentsInM3U8 (units "seg1.ts ") = 1
  /\ segment_line_count (split_lines (units "seg1.ts ")) = 0
  /\ countSegmentsInM3U8 (units " #seg1.ts") = 0
  /\ segment_line_count (split_lines (units " #seg1.ts")) = 1.
Proof. split; [vm_compute; discriminate | repeat split; reflexivity]. Qed.

End SegmentCount.

Section Controller.
Import Js Stream.

Lemma setHlsBadge_token st x g : startToken (setHlsBadge st x g) = startToken g.
Proof. unfold setHlsBadge. destruct (hlsBadge g); reflexivity. Qed.

Lemma appendLog_token line g : startToken (appendLog line g) = startToken g.
Proof. reflexivity. Qed.

Lemma loadPlayer_token br now url g : startToken (loadPlayer br now url g) = startToken g.
Proof.
  unfold loadPlayer. destruct (canPlayNative br); [reflexivity|].
  destruct (hlsJsSupported br); reflexivity.
Qed.

Lemma wait_loop_head_token now f g :
  startToken (fst (wait_loop_head now f g)) = startToken g.
Proof.
  unfold wait_loop_head.
  destruct (now - startTime f <? timeoutMs (opts f)).
  - destruct (negb (token f =? startToken g)); reflexivity.
  - apply setHlsBadge_token.
Qed.

Lemma wait_on_text_token r f g :
  startToken (fst (wait_on_text r f g)) = startToken g.
Proof.
  unfold wait_on_text. destruct (fetchTextNoStore r) as [e|[text|]]; try reflexivity.
  destruct (truthy text); [|reflexivity].
  destruct (minSegments (opts f) <=? countSegmentsInM3U8 text); cbn [fst];
    rewrite ?setHlsBadge_token; reflexivity.
Qed.

(** At the loop condition a superseded wait leaves without touching the
    page, as long as its time budget is not spent. *)
Lemma wait_loop_head_stale now f g :
  now - startTime f < timeoutMs (opts f) ->
  token f <> startToken g ->
  wait_loop_head now f g = (g, Finished Cancelled).
Proof.
  intros Ht Hs. unfold wait_loop_head.
  destruct (now - startTime f <? timeoutMs (opts f)) eqn:E;
    [| apply Z.ltb_ge in E; lia].
  destruct (token f =? startToken g) eqn:E'; [apply Z.eqb_eq in E'; contradiction|].
  reflexivity.
Qed.

(** Once the time budget is spent a superseded wait is not told apart from a
    current one: it writes the time-out badge and reports a time-out. *)
Lemma wait_loop_head_stale_timeout now f g :
  timeoutMs (opts f) <= now - startTime f ->
  token f <> startToken g ->
  wait_loop_head now f g = (setHlsBadge error TimeoutText g, Finished TimedOut).
Proof.
  intros Ht _. unfold wait_loop_head.
  destruct (now - startTime f <? timeoutMs (opts f)) eqn:E;
    [apply Z.ltb_lt in E; lia | reflexivity].
Qed.

(** C1: a wait that was superseded while its playlist request was in flight
    is resumed without a look at the token: it rewrites the badge, reports
    readiness and its caller hands the stream to the player. *)
Theorem stale_wait_resumes_after_fetch
    (br : Browser) (now : Z) (f : WaitFrame) (u : BustedUrl) (text : jsstring)
    (g : Page) :
  token f <> startToken g ->
  truthy text = true ->
  minSegments (opts f) <= countSegmentsInM3U8 text ->
  let segs := countSegmentsInM3U8 text in
  wait_on_text (Response true text) f g
  = (setHlsBadge ready (SegsFound segs)
       (setHlsBadge wait (Progress segs (minSegments (opts f))) g),
     Finished (Ready segs))
  /\ resume br now (TextArrived (Response true text)) (Waiting FromStart f (AtFetch u)) g
     = (loadPlayer br now (hlsUrl f)
          (setHlsBadge ready (SegsFound segs)
             (setHlsBadge wait (Progress segs (minSegments (opts f))) g)),
        Settled).
Proof.
  intros _ Htext Hmin segs.
  assert (E : wait_on_text (Response true text) f g
              = (setHlsBadge ready (SegsFound segs)
                   (setHlsBadge wait (Progress segs (minSegments (opts f))) g),
                 Finished (Ready segs))).
  { unfold wait_on_text. cbn [fetchTextNoStore]. rewrite Htext.
    fold segs. destruct (minSegments (opts f) <=? segs) eqn:E; [reflexivity|].
    apply Z.leb_gt in E. unfold segs in E. lia. }
  split; [exact E|].
  cbn [resume]. rewrite E. reflexivity.
Qed.

(** The run of [Scenario]: the start handler holds token 1 and is suspended
    on its playlist request; Stop has moved the token to 2 and set the badge
    to idle. *)
Example scenario_stop_supersedes_start :
  snd Scenario.started
  = Waiting FromStart
      {| hlsUrl := Some "/hls/a.m3u8"%string; token := 1;
         opts := callerWaitOptions; startTime := 1000 |}
      (AtFetch {| base := Some "/hls/a.m3u8"%string; stamp := 1000 |})
  /\ startToken (fst Scenario.stopped) = 2
  /\ hlsBadge (fst Scenario.stopped)
     = Some {| badgeState := idle; badgeExtra := NoExtra |}.
Proof. repeat split. Qed.

(** The late playlist still turns the badge to "ready" and starts the
    player, after Stop. *)
Example scenario_late_playlist_starts_player :
  snd Scenario.late_playlist = Settled
  /\ hlsBadge (fst Scenario.late_playlist)
     = Some {| badgeState := ready; badgeExtra := SegsFound 2 |}
  /\ videoSrc (fst Scenario.late_playlist)
     = Some {| base := Some "/hls/a.m3u8"%string; stamp := 1200 |}
  /\ videoPlaying (fst Scenario.late_playlist) = true
  /\ In LogNativeHls (logLines (fst Scenario.late_playlist))
  /\ ~ In LogWaitCancelled (logLines (fst Scenario.late_playlist)).
Proof.
  repeat split; try reflexivity.
  - vm_compute. tauto.
  - vm_compute. intros [H|[H|[H|H]]]; try discriminate; contradiction.
Qed.

Lemma stale_wait_resumes_after_stop :
  let f := {| hlsUrl := Some "/hls/a.m3u8"%string; token := 1;
              opts := callerWaitOptions; startTime := 1000 |} in
  let u := {| base := Some "/hls/a.m3u8"%string; stamp := 1000 |} in
  let g := fst Scenario.stopped in
  token f <> startToken g
  /\ resume Scenario.br 1200 (TextArrived (Response true examplePlaylist))
       (Waiting FromStart f (AtFetch u)) g
     = (loadPlayer Scenario.br 1200 (hlsUrl f)
          (setHlsBadge ready (SegsFound 2) (setHlsBadge wait (Progress 2 2) g)),
        Settled).
Proof.
  intros f u g.
  assert (H1 : token f <> startToken g) by (vm_compute; discriminate).
  assert (H2 : truthy examplePlaylist = true) by reflexivity.
  assert (H3 : minSegments (opts f) <= countSegmentsInM3U8 examplePlaylist)
    by (vm_compute; discriminate).
  split; [exact H1|].
  exact (proj2 (stale_wait_resumes_after_fetch Scenario.br 1200 f u examplePlaylist g
                  H1 H2 H3)).
Defined.

Lemma after_wait_token k br now f r g :
  startToken (after_wait k br now f r g) = startToken g.
Proof.
  destruct r; cbn [after_wait]; rewrite ?loadPlayer_token; reflexivity.
Qed.

Lemma continue_wait_token k br now f gs :
  startToken (fst (continue_wait k br now f gs)) = startToken (fst gs).
Proof.
  destruct gs as [g [p|r|e]]; cbn [continue_wait fst].
  - reflexivity.
  - apply after_wait_token.
  - destruct k; cbn [handler_catch fst]; rewrite ?setHlsBadge_token; reflexivity.
Qed.

(** The token moves by one exactly when the control response is a success
    whose body decodes. *)
Lemma start_on_response_token br now r g :
  startToken (fst (start_on_response br now r g))
  = match r with
    | Response true (Some _) => startToken g + 1
    | _ => startToken g
    end.
Proof.
  unfold start_on_response.
  destruct r as [|ok [d|]]; cbn [fetchJson]; try reflexivity.
  - destruct ok; cbn [negb].
    + destruct d as [|o]; [reflexivity|].
      unfold waitForHlsReady.
      rewrite continue_wait_token, wait_loop_head_token, setHlsBadge_token.
      reflexivity.
    + destruct d; reflexivity.
  - destruct ok; reflexivity.
Qed.

(** C3: when the request itself fails, [startPipeline] and [stopPipeline]
    end with the rejection unhandled and nothing logged (the page is as it
    was at the [await]; after Stop the player has not been torn down); only
    the reload handler catches the failure, logs it and shows the error
    badge. *)
Theorem network_failure_escapes_start_and_stop
    (br : Browser) (now : Z) (url : jsstring) (g : Page) :
  resume br now (ResponseArrived Rejected) (StartRequested url) g
    = (g, Unhandled NetworkError)
  /\ resume br now (ResponseArrived Rejected) StopRequested (fst (stopPipeline g))
    = (setHlsBadge idle NoExtra (bumpToken g), Unhandled NetworkError)
  /\ logLines (setHlsBadge idle NoExtra (bumpToken g)) = logLines g
  /\ videoPlaying (setHlsBadge idle NoExtra (bumpToken g)) = videoPlaying g
  /\ (forall f u,
        resume br now (TextArrived Rejected) (Waiting FromStart f (AtFetch u)) g
        = (g, Unhandled NetworkError))
  /\ (forall tok,
        resume br now (ResponseArrived Rejected) (ReloadRequested tok) g
        = (setHlsBadge error ReloadErrorText
             (appendLog (LogReloadError NetworkError) g), Settled)).
Proof.
  repeat split; try reflexivity;
    unfold setHlsBadge; cbn; destruct (hlsBadge g); reflexivity.
Qed.

(** C9: a start that the backend answers with a non-success status leaves
    the generation token as it was; a readiness wait that held the current
    token before is therefore not cancelled at its next check, and when its
    playlist has enough segments its caller hands the stream to the
    player. *)
Theorem failed_start_keeps_token
    (br : Browser) (now : Z) (url : jsstring) (body : option Json) (g : Page)
    (k : Caller) (f : WaitFrame) (u : BustedUrl) (now' : Z) (text : jsstring) :
  token f = startToken g ->
  now' - startTime f < timeoutMs (opts f) ->
  truthy text = true ->
  minSegments (opts f) <= countSegmentsInM3U8 text ->
  let g' := fst (resume br now (ResponseArrived (Response false body))
                   (StartRequested url) g) in
  startToken g' = startToken g
  /\ wait_loop_head now' f g'
     = (g', Suspended (AtFetch {| base := hlsUrl f; stamp := now' |}))
  /\ resume br now' (TextArrived (Response true text)) (Waiting k f (AtFetch u)) g'
     = (loadPlayer br now' (hlsUrl f)
          (setHlsBadge ready (SegsFound (countSegmentsInM3U8 text))
             (setHlsBadge wait
                (Progress (countSegmentsInM3U8 text) (minSegments (opts f))) g')),
        Settled).
Proof.
  intros Htok Hbudget Htext Hmin g'.
  assert (Hkeep : startToken g' = startToken g).
  { unfold g'. cbn [resume]. rewrite start_on_response_token. reflexivity. }
  split; [exact Hkeep|]. split.
  - unfold wait_loop_head.
    destruct (now' - startTime f <? timeoutMs (opts f)) eqn:E;
      [| apply Z.ltb_ge in E; lia].
    rewrite Hkeep, <- Htok, Z.eqb_refl. reflexivity.
  - cbn [resume]. unfold wait_on_text. cbn [fetchTextNoStore]. rewrite Htext.
    destruct (minSegments (opts f) <=? countSegmentsInM3U8 text) eqn:E;
      [| apply Z.leb_gt in E; lia].
    reflexivity.
Qed.

(** The run of [Scenario] in which a second Start is refused while the
    first one waits for its playlist. *)
Lemma refused_start_scenario :
  let f := {| hlsUrl := Some "/hls/a.m3u8"%string; token := 1;
              opts := callerWaitOptions; startTime := 1000 |} in
  let u := {| base := Some "/hls/a.m3u8"%string; stamp := 1000 |} in
  let g := fst Scenario.started in
  let body := Some (JObj {| hls_url := None; detail := Some "busy"%string |}) in
  let g' := fst (resume Scenario.br 1100 (ResponseArrived (Response false body))
                   (StartRequested (units "rtsp://b")) g) in
  token f = startToken g
  /\ startToken g' = startToken g
  /\ wait_loop_head 1700 f g'
     = (g', Suspended (AtFetch {| base := hlsUrl f; stamp := 1700 |})).
Proof.
  intros f u g body g'.
  assert (H1 : token f = startToken g) by reflexivity.
  assert (H2 : 1700 - startTime f < timeoutMs (opts f)) by (vm_compute; reflexivity).
  assert (H3 : truthy examplePlaylist = true) by reflexivity.
  assert (H4 : minSegments (opts f) <= countSegmentsInM3U8 examplePlaylist)
    by (vm_compute; discriminate).
  pose proof (failed_start_keeps_token Scenario.br 1100 (units "rtsp://b") body g
                FromStart f u 1700 examplePlaylist H1 H2 H3 H4) as H.
  split; [exact H1|]. split; [exact (proj1 H) | exact (proj1 (proj2 H))].
Defined.

Example scenario_refused_start :
  startToken (fst Scenario.refused) = 1
  /\ snd Scenario.refused = Settled
  /\ In (LogStartError (Some "busy"%string)) (logLines (fst Scenario.refused)).
Proof. repeat split; vm_compute; tauto. Qed.

End Controller.


(* ================================================================== *)
(** * Properties of findNearestIndex                                    *)
(* ================================================================== *)

Section NearestProofs.
Import Num Video.

Lemma sar1_half z : 0 <= z < 2 ^ 31 -> sar1 z = z / 2.
Proof.
  intros Hz. unfold sar1, to_int32.
  rewrite Z.mod_small by lia.
  destruct (z <? 2 ^ 31) eqn:E; [| apply Z.ltb_ge in E; lia].
  rewrite Z.shiftr_div_pow2 by lia. reflexivity.
Qed.

Lemma at_index_Some {A} (a : list A) i x :
  at_index a i = Some x -> 0 <= i < Z.of_nat (List.length a).
Proof.
  unfold at_index. destruct (i <? 0) eqn:E; [discriminate|].
  apply Z.ltb_ge in E. intros H.
  assert (Hn : (Z.to_nat i < List.length a)%nat).
  { apply nth_error_Some. congruence. }
  lia.
Qed.

Lemma at_index_inrange {A} (a : list A) i :
  0 <= i < Z.of_nat (List.length a) -> exists x, at_index a i = Some x.
Proof.
  intros Hi. unfold at_index.
  destruct (i <? 0) eqn:E; [apply Z.ltb_lt in E; lia|].
  destruct (nth_error a (Z.to_nat i)) eqn:N; [eauto|].
  apply nth_error_None in N. lia.
Qed.

(** ** The order of the numbers *)

Lemma Qltb_true a b : Qltb a b = true <-> (a < b)%Q.
Proof.
  unfold Qltb. rewrite negb_true_iff.
  split; intros H.
  - apply Qnot_le_lt. intros Hle. apply Qle_bool_iff in Hle. congruence.
  - destruct (Qle_bool b a) eqn:E; [|reflexivity].
    apply Qle_bool_iff in E. lra.
Qed.

Lemma Qltb_false a b : Qltb a b = false <-> (b <= a)%Q.
Proof.
  unfold Qltb. rewrite negb_false_iff. apply Qle_bool_iff.
Qed.

Lemma exact_order : OrderLaws exact.
Proof.
  split; cbn [leb ltb exact]; intros a b c H1 H2.
  - apply Qle_bool_iff in H1, H2. apply Qle_bool_iff. lra.
  - apply Qle_bool_iff in H1. apply Qltb_true in H2. apply Qltb_true. lra.
Qed.

(** The comparison of binary64 is that of the triples sign, exponent,
    mantissa; a NaN compares with nothing. *)
Lemma SFleb_trans a b c :
  SpecFloat.SFleb a b = true -> SpecFloat.SFleb b c = true ->
  SpecFloat.SFleb a c = true.
Proof.
  unfold SpecFloat.SFleb, SpecFloat.SFcompare.
  destruct a as [sa|sa| |sa ma ea], b as [sb|sb| |sb mb eb], c as [sc|sc| |sc mc ec];
    try destruct sa; try destruct sb; try destruct sc;
    try discriminate; try reflexivity;
    change (Pos.compare_cont Eq) with Pos.compare;
    destruct (Z.compare_spec ea eb), (Z.compare_spec eb ec), (Z.compare_spec ea ec);
    try discriminate; try reflexivity; try lia;
    destruct (Pos.compare_spec ma mb), (Pos.compare_spec mb mc), (Pos.compare_spec ma mc);
    cbn; try discriminate; try reflexivity; try lia.
Qed.

Lemma SFleb_ltb_trans a b c :
  SpecFloat.SFleb a b = true -> SpecFloat.SFltb b c = true ->
  SpecFloat.SFltb a c = true.
Proof.
  unfold SpecFloat.SFleb, SpecFloat.SFltb, SpecFloat.SFcompare.
  destruct a as [sa|sa| |sa ma ea], b as [sb|sb| |sb mb eb], c as [sc|sc| |sc mc ec];
    try destruct sa; try destruct sb; try destruct sc;
    try discriminate; try reflexivity;
    change (Pos.compare_cont Eq) with Pos.compare;
    destruct (Z.compare_spec ea eb), (Z.compare_spec eb ec), (Z.compare_spec ea ec);
    try discriminate; try reflexivity; try lia;
    destruct (Pos.compare_spec ma mb), (Pos.compare_spec mb mc), (Pos.compare_spec ma mc);
    cbn; try discriminate; try reflexivity; try lia.
Qed.

Lemma binary64_order : OrderLaws binary64.
Proof.
  split; cbn [leb ltb binary64]; intros a b c;
    rewrite ?FloatAxioms.leb_spec, ?FloatAxioms.ltb_spec.
  - apply SFleb_trans.
  - apply SFleb_ltb_trans.
Qed.

(** ** The search, in any arithmetic whose order is transitive *)

Section AnyOrder.
Context {Nt : NumberType} {N : Number}.
Hypothesis laws : OrderLaws N.

Lemma ltb_false_upward (a b c : num) :
  (a <=? b)%num = true -> (a <? c)%num = false -> (b <? c)%num = false.
Proof.
  intros Hab Hac. destruct (b <? c)%num eqn:Hbc; [|reflexivity].
  rewrite (leb_ltb_trans N laws a b c Hab Hbc) in Hac. discriminate.
Qed.

Lemma sorted_nth_error_leb (l : list num) :
  StronglySorted (fun a b => (a <=? b)%num = true) l ->
  forall i j a b, (i < j)%nat -> nth_error l i = Some a -> nth_error l j = Some b ->
  (a <=? b)%num = true.
Proof.
  induction 1 as [|x l Hs IH Hall]; intros i j a b Hij Hi Hj.
  - destruct i; discriminate.
  - destruct i as [|i], j as [|j]; simpl in Hi, Hj.
    + lia.
    + injection Hi as <-. rewrite Forall_forall in Hall.
      apply Hall. eapply nth_error_In; eauto.
    + lia.
    + apply (IH i j); [lia | assumption | assumption].
Qed.

(** In a sorted timeline an earlier entry is [<=] a later one. *)
Lemma sorted_at_index_leb tl i j ei ej :
  sorted_by_t tl -> i < j ->
  at_index tl i = Some ei -> at_index tl j = Some ej -> (t ei <=? t ej)%num = true.
Proof.
  intros Hs Hij Hi Hj.
  pose proof (at_index_Some _ _ _ Hi) as Ri.
  pose proof (at_index_Some _ _ _ Hj) as Rj.
  unfold at_index in Hi, Hj.
  destruct (i <? 0) eqn:Ei; [discriminate|].
  destruct (j <? 0) eqn:Ej; [discriminate|].
  apply Sorted_StronglySorted in Hs; [| intros x y z; apply (leb_trans N laws)].
  eapply (sorted_nth_error_leb _ Hs (Z.to_nat i) (Z.to_nat j)); [lia | |].
  - rewrite nth_error_map, Hi. reflexivity.
  - rewrite nth_error_map, Hj. reflexivity.
Qed.

Lemma search_loop_spec tl tq :
  sorted_by_t tl -> Z.of_nat (List.length tl) <= 2 ^ 30 ->
  forall fuel lo hi,
    0 <= lo -> hi < Z.of_nat (List.length tl) -> lo <= hi + 1 ->
    hi - lo + 1 <= Z.of_nat fuel ->
    brackets tl tq lo hi ->
    exists lo', search_loop fuel tl tq lo hi = Done (lo', lo' - 1) /\
                0 <= lo' <= Z.of_nat (List.length tl) /\
                brackets tl tq lo' (lo' - 1).
Proof.
  intros Hs Hn. induction fuel as [|fuel IH]; intros lo hi Hlo Hhi Hle Hfuel Hb.
  - simpl. destruct (lo <=? hi) eqn:E; [apply Z.leb_le in E; lia|].
    apply Z.leb_gt in E. exists lo. replace (lo - 1) with hi by lia.
    repeat split; try lia; apply Hb.
  - simpl. destruct (lo <=? hi) eqn:E.
    + apply Z.leb_le in E.
      rewrite sar1_half by lia.
      assert (Hmid : lo <= (lo + hi) / 2 <= hi).
      { split; [apply Z.div_le_lower_bound | apply Z.div_le_upper_bound]; lia. }
      destruct (at_index_inrange tl ((lo + hi) / 2)) as [e He]; [lia|].
      rewrite He. destruct (t e <? tq)%num eqn:C.
      * apply IH; try lia.
        destruct Hb as [Hb1 Hb2]. split; [|exact Hb2].
        intros j ej Hj Hlt.
        destruct (Z.eq_dec j ((lo + hi) / 2)) as [->|Hne].
        -- rewrite He in Hj. injection Hj as <-. exact C.
        -- apply (leb_ltb_trans N laws (t ej) (t e) tq); [|exact C].
           apply (sorted_at_index_leb tl j ((lo + hi) / 2) ej e Hs);
             [lia | exact Hj | exact He].
      * apply IH; try lia.
        destruct Hb as [Hb1 Hb2]. split; [exact Hb1|].
        intros j ej Hj Hlt.
        destruct (Z.eq_dec j ((lo + hi) / 2)) as [->|Hne].
        -- rewrite He in Hj. injection Hj as <-. exact C.
        -- apply (ltb_false_upward (t e) (t ej) tq); [|exact C].
           apply (sorted_at_index_leb tl ((lo + hi) / 2) j e ej Hs);
             [lia | exact He | exact Hj].
    + apply Z.leb_gt in E. exists lo. replace (lo - 1) with hi by lia.
      repeat split; try lia; apply Hb.
Qed.

(** Where the search stops, and what is returned from there. *)
Lemma findNearestIndex_between tl tq :
  sorted_by_t tl -> Z.of_nat (List.length tl) <= 2 ^ 30 -> tl <> [] ->
  exists lo r,
    findNearestIndex tl tq = Done r
    /\ 0 <= lo <= Z.of_nat (List.length tl)
    /\ brackets tl tq lo (lo - 1)
    /\ (lo = 0 -> r = 0)
    /\ (lo = Z.of_nat (List.length tl) -> r = lo - 1)
    /\ (0 < lo < Z.of_nat (List.length tl) ->
        exists eh el,
          at_index tl (lo - 1) = Some eh /\ at_index tl lo = Some el
          /\ r = if (tq - t eh <=? t el - tq)%num then lo - 1 else lo).
Proof.
  intros Hs Hn Hne.
  assert (Hlen : 0 < Z.of_nat (List.length tl)).
  { destruct tl; [congruence | cbn [List.length]; lia]. }
  unfold findNearestIndex.
  destruct (Z.of_nat (List.length tl) =? 0) eqn:E0; [apply Z.eqb_eq in E0; lia|].
  destruct (search_loop_spec tl tq Hs Hn (S (List.length tl)) 0
              (Z.of_nat (List.length tl) - 1)) as (lo & Hrun & Hrange & Hb); try lia.
  { split; intros j ej Hj Hc; apply at_index_Some in Hj; lia. }
  rewrite Hrun. exists lo.
  destruct (lo - 1 <? 0) eqn:Ehi.
  { apply Z.ltb_lt in Ehi. exists 0.
    split; [reflexivity|]. split; [exact Hrange|]. split; [exact Hb|].
    split; [reflexivity|]. split; lia. }
  apply Z.ltb_ge in Ehi.
  destruct (Z.of_nat (List.length tl) <=? lo) eqn:Elo.
  { apply Z.leb_le in Elo. exists (Z.of_nat (List.length tl) - 1).
    split; [reflexivity|]. split; [exact Hrange|]. split; [exact Hb|].
    split; [lia|]. split; lia. }
  apply Z.leb_gt in Elo.
  destruct (at_index_inrange tl (lo - 1)) as [eh Hh]; [lia|].
  destruct (at_index_inrange tl lo) as [el Hl]; [lia|].
  rewrite Hh, Hl.
  exists (if (tq - t eh <=? t el - tq)%num then lo - 1 else lo).
  split; [destruct (tq - t eh <=? t el - tq)%num; reflexivity|].
  split; [exact Hrange|]. split; [exact Hb|].
  split; [lia|]. split; [lia|].
  intros _. exists eh, el. split; [reflexivity|]. split; reflexivity.
Qed.

End AnyOrder.

End NearestProofs.

(** ** findNearestIndex in binary64 *)

Section NearestDoubles.
Import Num Video.
#[local] Existing Instance doubles.
#[local] Existing Instance binary64.

(** C2: on a timeline sorted non-decreasing by [t] (of at most 2^30
    entries, so that [(lo + hi) >> 1] is the midpoint), [findNearestIndex]
    returns -1 when the timeline is empty.  Otherwise, with [lo] the number
    of entries before the query, which are the first [lo] ones, it returns
    0 when [lo] is 0, the last index when every entry is before the query,
    and else [lo - 1] or [lo], the last entry before the query or the first
    one not before it: [lo - 1] when the difference [tq - t] of the one, as
    binary64 subtracts it, is less than or equal to the difference [t - tq]
    of the other, and [lo] if not. *)
Theorem findNearestIndex_between_neighbours
    (timeline : list TimelineEntry) (tq : float) :
  sorted_by_t timeline ->
  Z.of_nat (List.length timeline) <= 2 ^ 30 ->
  (timeline = [] -> findNearestIndex timeline tq = Done (-1)) /\
  (timeline <> [] ->
   exists lo r,
     findNearestIndex timeline tq = Done r /\
     0 <= lo <= Z.of_nat (List.length timeline) /\
     (forall j ej, at_index timeline j = Some ej ->
        (PrimFloat.ltb (t ej) tq = true <-> j < lo)) /\
     (lo = 0 -> r = 0) /\
     (lo = Z.of_nat (List.length timeline) -> r = lo - 1) /\
     (0 < lo < Z.of_nat (List.length timeline) ->
      exists eh el,
        at_index timeline (lo - 1) = Some eh /\ at_index timeline lo = Some el /\
        r = if PrimFloat.leb (PrimFloat.sub tq (t eh)) (PrimFloat.sub (t el) tq)
            then lo - 1 else lo)).
Proof.
  intros Hs Hn. split.
  - intros ->. reflexivity.
  - intros Hne.
    destruct (findNearestIndex_between binary64_order timeline tq Hs Hn Hne)
      as (lo & r & F & R & [Bl Br] & C0 & Cn & Cm).
    exists lo, r. split; [exact F|]. split; [exact R|]. split.
    + intros j ej Hj. split.
      * intros Hlt. destruct (Z_lt_ge_dec j lo) as [L|G]; [exact L|].
        assert (Hf : PrimFloat.ltb (t ej) tq = false) by (apply (Br j ej Hj); lia).
        rewrite Hf in Hlt. discriminate.
      * intros L. exact (Bl j ej Hj L).
    + split; [exact C0|]. split; [exact Cn | exact Cm].
Qed.

Lemma tenths_sorted : sorted_by_t Doubles.tenths.
Proof. repeat constructor. Qed.

(** The query 1.1 s between the entries at 0.1 s and 2.1 s: both
    differences are 1 in binary64 and the earlier entry is returned. *)
Lemma nearest_between_tenths :
  sorted_by_t Doubles.tenths
  /\ Z.of_nat (List.length Doubles.tenths) <= 2 ^ 30
  /\ findNearestIndex Doubles.tenths Doubles.d1_1 = Done 0
  /\ exists lo r,
       findNearestIndex Doubles.tenths Doubles.d1_1 = Done r /\
       0 <= lo <= Z.of_nat (List.length Doubles.tenths) /\
       (forall j ej, at_index Doubles.tenths j = Some ej ->
          (PrimFloat.ltb (t ej) Doubles.d1_1 = true <-> j < lo)) /\
       (lo = 0 -> r = 0) /\
       (lo = Z.of_nat (List.length Doubles.tenths) -> r = lo - 1) /\
       (0 < lo < Z.of_nat (List.length Doubles.tenths) ->
        exists eh el,
          at_index Doubles.tenths (lo - 1) = Some eh /\
          at_index Doubles.tenths lo = Some el /\
          r = if PrimFloat.leb (PrimFloat.sub Doubles.d1_1 (t eh))
                               (PrimFloat.sub (t el) Doubles.d1_1)
              then lo - 1 else lo).
Proof.
  assert (Hs : sorted_by_t Doubles.tenths) by exact tenths_sorted.
  assert (Hn : Z.of_nat (List.length Doubles.tenths) <= 2 ^ 30)
    by (vm_compute; discriminate).
  split; [exact Hs|]. split; [exact Hn|]. split; [vm_compute; reflexivity|].
  apply (proj2 (findNearestIndex_between_neighbours Doubles.tenths Doubles.d1_1 Hs Hn)).
  discriminate.
Defined.

(** The claim as worded fails twice.  Between 0.1 s and 2.1 s the query
    1.1 s is answered with the entry at 0.1 s, which is farther from it
    than the entry at 2.1 s: the two differences round to the same double.
    And of two entries at 1 s, both equally far from the query 2 s, the
    later one is returned. *)
Lemma findNearestIndex_not_nearest :
  (sorted_by_t Doubles.tenths
   /\ findNearestIndex Doubles.tenths Doubles.d1_1 = Done 0
   /\ (Qabs (value Doubles.d2_1 - value Doubles.d1_1)
       < Qabs (value Doubles.d0_1 - value Doubles.d1_1))%Q)
  /\ (sorted_by_t Doubles.twins
      /\ findNearestIndex Doubles.twins (of_Z 2) = Done 1).
Proof.
  split; [split; [exact tenths_sorted|]; split; vm_compute; reflexivity|].
  split; [repeat constructor | vm_compute; reflexivity].
Qed.

End NearestDoubles.

(** ** findNearestIndex in exact arithmetic *)

Section NearestExact.
Import Num Video.
#[local] Existing Instance rationals.
#[local] Existing Instance exact.

Lemma sorted_at_index tl i j ei ej :
  sorted_by_t tl -> i <= j ->
  at_index tl i = Some ei -> at_index tl j = Some ej -> (t ei <= t ej)%Q.
Proof.
  intros Hs Hij Hi Hj.
  destruct (Z.eq_dec i j) as [->|Hne].
  - rewrite Hi in Hj. injection Hj as <-. apply Qle_refl.
  - apply Qle_bool_iff.
    apply (sorted_at_index_leb exact_order tl i j ei ej Hs); [lia | exact Hi | exact Hj].
Qed.

Lemma three_entries_sorted : sorted_by_t Scenario.three_entries.
Proof. repeat constructor. Qed.

Example findNearestIndex_examples :
  findNearestIndex [] (1 # 4) = Done (-1)
  /\ findNearestIndex Scenario.three_entries (3 # 10) = Done 1
  /\ findNearestIndex Scenario.three_entries (-1)%Q = Done 0
  /\ findNearestIndex Scenario.three_entries 7%Q = Done 2
  /\ findNearestIndex Scenario.three_entries (1 # 2) = Done 1.
Proof. repeat split; vm_compute; reflexivity. Qed.

(** Entries may share a time.  After the last entry the last of the equal
    entries is returned, before the first entry the first of them. *)
Example findNearestIndex_equal_times :
  findNearestIndex [Scenario.entry 1 0; Scenario.entry 1 0] 2%Q = Done 1
  /\ findNearestIndex [Scenario.entry 1 0; Scenario.entry 1 0] 0%Q = Done 0
  /\ findNearestIndex [Scenario.entry 1 0; Scenario.entry 1 0; Scenario.entry 3 0] 2%Q
     = Done 1.
Proof. repeat split; vm_compute; reflexivity. Qed.

End NearestExact.


(* ================================================================== *)
(** * Properties of detectVideo                                         *)
(* ================================================================== *)

Section Detection.
Import Num Video.
Context {Nt : NumberType} {N : Number}.

(** Every field the [catch] and [finally] clauses leave behind. *)
Lemma detect_catch_resets e s :
  let s' := detect_finally (detect_catch e s) in
  timeline s' = [] /\ avgCount s' = of_Z 0 /\ maxCount s' = of_Z 0
  /\ statsText s' = StatsDash /\ painted (canvas s') = []
  /\ detectDisabled s' = false.
Proof. repeat split. Qed.

Lemma detect_try_failure v r s :
  r = Rejected \/ (exists body, r = Response false body) ->
  exists e, detect_try v r s = Threw e s.
Proof.
  intros [-> | [body ->]].
  - exists RequestFailed. reflexivity.
  - destruct body as [| |d]; cbn [detect_try negb]; eauto.
Qed.

(** C10: when a video detection submission fails, by a rejected request, a
    non-success response or an error thrown while the response is applied,
    the handler returns with the timeline empty, the average and maximum
    counts zero, the stats display cleared and nothing painted on the
    overlay, whatever the page held before. *)
Theorem failed_detection_resets_page
    (v : Viewport) (r : Fetched) (s0 s : Page) :
  detectVideo s0 = Some s ->
  (r = Rejected \/ (exists body, r = Response false body)
   \/ (exists e s1, detect_try v r s = Threw e s1)) ->
  exists s',
    detect_on_response v r s = Normal s'
    /\ timeline s' = [] /\ avgCount s' = of_Z 0 /\ maxCount s' = of_Z 0
    /\ statsText s' = StatsDash /\ painted (canvas s') = []
    /\ detectDisabled s' = false.
Proof.
  intros _ Hfail.
  assert (Hthrew : exists e s1, detect_try v r s = Threw e s1).
  { destruct Hfail as [H | [H | H]]; [| | exact H].
    - destruct (detect_try_failure v r s (or_introl H)) as [e He]; eauto.
    - destruct (detect_try_failure v r s (or_intror H)) as [e He]; eauto. }
  destruct Hthrew as (e & s1 & He).
  exists (detect_finally (detect_catch e s1)).
  split; [unfold detect_on_response; rewrite He; reflexivity|].
  apply detect_catch_resets.
Qed.

End Detection.

Section DetectionExamples.
Import Num Video.
#[local] Existing Instance rationals.
#[local] Existing Instance exact.

(** A page that shows an earlier result receives a refusal. *)
Lemma failed_detection_resets_loaded_page :
  let r := Response false
             (Obj {| r_timeline := None; avg_count := None; max_count := None;
                     frames_processed := None; infer_fps := None;
                     include_boxes := None; r_detail := Some "bad video"%string |}) in
  exists s1,
    detectVideo Scenario.loaded = Some s1
    /\ List.length (timeline s1) = 3%nat
    /\ exists s',
         detect_on_response Scenario.viewport r s1 = Normal s'
         /\ timeline s' = [] /\ avgCount s' = of_Z 0 /\ maxCount s' = of_Z 0
         /\ statsText s' = StatsDash /\ painted (canvas s') = []
         /\ detectDisabled s' = false.
Proof.
  intros r.
  exists (set_infoText InfoUploading (set_detectDisabled true Scenario.loaded)).
  split; [reflexivity|]. split; [reflexivity|].
  apply (failed_detection_resets_page Scenario.viewport r Scenario.loaded).
  - reflexivity.
  - right. left. eexists. reflexivity.
Defined.

(** A successful response replaces the timeline and paints the entry
    nearest to the playback position. *)
Example successful_detection_loads_timeline :
  let r := Response true
             (Obj {| r_timeline := Some [Scenario.entry 0 5];
                     avg_count := Some 5%Q; max_count := Some 5%Q;
                     frames_processed := Some 1; infer_fps := Some 2%Q;
                     include_boxes := Some true; r_detail := None |}) in
  exists s',
    detect_on_response Scenario.viewport r Scenario.loaded = Normal s'
    /\ List.length (timeline s') = 1%nat
    /\ countText s' = CountOf 5
    /\ lastIdx s' = 0
    /\ List.length (painted (canvas s')) = 1%nat
    /\ detectDisabled s' = false.
Proof.
  eexists. split; [vm_compute; reflexivity|]. repeat split.
Qed.

End DetectionExamples.

(* ================================================================== *)
(** * Properties of the region-of-interest editor                       *)
(* ================================================================== *)

Section EditorPages.
Import Num Photo.
#[local] Existing Instance rationals.
#[local] Existing Instance exact.

(** ** The pages of [Scenario] are reached by the handlers *)

Example editing_unloaded_reached :
  run Scenario.layout Scenario.unloaded_events Scenario.fresh
  = Scenario.editing_unloaded.
Proof. vm_compute. reflexivity. Qed.

Example two_points_reached :
  run Scenario.layout Scenario.two_points_events Scenario.fresh
  = Scenario.two_points.
Proof. vm_compute. reflexivity. Qed.

Example dragging_first_reached :
  handle Scenario.layout (PointerDown 30%Q 30%Q) Scenario.two_points
  = Scenario.dragging_first.
Proof. vm_compute. reflexivity. Qed.

Example two_points_roi_on_reached :
  handle Scenario.layout RoiEnabledToggle Scenario.two_points
  = Scenario.two_points_roi_on.
Proof. vm_compute. reflexivity. Qed.

End EditorPages.

Section Editor.
Import Num Photo.
Context {Nt : NumberType} {N : Number}.

(** ** Hit test *)

Lemma hit_from_range l s dx dy pts i :
  let r := hit_from l s dx dy pts i in
  r = -1 \/ i <= r < i + Z.of_nat (List.length pts).
Proof.
  revert i. induction pts as [|pt rest IH]; intros i; cbn [hit_from].
  - left. reflexivity.
  - destruct (within_radius l s dx dy pt).
    + right. cbn [List.length]. lia.
    + destruct (IH (i + 1)) as [H|H]; [left; exact H|right].
      cbn [List.length]. lia.
Qed.

(** A hit is the first point within the radius. *)
Lemma hit_from_found l s dx dy pts i :
  0 <= i -> 0 <= hit_from l s dx dy pts i ->
  exists k pt,
    hit_from l s dx dy pts i = i + Z.of_nat k
    /\ nth_error pts k = Some pt
    /\ within_radius l s dx dy pt = true
    /\ (forall k' pt', (k' < k)%nat -> nth_error pts k' = Some pt' ->
          within_radius l s dx dy pt' = false).
Proof.
  revert i. induction pts as [|pt rest IH]; intros i Hi Hr; cbn [hit_from] in *.
  - lia.
  - destruct (within_radius l s dx dy pt) eqn:W.
    + exists O, pt. repeat split; trivial; [lia|]. intros k' pt' Hk. lia.
    + destruct (IH (i + 1)) as (k & q & E & Nk & Wq & First); [lia | exact Hr |].
      exists (S k), q. repeat split; trivial; [lia|].
      intros [|k'] pt' Hk Hn; cbn [nth_error] in Hn.
      * congruence.
      * apply (First k' pt'); [lia | exact Hn].
Qed.

Lemma hit_from_some l s dx dy pts i :
  0 <= i ->
  (exists pt, In pt pts /\ within_radius l s dx dy pt = true) ->
  0 <= hit_from l s dx dy pts i.
Proof.
  revert i. induction pts as [|pt rest IH]; intros i Hi (q & Hin & Wq).
  - destruct Hin.
  - cbn [hit_from]. destruct (within_radius l s dx dy pt) eqn:W; [lia|].
    destruct Hin as [->|Hin]; [congruence|].
    apply IH; [lia | eauto].
Qed.

Lemma hit_from_none l s dx dy pts i :
  (forall pt, In pt pts -> within_radius l s dx dy pt = false) ->
  hit_from l s dx dy pts i = -1.
Proof.
  revert i. induction pts as [|pt rest IH]; intros i Hall; cbn [hit_from].
  - reflexivity.
  - rewrite (Hall pt (or_introl eq_refl)). apply IH.
    intros q Hq. apply Hall. right. exact Hq.
Qed.

(** ** What the helpers leave alone *)

Lemma draw_editor l s :
  roiPts (draw l s) = roiPts s /\ dragIdx (draw l s) = dragIdx s
  /\ roiEdit (draw l s) = roiEdit s.
Proof. unfold draw. destruct ((imgW s =? 0) || (imgH s =? 0)); repeat split. Qed.

Lemma hit_test_sync_editor l s :
  roiPts (hit_test_sync l s) = roiPts s /\ dragIdx (hit_test_sync l s) = dragIdx s
  /\ roiEdit (hit_test_sync l s) = roiEdit s.
Proof. unfold hit_test_sync. destruct (roiPts s) eqn:R; repeat split; assumption. Qed.

Lemma assign_at_length a i p : List.length (assign_at a i p) = List.length a.
Proof.
  revert i. induction a as [|q rest IH]; intros i; [reflexivity|].
  destruct i; cbn [assign_at List.length]; [reflexivity | rewrite IH; reflexivity].
Qed.

(** ** Pointer press *)

(** C6, as amended: in edit mode, in whatever arithmetic the numbers are
    computed, a press is ignored while the native width is 0; otherwise a
    press that the hit test of the script finds within 8 display pixels of
    some polygon point starts a drag of the first such point and appends
    nothing, and a press that it finds farther than that from every point
    appends exactly one point, the press position in native coordinates, and
    starts no drag. *)
Theorem pointerdown_hits_or_appends
    (l : Layout) (clientX clientY : num) (s : Page) :
  roiEdit s = true ->
  let px := (clientX - overlayLeft l)%num in
  let py := (clientY - overlayTop l)%num in
  let s' := on_pointerdown l clientX clientY s in
  (imgW s = 0 -> s' = s)
  /\ (imgW s <> 0 ->
      ((exists pt, In pt (roiPts s) /\ within_radius l s px py pt = true) ->
         roiPts s' = roiPts s
         /\ exists pt,
              at_index (roiPts s) (dragIdx s') = Some pt
              /\ within_radius l s px py pt = true
              /\ (forall j pj, 0 <= j < dragIdx s' -> at_index (roiPts s) j = Some pj ->
                    within_radius l s px py pj = false))
      /\ ((forall pt, In pt (roiPts s) -> within_radius l s px py pt = false) ->
         roiPts s' = roiPts s ++ [dispToImg l s px py]
         /\ dragIdx s' = dragIdx s)).
Proof.
  intros Hedit px py s'.
  assert (Hs' : s' = on_pointerdown l clientX clientY s) by reflexivity.
  unfold on_pointerdown in Hs'. fold px py in Hs'.
  rewrite Hedit in Hs'. cbn [negb orb] in Hs'.
  split.
  { intros HW. rewrite HW in Hs'. exact Hs'. }
  intros HW.
  destruct (imgW s =? 0) eqn:E0; [apply Z.eqb_eq in E0; contradiction|].
  split.
  - intros Hhit.
    pose proof (hit_from_some l s px py (roiPts s) 0 (Z.le_refl 0) Hhit) as Hge.
    fold (hitTestPoint l s px py) in Hge.
    destruct (hit_from_found l s px py (roiPts s) 0 (Z.le_refl 0) Hge)
      as (k & pt & Ek & Nk & Wk & First).
    fold (hitTestPoint l s px py) in Ek.
    destruct (0 <=? hitTestPoint l s px py) eqn:Eh; [| apply Z.leb_gt in Eh; lia].
    assert (Hd : dragIdx s' = Z.of_nat k).
    { rewrite Hs'. cbn [set_dragIdx dragIdx]. rewrite Ek. lia. }
    split.
    + rewrite Hs'. apply hit_test_sync_editor.
    + exists pt. rewrite Hd. unfold at_index.
      destruct (Z.of_nat k <? 0) eqn:Ek0; [apply Z.ltb_lt in Ek0; lia|].
      rewrite Nat2Z.id. repeat split; trivial.
      intros j pj Hj. destruct (j <? 0) eqn:Ej; [discriminate|].
      intros Hn. apply (First (Z.to_nat j) pj); [lia | exact Hn].
  - intros Hmiss.
    pose proof (hit_from_none l s px py (roiPts s) 0 Hmiss) as Hm.
    fold (hitTestPoint l s px py) in Hm. rewrite Hm in Hs'.
    cbn [Z.leb Z.compare] in Hs'.
    rewrite Hs'.
    destruct (draw_editor l
                (updateUiEnabled
                   (set_roiPts (roiPts s ++ [dispToImg l s px py])
                      (canvasSizeToImage l (hit_test_sync l s))))) as (Hp & Hd & _).
    rewrite Hp, Hd. split; [reflexivity|].
    apply hit_test_sync_editor.
Qed.

(** ** Drag invariant *)

Lemma drag_ok_same s s' :
  roiPts s' = roiPts s -> dragIdx s' = dragIdx s -> roiEdit s' = roiEdit s ->
  drag_ok s -> drag_ok s'.
Proof. unfold drag_ok. intros -> -> ->. trivial. Qed.

Lemma drag_ok_draw l s : drag_ok s -> drag_ok (draw l s).
Proof.
  destruct (draw_editor l s) as (Hp & Hd & He).
  apply drag_ok_same; assumption.
Qed.

Lemma drag_ok_released s : dragIdx s = -1 -> drag_ok s.
Proof. intros H. left. exact H. Qed.

Lemma on_pointerdown_drag_ok l cx cy s : drag_ok s -> drag_ok (on_pointerdown l cx cy s).
Proof.
  intros Hok. unfold on_pointerdown.
  destruct (roiEdit s) eqn:Hedit; cbn [negb orb]; [|exact Hok].
  destruct (imgW s =? 0); [exact Hok|].
  set (px := (cx - overlayLeft l)%num). set (py := (cy - overlayTop l)%num).
  destruct (hit_test_sync_editor l s) as (Hp & Hd & He).
  destruct (0 <=? hitTestPoint l s px py) eqn:Eh.
  - apply Z.leb_le in Eh. right.
    cbn [set_dragIdx dragIdx roiPts roiEdit]. rewrite Hp, He.
    split; [|exact Hedit].
    pose proof (hit_from_range l s px py (roiPts s) 0) as R.
    fold (hitTestPoint l s px py) in R. cbn zeta in R. lia.
  - apply drag_ok_draw.
    destruct Hok as [H|[H1 H2]]; [left|right];
      cbn [updateUiEnabled set_ui set_roiPts canvasSizeToImage set_overlaySize
           dragIdx roiPts roiEdit]; rewrite ?Hd, ?He, ?Hp; trivial.
    split; [|exact H2]. rewrite length_app. cbn [List.length]. lia.
Qed.

Lemma on_pointermove_drag_ok l cx cy s : drag_ok s -> drag_ok (on_pointermove l cx cy s).
Proof.
  intros Hok. unfold on_pointermove.
  destruct (negb (roiEdit s) || (dragIdx s <? 0) || (imgW s =? 0)); [exact Hok|].
  apply drag_ok_draw.
  destruct Hok as [H|[H1 H2]]; [left; exact H|right].
  cbn [set_roiPts canvasSizeToImage set_overlaySize dragIdx roiPts roiEdit].
  rewrite assign_at_length. split; assumption.
Qed.

(** C8, as amended: every event of the editor keeps the invariant that the
    single drag index is either none, or the index of an existing point
    while edit mode is on; the page starts in it.  A press is not refused
    while a drag is in progress: in edit mode with an image loaded, a press
    that hits a point makes that point the dragged one, whatever was dragged
    before. *)
Theorem drag_invariant_preserved (l : Layout) (ev : Event) (s : Page) :
  drag_ok s ->
  drag_ok (handle l ev s)
  /\ drag_ok (clearAll s)
  /\ (forall cx cy,
        ev = PointerDown cx cy -> roiEdit s = true -> imgW s <> 0 ->
        0 <= hitTestPoint l s (cx - overlayLeft l) (cy - overlayTop l) ->
        dragIdx (handle l ev s)
        = hitTestPoint l s (cx - overlayLeft l) (cy - overlayTop l)).
Proof.
  intros Hok. split; [|split].
  - destruct ev; cbn [handle].
    + unfold on_editRoi. destruct (file s); [|exact Hok].
      apply drag_ok_released. cbn [set_status dragIdx].
      rewrite (proj1 (proj2 (draw_editor l _))). reflexivity.
    + unfold on_clearRoi. apply drag_ok_draw, drag_ok_released. reflexivity.
    + apply drag_ok_released. reflexivity.
    + unfold on_keydown. destruct (escape && roiEdit s); [|exact Hok].
      apply drag_ok_released. cbn [set_status dragIdx].
      rewrite (proj1 (proj2 (draw_editor l _))). reflexivity.
    + apply on_pointerdown_drag_ok, Hok.
    + apply on_pointermove_drag_ok, Hok.
    + unfold on_pointerup. destruct (0 <=? dragIdx s); [|exact Hok].
      apply drag_ok_draw, drag_ok_released. reflexivity.
    + unfold on_fileChange. destruct f; [|exact Hok].
      apply drag_ok_released. reflexivity.
    + unfold on_imgLoad.
      apply (drag_ok_same (draw l (updateUiEnabled (set_imgH naturalHeight
                                      (set_imgW naturalWidth s))))); try reflexivity.
      apply drag_ok_draw. exact Hok.
    + exact Hok.
    + apply drag_ok_draw, Hok.
    + unfold on_detectClick. destruct (file s); exact Hok.
    + unfold detect_on_response. destruct r as [|ok code body]; [exact Hok|].
      destruct (negb ok); [exact Hok|].
      destruct body; try exact Hok; apply drag_ok_draw; exact Hok.
  - apply drag_ok_released. reflexivity.
  - intros cx cy -> Hedit HW Hhit. cbn [handle]. unfold on_pointerdown.
    rewrite Hedit. cbn [negb orb].
    destruct (imgW s =? 0) eqn:E0; [apply Z.eqb_eq in E0; contradiction|].
    cbn zeta.
    destruct (0 <=? hitTestPoint l s (cx - overlayLeft l) (cy - overlayTop l)) eqn:Eh;
      [reflexivity | apply Z.leb_gt in Eh; lia].
Qed.

(** ** Export of the polygon *)

Lemma form_get_In name (fd : FormData) :
  form_get name fd <> None <-> In name (map fst fd).
Proof.
  induction fd as [|[k v] rest IH]; cbn [form_get map fst In].
  - split; [congruence | tauto].
  - destruct (String.eqb k name) eqn:E.
    + apply String.eqb_eq in E. split; [auto | discriminate].
    + apply String.eqb_neq in E. rewrite IH. tauto.
Qed.

Lemma useRoi_iff s :
  useRoi s = true <-> roiEnabled s = true /\ (3 <= List.length (roiPts s))%nat.
Proof.
  unfold useRoi. rewrite andb_true_iff, Nat.leb_le. reflexivity.
Qed.

(** C5, as amended: in whatever arithmetic the numbers are computed, a
    detection submission carries a "roi" parameter exactly when ROI usage is
    ticked and the polygon has at least 3 points, and otherwise no "roi"
    parameter at all; the parameter is the list of the points, each as its x
    divided by the native width and its y divided by the native height. *)
Theorem roi_parameter_sent_iff (s : Page) (f : File) :
  file s = Some f ->
  exists s' fd,
    on_detectClick s = Some (s', fd)
    /\ (In "roi"%string (map fst fd)
        <-> roiEnabled s = true /\ (3 <= List.length (roiPts s))%nat)
    /\ (roiEnabled s = true /\ (3 <= List.length (roiPts s))%nat ->
        form_get "roi" fd
        = Some (FormPoints
                  (map (fun p => ((x p / of_Z (imgW s))%num,
                                  (y p / of_Z (imgH s))%num)) (roiPts s)))).
Proof.
  intros Hf. unfold on_detectClick. rewrite Hf.
  set (s1 := resetResults (set_status StatusUploading s)).
  assert (Huse : useRoi s1 = useRoi s) by reflexivity.
  exists s1, (detectForm f s1). split; [reflexivity|]. split.
  - rewrite <- useRoi_iff, <- form_get_In. unfold detectForm. rewrite Huse.
    destruct (useRoi s); cbn; split; congruence.
  - intros H. apply useRoi_iff in H. unfold detectForm. rewrite Huse, H.
    reflexivity.
Qed.

(** ** Coordinate transforms *)

Lemma canvasSize_positive l : 1 <= fst (canvasSize l) /\ 1 <= snd (canvasSize l).
Proof. unfold canvasSize. cbn [fst snd]. lia. Qed.

End Editor.

(** ** The editor in binary64 *)

Section EditorDoubles.
Import Num Photo.
#[local] Existing Instance doubles.
#[local] Existing Instance binary64.

(** The pages of [Doubles] are reached by the handlers. *)

Example doubles_editing_unloaded_reached :
  run Doubles.layout Doubles.unloaded_events at_load = Doubles.editing_unloaded.
Proof. reflexivity. Qed.

Example doubles_one_point_reached :
  run Doubles.layout Doubles.one_point_events at_load = Doubles.one_point.
Proof. reflexivity. Qed.

Example doubles_swapped_image_reached :
  run Doubles.layout Doubles.swapped_image_events at_load = Doubles.swapped_image.
Proof. reflexivity. Qed.


(** On the page with one point, set by a press at (37, 28): a press three
    pixels to its right starts dragging it; a press eight pixels to its
    right appends a second point, because the stored point is displayed one
    unit in the last place left of 29 and the squared distance exceeds 64;
    the second point is the press position in native coordinates. *)
Lemma presses_next_to_one_point :
  let s := Doubles.one_point in
  let l := Doubles.layout in
  roiEdit s = true
  /\ imgW s <> 0
  /\ (roiPts (on_pointerdown l (of_Z 40) (of_Z 28) s) = roiPts s
      /\ exists pt,
           at_index (roiPts s) (dragIdx (on_pointerdown l (of_Z 40) (of_Z 28) s))
           = Some pt
           /\ within_radius l s (of_Z 40 - overlayLeft l) (of_Z 28 - overlayTop l) pt
              = true
           /\ (forall j pj,
                 0 <= j < dragIdx (on_pointerdown l (of_Z 40) (of_Z 28) s) ->
                 at_index (roiPts s) j = Some pj ->
                 within_radius l s (of_Z 40 - overlayLeft l) (of_Z 28 - overlayTop l) pj
                 = false))
  /\ (roiPts (on_pointerdown l (of_Z 45) (of_Z 28) s)
        = roiPts s ++ [dispToImg l s (of_Z 45 - overlayLeft l) (of_Z 28 - overlayTop l)]
      /\ dragIdx (on_pointerdown l (of_Z 45) (of_Z 28) s) = dragIdx s)
  /\ dispToImg l s (of_Z 45 - overlayLeft l) (of_Z 28 - overlayTop l)
     = {| x := of_Z 74; y := of_Z 40 |}.
Proof.
  intros s l.
  assert (H1 : roiEdit s = true) by (vm_compute; reflexivity).
  assert (H2 : imgW s <> 0) by (vm_compute; discriminate).
  split; [exact H1|]. split; [exact H2|]. split; [|split].
  - refine (proj1 (proj2 (pointerdown_hits_or_appends l (of_Z 40) (of_Z 28) s H1) H2) _).
    exists Doubles.point_c.
    split; [left; reflexivity | vm_compute; reflexivity].
  - refine (proj2 (proj2 (pointerdown_hits_or_appends l (of_Z 45) (of_Z 28) s H1) H2) _).
    intros pt [<-|[]]; vm_compute; reflexivity.
  - reflexivity.
Defined.

(** C6, as stated, fails while the image has not loaded: edit mode is on,
    the press is within the radius of no point, and no point is appended. *)
Lemma press_before_image_loads_is_ignored :
  let s := Doubles.editing_unloaded in
  let l := Doubles.layout in
  let s' := on_pointerdown l (of_Z 50) (of_Z 50) s in
  roiEdit s = true
  /\ (forall pt, In pt (roiPts s) ->
        within_radius l s (of_Z 50 - overlayLeft l) (of_Z 50 - overlayTop l) pt = false)
  /\ roiPts s' = roiPts s
  /\ List.length (roiPts s') <> S (List.length (roiPts s))
  /\ dragIdx s' = -1.
Proof.
  repeat split; try reflexivity.
  - intros pt [].
  - vm_compute. discriminate.
Qed.

(** C5, as stated, fails: the points are divided by the native size
    without being kept inside the image.  Points set while the old image was
    still shown are divided by the size of the new one, and the request
    carries (4, 4), (2, 4) and (2, 0). *)
Lemma roi_outside_unit_square :
  let s := Doubles.swapped_image in
  roiEnabled s = true
  /\ List.length (roiPts s) = 3%nat
  /\ exists s' fd,
       on_detectClick s = Some (s', fd)
       /\ form_get "roi" fd
          = Some (FormPoints [(of_Z 4, of_Z 4); (of_Z 2, of_Z 4); (of_Z 2, of_Z 0)])
       /\ (of_Z 1 <? of_Z 4)%num = true.
Proof.
  intros s. split; [reflexivity|]. split; [reflexivity|].
  eexists. eexists. split; [reflexivity|]. split; reflexivity.
Qed.

(** ** The round trip of the transforms *)

(** In binary64 the round trip is not the identity.  On the 400 x 200 image
    shown at half size the native coordinate 7 is displayed at
    3.5000000000000004 and comes back as 7.0000000000000009, the double next
    above 7; that is within 2^-50 of 7, relatively. *)
Example round_trip_of_seven :
  let p := {| x := of_Z 7; y := of_Z 7 |} in
  imgToDisp Doubles.layout Doubles.one_point p
  = {| x := (of_Z 7 / of_Z 400 * of_Z 200)%num; y := (of_Z 7 / of_Z 200 * of_Z 100)%num |}
  /\ round_trip Doubles.layout Doubles.one_point p
     = {| x := Doubles.seven_up; y := Doubles.seven_up |}
  /\ (value (of_Z 7) < value Doubles.seven_up)%Q
  /\ round_trip_within (1 # 2 ^ 50) Doubles.layout Doubles.one_point p.
Proof.
  intros p. split; [reflexivity|]. split; [reflexivity|].
  split; [vm_compute; reflexivity|].
  split; vm_compute; discriminate.
Qed.

End EditorDoubles.

(** ** The editor in exact arithmetic *)

Section EditorExact.
Import Num Photo.
#[local] Existing Instance rationals.
#[local] Existing Instance exact.

(** From the page that drags the first point, a press on the second point
    keeps the invariant and moves the drag to the second point. *)
Lemma retargeted_drag_scenario :
  let s := Scenario.dragging_first in
  let l := Scenario.layout in
  drag_ok s
  /\ dragIdx s = 0
  /\ drag_ok (handle l (PointerDown 110%Q 60%Q) s)
  /\ dragIdx (handle l (PointerDown 110%Q 60%Q) s) = 1.
Proof.
  intros s l.
  assert (Hok : drag_ok s) by (right; vm_compute; repeat split; discriminate).
  pose proof (drag_invariant_preserved l (PointerDown 110%Q 60%Q) s Hok) as (H1 & _ & H3).
  assert (HW : imgW s <> 0) by (vm_compute; discriminate).
  assert (Hhit : 0 <= hitTestPoint l s (110%Q - overlayLeft l) (60%Q - overlayTop l))
    by (vm_compute; discriminate).
  split; [exact Hok|]. split; [vm_compute; reflexivity|]. split; [exact H1|].
  rewrite (H3 110%Q 60%Q eq_refl eq_refl HW Hhit). vm_compute. reflexivity.
Defined.

(** C8, as stated, fails: while the first point is dragged and before any
    release, a press on the second point makes it the dragged one. *)
Lemma drag_not_exclusive : ~ drag_exclusive.
Proof.
  intros H.
  specialize (H Scenario.layout (PointerDown 110%Q 60%Q) Scenario.dragging_first).
  destruct H as [H|H].
  - right. vm_compute. repeat split; discriminate.
  - vm_compute. discriminate.
  - discriminate.
  - vm_compute in H. discriminate.
  - vm_compute in H. discriminate.
Qed.

(** With two points and ROI usage ticked the request has no "roi"
    parameter. *)
Lemma roi_parameter_absent_with_two_points :
  let s := Scenario.two_points_roi_on in
  file s = Some "a.png"%string
  /\ roiEnabled s = true
  /\ List.length (roiPts s) = 2%nat
  /\ exists s' fd,
       on_detectClick s = Some (s', fd)
       /\ ~ In "roi"%string (map fst fd).
Proof.
  intros s.
  assert (Hf : file s = Some "a.png"%string) by reflexivity.
  destruct (roi_parameter_sent_iff s "a.png"%string Hf) as (s' & fd & E & Hiff & _).
  repeat split; trivial.
  exists s', fd. split; [exact E|].
  intros Hin. apply Hiff in Hin. destruct Hin as [_ Hlen].
  vm_compute in Hlen. lia.
Defined.

Lemma Qdiv_unit_interval (a b : Q) :
  (0 < b -> 0 <= a -> a <= b -> 0 <= a / b <= 1)%Q.
Proof.
  intros Hb H0 H1. split.
  - apply Qle_shift_div_l; [exact Hb | lra].
  - apply Qle_shift_div_r; [exact Hb | lra].
Qed.

End EditorExact.

(* ================================================================== *)
(** * Further properties of stream.js                                   *)
(* ================================================================== *)

Section Playlist.
Import Js Stream.

Lemma split_from_other c cur rest :
  c <> 10%N -> c <> 13%N -> split_from cur (c :: rest) = split_from (c :: cur) rest.
Proof.
  intros H10 H13.
  destruct c as [|p]; [reflexivity|].
  do 4 (destruct p as [p|p|]; try reflexivity); congruence.
Qed.

Lemma split_from_line cur ln :
  one_line ln -> split_from cur ln = [rev cur ++ ln].
Proof.
  intros H. revert cur. induction H as [|c ln [H10 H13] _ IH]; intros cur.
  - cbn [split_from]. rewrite app_nil_r. reflexivity.
  - rewrite split_from_other by assumption. rewrite IH.
    cbn [rev]. rewrite <- app_assoc. reflexivity.
Qed.

Lemma split_from_line_lf cur ln rest :
  one_line ln ->
  split_from cur (ln ++ 10%N :: rest) = (rev cur ++ ln) :: split_from [] rest.
Proof.
  intros H. revert cur. induction H as [|c ln [H10 H13] _ IH]; intros cur.
  - cbn [app split_from]. rewrite app_nil_r. reflexivity.
  - cbn [app]. rewrite split_from_other by assumption. rewrite IH.
    cbn [rev]. rewrite <- app_assoc. reflexivity.
Qed.

Lemma split_from_line_crlf cur ln rest :
  one_line ln ->
  split_from cur (ln ++ 13%N :: 10%N :: rest) = (rev cur ++ ln) :: split_from [] rest.
Proof.
  intros H. revert cur. induction H as [|c ln [H10 H13] _ IH]; intros cur.
  - cbn [app split_from]. rewrite app_nil_r. reflexivity.
  - cbn [app]. rewrite split_from_other by assumption. rewrite IH.
    cbn [rev]. rewrite <- app_assoc. reflexivity.
Qed.

(** Splitting undoes joining, with either line ending. *)
Lemma split_join_lines ls :
  ls <> [] -> Forall one_line ls ->
  split_lines (join_lines [10%N] ls) = ls
  /\ split_lines (join_lines [13%N; 10%N] ls) = ls.
Proof.
  intros Hne H. unfold split_lines.
  induction H as [|ln rest Hln Hrest IH]; [congruence|].
  destruct rest as [|ln' rest'].
  - cbn [join_lines]. rewrite split_from_line by assumption. split; reflexivity.
  - destruct IH as [IH1 IH2]; [discriminate|].
    cbn [join_lines] in *. cbn [app]. split.
    + rewrite split_from_line_lf by assumption. cbn [rev app]. f_equal. exact IH1.
    + rewrite split_from_line_crlf by assumption. cbn [rev app]. f_equal. exact IH2.
Qed.

Lemma countSegments_of_lines text :
  countSegmentsInM3U8 text = segment_line_count (map trim (split_lines text)).
Proof.
  unfold countSegmentsInM3U8, playlist_lines, segment_line_count.
  rewrite count_loop_filter, filter_truthy_then, Z.add_0_l. do 2 f_equal.
  apply filter_ext. intros ln. unfold is_segment_line.
  rewrite andb_assoc. reflexivity.
Qed.

(** X1: a playlist made of the same lines counts the same whether the lines
    are joined by LF or by CRLF, and the count is that of the segment lines
    among the trimmed lines. *)
Theorem countSegments_line_endings (ls : list jsstring) :
  Forall one_line ls ->
  countSegmentsInM3U8 (join_lines [10%N] ls) = segment_line_count (map trim ls)
  /\ countSegmentsInM3U8 (join_lines [13%N; 10%N] ls)
     = segment_line_count (map trim ls).
Proof.
  intros H. destruct ls as [|ln rest].
  - split; reflexivity.
  - destruct (split_join_lines (ln :: rest)) as [E1 E2]; [discriminate | exact H |].
    rewrite !countSegments_of_lines, E1, E2. split; reflexivity.
Qed.

Lemma one_line_units_examples :
  Forall one_line [units "#EXTM3U"; units "seg1.ts"; units " seg2.m4s "; units "readme.txt"].
Proof.
  repeat constructor; discriminate.
Qed.

Lemma playlist_with_both_line_endings :
  let ls := [units "#EXTM3U"; units "seg1.ts"; units " seg2.m4s "; units "readme.txt"] in
  Forall one_line ls
  /\ countSegmentsInM3U8 (join_lines [10%N] ls) = 2
  /\ countSegmentsInM3U8 (join_lines [13%N; 10%N] ls) = 2.
Proof.
  intros ls.
  pose proof (countSegments_line_endings ls one_line_units_examples) as [H1 H2].
  split; [exact one_line_units_examples|].
  split; [rewrite H1 | rewrite H2]; reflexivity.
Defined.

(** The count is never negative and never more than the number of lines
    of the text. *)
Lemma countSegments_bounds (text : jsstring) :
  0 <= countSegmentsInM3U8 text <= Z.of_nat (List.length (split_lines text)).
Proof.
  rewrite countSegments_of_lines. unfold segment_line_count.
  pose proof (filter_length_le is_segment_line (map trim (split_lines text))) as H.
  rewrite length_map in H. lia.
Qed.

Lemma split_from_cr cur s :
  split_from cur (13%N :: s)
  = match s with
    | 10%N :: rest => rev cur :: split_from [] rest
    | _ => split_from (13%N :: cur) s
    end.
Proof.
  destruct s as [|c rest]; [reflexivity|].
  destruct c as [|p]; [reflexivity|].
  do 4 (destruct p as [p|p|]; try reflexivity).
Qed.

Lemma split_from_lf cur s :
  split_from cur (10%N :: s) = rev cur :: split_from [] s.
Proof. reflexivity. Qed.

Lemma trimStart_snoc_cr a :
  (trimStart a = [] /\ trimStart (a ++ [13%N]) = [])
  \/ (trimStart a <> [] /\ trimStart (a ++ [13%N]) = trimStart a ++ [13%N]).
Proof.
  induction a as [|c rest IH].
  - left. split; reflexivity.
  - cbn [app trimStart]. destruct (is_space c); [exact IH|].
    right. split; [discriminate | reflexivity].
Qed.

Lemma trim_snoc_cr a : trim (a ++ [13%N]) = trim a.
Proof.
  unfold trim, trimEnd.
  destruct (trimStart_snoc_cr a) as [[E1 E2]|[_ E2]]; rewrite E2.
  - rewrite E1. reflexivity.
  - rewrite rev_app_distr. cbn [rev app trimStart is_space].
    reflexivity.
Qed.

(** The trimmed lines of a text to which a line feed and one more line are
    appended are the trimmed lines of the text followed by that line. *)
Lemma trimmed_lines_append text ln :
  one_line ln ->
  forall cur,
    map trim (split_from cur (text ++ 10%N :: ln))
    = map trim (split_from cur text) ++ [trim ln].
Proof.
  intros Hln. induction text as [|c rest IH]; intros cur.
  - cbn [app]. rewrite split_from_lf, (split_from_line [] ln Hln).
    cbn [split_from map rev app]. reflexivity.
  - cbn [app]. destruct (N.eq_dec c 10) as [->|H10].
    { rewrite !split_from_lf. cbn [map app]. rewrite IH. reflexivity. }
    destruct (N.eq_dec c 13) as [->|H13].
    + rewrite !split_from_cr. destruct rest as [|c' rest'].
      * cbn [app]. rewrite (split_from_line [] ln Hln).
        cbn [split_from map rev app]. rewrite trim_snoc_cr. reflexivity.
      * cbn [app]. destruct (N.eq_dec c' 10) as [->|H'].
        -- cbn [map app]. f_equal.
           specialize (IH (13%N :: cur)). cbn [app] in IH.
           rewrite !split_from_lf in IH. cbn [map app] in IH.
           injection IH as IH. exact IH.
        -- assert (E : forall s,
                     match c' :: s with
                     | 10%N :: r => rev cur :: split_from [] r
                     | _ => split_from (13%N :: cur) (c' :: s)
                     end = split_from (13%N :: cur) (c' :: s)).
           { intros s0. destruct c' as [|p]; [reflexivity|].
             do 4 (destruct p as [p|p|]; try reflexivity). congruence. }
           rewrite !E. apply (IH (13%N :: cur)).
    + rewrite !split_from_other by assumption. apply IH.
Qed.

(** X2: appending a line feed and one more line to a playlist raises the
    count by one when that line, trimmed, is a segment line, and leaves it
    as it is otherwise. *)
Theorem countSegments_grows_by_appended_line (text ln : jsstring) :
  one_line ln ->
  countSegmentsInM3U8 (text ++ 10%N :: ln)
  = countSegmentsInM3U8 text + (if is_segment_line (trim ln) then 1 else 0).
Proof.
  intros Hln. rewrite !countSegments_of_lines. unfold split_lines.
  rewrite (trimmed_lines_append text ln Hln []).
  unfold segment_line_count. rewrite filter_app, length_app. cbn [filter].
  destruct (is_segment_line (trim ln)); cbn [List.length]; lia.
Qed.

Lemma playlist_grows_by_one_segment :
  one_line (units "seg3.ts")
  /\ countSegmentsInM3U8 (examplePlaylist ++ 10%N :: units "seg3.ts") = 3.
Proof.
  assert (H : one_line (units "seg3.ts")) by (repeat constructor; discriminate).
  split; [exact H|].
  rewrite (countSegments_grows_by_appended_line examplePlaylist (units "seg3.ts") H).
  reflexivity.
Defined.

End Playlist.

Section ControllerMore.
Import Js Stream.

(** ** The log *)

(** The log after [appendLog]: the old lines without their first [k], then
    the new line, where [k] is what exceeds [MAX_LOG_LINES]. *)
Lemma appendLog_shape (line : LogLine) (g : Page) :
  logLines (appendLog line g)
  = skipn (S (List.length (logLines g)) - MAX_LOG_LINES) (logLines g) ++ [line].
Proof.
  unfold appendLog. cbn [logLines with_logs].
  rewrite length_app. cbn [List.length]. rewrite Nat.add_1_r.
  rewrite skipn_app.
  replace (S (List.length (logLines g)) - MAX_LOG_LINES - List.length (logLines g))%nat
    with O by (unfold MAX_LOG_LINES; lia).
  reflexivity.
Qed.

(** X3: after [appendLog] the log holds at most [MAX_LOG_LINES] lines, the
    new line is the last one, and the lines kept are the most recent ones:
    only a prefix of the old log is dropped, nothing while there is room. *)
Theorem appendLog_keeps_most_recent (line : LogLine) (g : Page) :
  (List.length (logLines (appendLog line g)) <= MAX_LOG_LINES)%nat
  /\ last (logLines (appendLog line g)) line = line
  /\ (exists dropped kept,
        logLines g = dropped ++ kept
        /\ logLines (appendLog line g) = kept ++ [line])
  /\ ((List.length (logLines g) < MAX_LOG_LINES)%nat ->
      logLines (appendLog line g) = logLines g ++ [line]).
Proof.
  rewrite appendLog_shape.
  set (k := (S (List.length (logLines g)) - MAX_LOG_LINES)%nat).
  split; [|split; [|split]].
  - rewrite length_app, length_skipn. cbn [List.length].
    unfold k, MAX_LOG_LINES. lia.
  - apply last_last.
  - exists (firstn k (logLines g)), (skipn k (logLines g)).
    split; [symmetry; apply firstn_skipn | reflexivity].
  - intros Hroom. replace k with O by (unfold k, MAX_LOG_LINES in *; lia). reflexivity.
Qed.

(** ** The readiness wait *)

(** X4: a wait reports readiness only on a successful playlist response
    whose text has at least [minSegments] segment lines, and on every such
    response; the segment count it reports is the count of that text. *)
Theorem wait_ready_iff_enough_segments
    (r : Fetched jsstring) (f : WaitFrame) (g : Page) (n : Z) :
  snd (wait_on_text r f g) = Finished (Ready n)
  <-> exists text,
        r = Response true text /\ truthy text = true
        /\ n = countSegmentsInM3U8 text /\ minSegments (opts f) <= n.
Proof.
  unfold wait_on_text. split.
  - destruct r as [|ok body]; cbn [fetchTextNoStore]; [discriminate|].
    destruct ok; [|discriminate].
    destruct (truthy body) eqn:T; [|discriminate].
    destruct (minSegments (opts f) <=? countSegmentsInM3U8 body) eqn:E;
      cbn [snd]; [|discriminate].
    intros H. injection H as <-. apply Z.leb_le in E. eauto.
  - intros (text & -> & T & -> & Hmin). cbn [fetchTextNoStore]. rewrite T.
    destruct (minSegments (opts f) <=? countSegmentsInM3U8 text) eqn:E;
      [reflexivity | apply Z.leb_gt in E; lia].
Qed.

(** X5: a playlist response with a non-success status, with an empty body,
    or with too few segment lines is not an error: the wait sleeps for
    [pollMs]; only the first two leave the badge alone, and only a rejected
    request raises. *)
Theorem wait_poll_failure_is_not_an_error
    (r : Fetched jsstring) (f : WaitFrame) (g : Page) :
  (forall body, r = Response false body ->
     wait_on_text r f g = (g, Suspended (AtSleep (pollMs (opts f)))))
  /\ (r = Response true [] ->
      wait_on_text r f g = (g, Suspended (AtSleep (pollMs (opts f)))))
  /\ (forall text, r = Response true text -> truthy text = true ->
      countSegmentsInM3U8 text < minSegments (opts f) ->
      wait_on_text r f g
      = (setHlsBadge wait (Progress (countSegmentsInM3U8 text) (minSegments (opts f))) g,
         Suspended (AtSleep (pollMs (opts f)))))
  /\ (forall e, snd (wait_on_text r f g) = Raised e -> r = Rejected /\ e = NetworkError).
Proof.
  unfold wait_on_text. repeat split.
  - intros body ->. reflexivity.
  - intros ->. reflexivity.
  - intros text -> T Hfew. cbn [fetchTextNoStore]. rewrite T.
    destruct (minSegments (opts f) <=? countSegmentsInM3U8 text) eqn:E;
      [apply Z.leb_le in E; lia | reflexivity].
  - destruct r as [|ok body]; cbn [fetchTextNoStore snd] in *; [reflexivity|].
    destruct ok; [|discriminate].
    destruct (truthy body); [|discriminate].
    destruct (minSegments (opts f) <=? countSegmentsInM3U8 body); discriminate.
  - destruct r as [|ok body]; cbn [fetchTextNoStore snd] in *; [congruence|].
    destruct ok; [|discriminate].
    destruct (truthy body); [|discriminate].
    destruct (minSegments (opts f) <=? countSegmentsInM3U8 body); discriminate.
Qed.

Lemma setHlsBadge_rest st x g :
  logLines (setHlsBadge st x g) = logLines g
  /\ safeLastStatus (setHlsBadge st x g) = safeLastStatus g
  /\ statusShown (setHlsBadge st x g) = statusShown g
  /\ hls (setHlsBadge st x g) = hls g
  /\ videoSrc (setHlsBadge st x g) = videoSrc g
  /\ videoPlaying (setHlsBadge st x g) = videoPlaying g.
Proof. unfold setHlsBadge. destruct (hlsBadge g); repeat split. Qed.

(** X6: whatever the clock and the response, a step of [waitForHlsReady]
    touches nothing but the badge: the token, the log, the status and the
    player are as before. *)
Theorem wait_steps_touch_only_the_badge
    (now : Z) (r : Fetched jsstring) (f : WaitFrame) (g : Page) :
  (forall g', g' = fst (wait_loop_head now f g) \/ g' = fst (wait_on_text r f g) ->
     startToken g' = startToken g /\ logLines g' = logLines g
     /\ safeLastStatus g' = safeLastStatus g /\ statusShown g' = statusShown g
     /\ hls g' = hls g /\ videoSrc g' = videoSrc g
     /\ videoPlaying g' = videoPlaying g)
  /\ (hlsBadge g = None ->
      fst (wait_loop_head now f g) = g /\ fst (wait_on_text r f g) = g).
Proof.
  split.
  - intros g' [-> | ->].
    + unfold wait_loop_head.
      destruct (now - startTime f <? timeoutMs (opts f)).
      * destruct (negb (token f =? startToken g)); repeat split.
      * split; [apply setHlsBadge_token | apply setHlsBadge_rest].
    + unfold wait_on_text. destruct (fetchTextNoStore r) as [e|[text|]];
        try (repeat split; fail).
      destruct (truthy text); [|repeat split].
      destruct (minSegments (opts f) <=? countSegmentsInM3U8 text); cbn [fst].
      * destruct (setHlsBadge_rest ready (SegsFound (countSegmentsInM3U8 text))
                    (setHlsBadge wait (Progress (countSegmentsInM3U8 text)
                                         (minSegments (opts f))) g))
          as (H1 & H2 & H3 & H4 & H5 & H6).
        destruct (setHlsBadge_rest wait (Progress (countSegmentsInM3U8 text)
                                           (minSegments (opts f))) g)
          as (K1 & K2 & K3 & K4 & K5 & K6).
        rewrite !setHlsBadge_token. repeat split; congruence.
      * split; [apply setHlsBadge_token | apply setHlsBadge_rest].
  - intros Hno.
    assert (Hset : forall st x, setHlsBadge st x g = g)
      by (intros; unfold setHlsBadge; rewrite Hno; reflexivity).
    split.
    + unfold wait_loop_head.
      destruct (now - startTime f <? timeoutMs (opts f)).
      * destruct (negb (token f =? startToken g)); reflexivity.
      * cbn [fst]. apply Hset.
    + unfold wait_on_text. destruct (fetchTextNoStore r) as [e|[text|]]; try reflexivity.
      destruct (truthy text); [|reflexivity].
      destruct (minSegments (opts f) <=? countSegmentsInM3U8 text); cbn [fst];
        rewrite !Hset; reflexivity.
Qed.

(** What one round of polling without enough segments does. *)
Lemma poll_round_keeps_waiting br k f u g r t_text t_timer :
  token f = startToken g -> not_enough f r ->
  t_timer - startTime f < timeoutMs (opts f) ->
  exists g1,
    resume br t_text (TextArrived r) (Waiting k f (AtFetch u)) g
    = (g1, Waiting k f (AtSleep (pollMs (opts f))))
    /\ resume br t_timer TimerFired (Waiting k f (AtSleep (pollMs (opts f)))) g1
       = (g1, Waiting k f (AtFetch {| base := hlsUrl f; stamp := t_timer |}))
    /\ startToken g1 = startToken g /\ logLines g1 = logLines g
    /\ hls g1 = hls g /\ videoSrc g1 = videoSrc g /\ videoPlaying g1 = videoPlaying g.
Proof.
  intros Htok Hr Hbudget.
  assert (Hstep : exists g1,
            wait_on_text r f g = (g1, Suspended (AtSleep (pollMs (opts f))))
            /\ startToken g1 = startToken g /\ logLines g1 = logLines g
            /\ hls g1 = hls g /\ videoSrc g1 = videoSrc g
            /\ videoPlaying g1 = videoPlaying g).
  { unfold wait_on_text. destruct r as [|ok text]; [destruct Hr|].
    cbn [fetchTextNoStore]. destruct ok; [|exists g; repeat split].
    destruct (truthy text) eqn:T; [|exists g; repeat split].
    destruct Hr as [H|[H|H]]; [discriminate | congruence |].
    destruct (minSegments (opts f) <=? countSegmentsInM3U8 text) eqn:E;
      [apply Z.leb_le in E; lia|].
    eexists. split; [reflexivity|].
    split; [apply setHlsBadge_token|].
    destruct (setHlsBadge_rest wait (Progress (countSegmentsInM3U8 text)
                                       (minSegments (opts f))) g)
      as (K1 & _ & _ & K4 & K5 & K6).
    repeat split; assumption. }
  destruct Hstep as (g1 & E1 & T1 & R1).
  exists g1. cbn [resume]. rewrite E1. cbn [continue_wait].
  split; [reflexivity|]. split; [|split; [exact T1 | exact R1]].
  unfold wait_loop_head.
  destruct (t_timer - startTime f <? timeoutMs (opts f)) eqn:E;
    [| apply Z.ltb_ge in E; lia].
  rewrite T1, <- Htok, Z.eqb_refl. reflexivity.
Qed.

(** X25: however many polls come back without enough segments, a handler
    that holds the current token and whose time budget is not spent keeps
    waiting: after the rounds it is suspended on its next playlist request,
    nothing has been logged, and the token and the player are as before. *)
Theorem polling_keeps_waiting
    (br : Browser) (k : Caller) (f : WaitFrame)
    (rounds : list (Fetched jsstring * Z * Z)) (u : BustedUrl) (g : Page) :
  token f = startToken g ->
  Forall (fun round => not_enough f (fst (fst round))
                       /\ snd round - startTime f < timeoutMs (opts f)) rounds ->
  exists g' u',
    poll_rounds br rounds (g, Waiting k f (AtFetch u))
    = (g', Waiting k f (AtFetch u'))
    /\ startToken g' = startToken g /\ logLines g' = logLines g
    /\ hls g' = hls g /\ videoSrc g' = videoSrc g /\ videoPlaying g' = videoPlaying g.
Proof.
  intros Htok Hall. revert u g Htok.
  induction Hall as [|[[r t_text] t_timer] rest [Hr Hb] _ IH]; intros u g Htok.
  - exists g, u. repeat split.
  - cbn [fst snd] in Hr, Hb.
    destruct (poll_round_keeps_waiting br k f u g r t_text t_timer Htok Hr Hb)
      as (g1 & E1 & E2 & T1 & L1 & P1 & P2 & P3).
    cbn [poll_rounds fst snd]. rewrite E1, E2.
    destruct (IH {| base := hlsUrl f; stamp := t_timer |} g1) as
      (g' & u' & E & T & L & Q1 & Q2 & Q3); [congruence|].
    exists g', u'. split; [exact E|]. repeat split; congruence.
Qed.

Lemma two_polls_with_one_segment :
  let f := {| hlsUrl := Some "/hls/a.m3u8"%string; token := 1;
              opts := callerWaitOptions; startTime := 1000 |} in
  let u := {| base := Some "/hls/a.m3u8"%string; stamp := 1000 |} in
  let g := fst Scenario.started in
  let rounds := [ (Response false [], 1010, 1510);
                  (Response true (units "seg1.ts"), 1520, 2020) ] in
  token f = startToken g
  /\ Forall (fun round => not_enough f (fst (fst round))
                          /\ snd round - startTime f < timeoutMs (opts f)) rounds
  /\ exists g' u',
       poll_rounds Scenario.br rounds (g, Waiting FromStart f (AtFetch u))
       = (g', Waiting FromStart f (AtFetch u'))
       /\ videoPlaying g' = videoPlaying g.
Proof.
  intros f u g rounds.
  assert (H1 : token f = startToken g) by reflexivity.
  assert (H2 : Forall (fun round => not_enough f (fst (fst round))
                          /\ snd round - startTime f < timeoutMs (opts f)) rounds).
  { constructor; [|constructor; [|constructor]]; cbn [fst snd]; split.
    - left. reflexivity.
    - vm_compute. reflexivity.
    - right. right. vm_compute. reflexivity.
    - vm_compute. reflexivity. }
  split; [exact H1|]. split; [exact H2|].
  destruct (polling_keeps_waiting Scenario.br FromStart f rounds u g H1 H2)
    as (g' & u' & E & _ & _ & _ & _ & P).
  exists g', u'. split; [exact E | exact P].
Defined.

(** ** Start, stop, reload *)

Lemma trim_blank (v : jsstring) :
  Forall (fun c => is_space c = true) v -> trim v = [].
Proof.
  intros H. unfold trim, trimEnd.
  assert (E : trimStart v = []).
  { induction H as [|c rest Hc _ IH]; [reflexivity|]. cbn [trimStart]. rewrite Hc. exact IH. }
  rewrite E. reflexivity.
Qed.

(** X7: a Start whose input is empty or made of white space only sends no
    request and leaves the page as it is. *)
Theorem start_ignores_blank_input (inputValue : jsstring) (g : Page) :
  Forall (fun c => is_space c = true) inputValue ->
  startPipeline inputValue g = (g, Settled).
Proof.
  intros H. unfold startPipeline. rewrite (trim_blank _ H). reflexivity.
Qed.

Lemma blank_input_sends_nothing :
  Forall (fun c => is_space c = true) [32; 9; 160; 32]%N
  /\ startPipeline [32; 9; 160; 32]%N Scenario.page0 = (Scenario.page0, Settled).
Proof.
  assert (H : Forall (fun c => is_space c = true) [32; 9; 160; 32]%N)
    by (repeat constructor).
  split; [exact H | exact (start_ignores_blank_input _ Scenario.page0 H)].
Defined.





End ControllerMore.

Section EventLoop.
Import Js Stream.

Lemma nth_error_set_task ts i t j :
  nth_error (set_task ts i t) j
  = if Nat.eqb j i
    then match nth_error ts i with Some _ => Some t | None => None end
    else nth_error ts j.
Proof.
  revert i j. induction ts as [|u rest IH]; intros i j.
  - cbn [set_task]. destruct (Nat.eqb j i); destruct i, j; reflexivity.
  - destruct i as [|i], j as [|j]; cbn [set_task nth_error Nat.eqb]; try reflexivity.
    apply IH.
Qed.

Lemma continue_wait_held k br now f gs :
  held_token (snd (continue_wait k br now f gs)) = Some (token f)
  \/ held_token (snd (continue_wait k br now f gs)) = None.
Proof.
  destruct gs as [g [p|r|e]]; cbn [continue_wait snd held_token]; auto.
  destruct k; cbn; auto.
Qed.

Lemma stopPlayer_token reason g : startToken (stopPlayer reason g) = startToken g.
Proof. unfold stopPlayer. cbn. apply setHlsBadge_token. Qed.

(** What one resumption does to the token and to the token its handler
    holds: either the page token stays and the handler keeps or drops its
    token, or the page token moves by one and the handler, which held none,
    takes the new one or none. *)
Lemma resume_tokens br now w t g :
  let g' := fst (resume br now w t g) in
  let t' := snd (resume br now w t g) in
  (startToken g' = startToken g
   /\ (held_token t' = held_token t \/ held_token t' = None))
  \/ (startToken g' = startToken g + 1 /\ held_token t = None
      /\ (held_token t' = Some (startToken g + 1) \/ held_token t' = None)).
Proof.
  cbn zeta.
  assert (Hsame : forall k f gs,
            startToken (fst gs) = startToken g ->
            startToken (fst (continue_wait k br now f gs)) = startToken g
            /\ (held_token (snd (continue_wait k br now f gs)) = Some (token f)
                \/ held_token (snd (continue_wait k br now f gs)) = None)).
  { intros k f gs H. split; [rewrite continue_wait_token; exact H|].
    apply continue_wait_held. }
  destruct t as [url| |tok|k f [u|ms]| |e]; destruct w as [r|r|];
    cbn [resume fst snd held_token]; try (left; split; [reflexivity | auto]; fail).
  - (* start, response *)
    pose proof (start_on_response_token br now r g) as Htok.
    destruct r as [|ok [d|]].
    { left. split; [exact Htok | right; reflexivity]. }
    2:{ left. split; [destruct ok; exact Htok | right; destruct ok; reflexivity]. }
    destruct ok.
    + right. split; [exact Htok|]. split; [reflexivity|].
      unfold start_on_response. cbn [fetchJson negb].
      destruct d as [|o]; [right; reflexivity|].
      unfold waitForHlsReady.
      match goal with
      | |- context [continue_wait ?k ?b ?n ?f ?gs] =>
          destruct (continue_wait_held k b n f gs) as [H|H]; rewrite H
      end; [left | right; reflexivity].
      cbn [token bumpToken with_token with_status startToken appendLog with_logs].
      reflexivity.
    + left. split; [exact Htok|]. right.
      unfold start_on_response. cbn [fetchJson negb]. destruct d; reflexivity.
  - (* stop, response *)
    left. unfold stop_on_response.
    destruct (fetchJson r) as [e|[ok d]]; cbn [fst snd held_token].
    + split; [reflexivity | auto].
    + split; [rewrite stopPlayer_token; reflexivity | auto].
  - (* reload, status *)
    left. unfold reload_on_status.
    destruct (fetchJson r) as [e|[ok st]].
    + cbn [handler_catch fst snd held_token]. rewrite setHlsBadge_token.
      split; [reflexivity | auto].
    + destruct (lacks_hls_url st).
      * cbn [fst snd held_token]. rewrite setHlsBadge_token. split; [reflexivity | auto].
      * unfold waitForHlsReady.
        match goal with
        | |- context [continue_wait ?k ?b ?n ?f ?gs] =>
            destruct (Hsame k f gs) as [H1 H2]
        end.
        { rewrite wait_loop_head_token, setHlsBadge_token. reflexivity. }
        split; [exact H1|]. cbn [token] in H2. destruct H2 as [H2|H2]; auto.
  - (* wait, playlist text *)
    left.
    destruct (Hsame k f (wait_on_text r f g)) as [H1 H2];
      [apply wait_on_text_token|].
    split; [exact H1 | exact H2].
  - (* wait, timer *)
    left.
    destruct (Hsame k f (wait_loop_head now f g)) as [H1 H2];
      [apply wait_loop_head_token|].
    split; [exact H1 | exact H2].
Qed.

Lemma tokens_ok_replace g g' ts i t t' :
  tokens_ok {| page := g; tasks := ts |} ->
  nth_error ts i = Some t ->
  startToken g <= startToken g' ->
  (held_token t' = held_token t \/ held_token t' = None
   \/ (held_token t' = Some (startToken g') /\ startToken g < startToken g')) ->
  tokens_ok {| page := g'; tasks := set_task ts i t' |}.
Proof.
  intros [Hle Huniq] Hi Hmono Hheld. cbn [page tasks] in *.
  assert (Hnew : forall z, held_token t' = Some z ->
            z <= startToken g'
            /\ (held_token t = Some z \/ (z = startToken g' /\ startToken g < z))).
  { intros z Hz. destruct Hheld as [H|[H|[H Hlt]]].
    - rewrite H in Hz. split; [|left; exact Hz].
      pose proof (Hle i t z Hi Hz). lia.
    - congruence.
    - rewrite H in Hz. injection Hz as <-. split; [lia | right; split; [reflexivity | exact Hlt]]. }
  split; cbn [page tasks].
  - intros j u z Hj Hz. rewrite nth_error_set_task in Hj.
    destruct (Nat.eqb j i) eqn:E.
    + rewrite Hi in Hj. injection Hj as <-. apply Hnew. exact Hz.
    + pose proof (Hle j u z Hj Hz). lia.
  - intros j1 j2 u1 u2 z H1 H2 Hz1 Hz2. rewrite nth_error_set_task in H1, H2.
    destruct (Nat.eqb j1 i) eqn:E1, (Nat.eqb j2 i) eqn:E2.
    + apply Nat.eqb_eq in E1, E2. congruence.
    + apply Nat.eqb_eq in E1. subst j1. rewrite Hi in H1. injection H1 as <-.
      destruct (Hnew z Hz1) as [_ [Hold|[Hz Hgt]]].
      * apply (Huniq i j2 t u2 z); assumption.
      * pose proof (Hle j2 u2 z H2 Hz2). lia.
    + apply Nat.eqb_eq in E2. subst j2. rewrite Hi in H2. injection H2 as <-.
      destruct (Hnew z Hz2) as [_ [Hold|[Hz Hgt]]].
      * apply (Huniq j1 i u1 t z); assumption.
      * pose proof (Hle j1 u1 z H1 Hz1). lia.
    + apply (Huniq j1 j2 u1 u2 z); assumption.
Qed.

Lemma tokens_ok_add g g' ts t' :
  tokens_ok {| page := g; tasks := ts |} ->
  startToken g <= startToken g' ->
  (held_token t' = None
   \/ (held_token t' = Some (startToken g') /\ startToken g < startToken g')) ->
  tokens_ok {| page := g'; tasks := ts ++ [t'] |}.
Proof.
  intros [Hle Huniq] Hmono Hheld. cbn [page tasks] in *.
  assert (Hlook : forall j u, nth_error (ts ++ [t']) j = Some u ->
            (j < List.length ts)%nat /\ nth_error ts j = Some u
            \/ j = List.length ts /\ u = t').
  { intros j u Hj. destruct (Nat.lt_ge_cases j (List.length ts)) as [L|G].
    - left. rewrite nth_error_app1 in Hj by exact L. auto.
    - right. rewrite nth_error_app2 in Hj by exact G.
      destruct (j - List.length ts)%nat as [|m] eqn:E; cbn [nth_error] in Hj.
      + injection Hj as <-. split; [lia | reflexivity].
      + destruct m; discriminate. }
  assert (Hnew : forall z, held_token t' = Some z -> z = startToken g' /\ startToken g < z).
  { intros z Hz. destruct Hheld as [H|[H Hlt]]; [congruence|].
    rewrite H in Hz. injection Hz as <-. auto. }
  split; cbn [page tasks].
  - intros j u z Hj Hz. destruct (Hlook j u Hj) as [[_ Hold]|[_ ->]].
    + pose proof (Hle j u z Hold Hz). lia.
    + destruct (Hnew z Hz). lia.
  - intros j1 j2 u1 u2 z H1 H2 Hz1 Hz2.
    destruct (Hlook j1 u1 H1) as [[L1 O1]|[E1 ->]], (Hlook j2 u2 H2) as [[L2 O2]|[E2 ->]].
    + apply (Huniq j1 j2 u1 u2 z); assumption.
    + pose proof (Hle j1 u1 z O1 Hz1). destruct (Hnew z Hz2). lia.
    + pose proof (Hle j2 u2 z O2 Hz2). destruct (Hnew z Hz1). lia.
    + lia.
Qed.

Lemma tokens_ok_same_tasks g g' ts :
  tokens_ok {| page := g; tasks := ts |} ->
  startToken g <= startToken g' ->
  tokens_ok {| page := g'; tasks := ts |}.
Proof.
  intros [Hle Huniq] Hmono. split; cbn [page tasks] in *.
  - intros j u z Hj Hz. pose proof (Hle j u z Hj Hz). lia.
  - exact Huniq.
Qed.

Lemma pollStatus_token r g : startToken (pollStatus_on_response r g) = startToken g.
Proof. unfold pollStatus_on_response. destruct (fetchJson r) as [e|[ok d]]; reflexivity. Qed.

Lemma act_tokens_ok br a s : tokens_ok s -> tokens_ok (act br a s).
Proof.
  intros Hok. destruct s as [g ts]. destruct a as [v| | | |r|i now w]; cbn [act page tasks].
  - unfold startPipeline. destruct (negb (truthy (trim v)));
      apply (tokens_ok_add g g ts); auto; lia.
  - unfold stopPipeline. apply (tokens_ok_add g); auto.
    rewrite setHlsBadge_token. cbn. lia.
  - unfold reloadClick. apply (tokens_ok_add g); auto.
    + rewrite stopPlayer_token. cbn. lia.
    + right. rewrite stopPlayer_token. cbn. split; [reflexivity | lia].
  - apply (tokens_ok_same_tasks g); auto. rewrite stopPlayer_token. lia.
  - apply (tokens_ok_same_tasks g); auto. rewrite pollStatus_token. lia.
  - destruct (nth_error ts i) as [t|] eqn:Hi; [|exact Hok].
    pose proof (resume_tokens br now w t g) as H. cbn zeta in H.
    destruct (resume br now w t g) as [g' t']. cbn [fst snd] in H.
    apply (tokens_ok_replace g g' ts i t t' Hok Hi).
    + destruct H as [[H _]|[H _]]; lia.
    + destruct H as [[H1 [H2|H2]]|[H1 [H2 [H3|H3]]]]; auto.
      right. right. rewrite H3, H1. split; [reflexivity | lia].
Qed.

(** X10: whatever the user clicks and whenever requests and timers
    complete, the handlers started on a page hold pairwise distinct
    generation tokens, none beyond the page's: at most one of them holds the
    current token. *)
Theorem at_most_one_handler_holds_current_token
    (br : Browser) (g : Page) (actions : list Action) :
  let s := deliver br actions {| page := g; tasks := [] |} in
  tokens_ok s
  /\ forall i j ti tj,
       nth_error (tasks s) i = Some ti -> nth_error (tasks s) j = Some tj ->
       held_token ti = Some (startToken (page s)) ->
       held_token tj = Some (startToken (page s)) -> i = j.
Proof.
  cbn zeta.
  assert (H : tokens_ok (deliver br actions {| page := g; tasks := [] |})).
  { unfold deliver.
    assert (H0 : tokens_ok {| page := g; tasks := [] |}).
    { split; cbn [tasks]; intros; destruct i; discriminate. }
    revert H0. generalize {| page := g; tasks := [] |}.
    induction actions as [|a rest IH]; intros s Hs; [exact Hs|].
    cbn [fold_left]. apply IH. apply act_tokens_ok. exact Hs. }
  split; [exact H|].
  intros i j ti tj Hi Hj Hti Htj. destruct H as [_ Huniq].
  exact (Huniq i j ti tj _ Hi Hj Hti Htj).
Qed.

(** Two handlers in flight: a start that waits with token 1 and a reload
    that holds token 2, the current one. *)
Example two_handlers_in_flight :
  let s := deliver Scenario.br
             [ClickStart (units "rtsp://a");
              Wake 0 1000 (ResponseArrived (Response true (Some Scenario.status_a)));
              ClickReload]
             {| page := Scenario.page0; tasks := [] |} in
  map held_token (tasks s) = [Some 1; Some 2] /\ startToken (page s) = 2.
Proof. split; vm_compute; reflexivity. Qed.

(** X11: no delivery makes the generation token smaller, and none moves
    it by more than one. *)
Theorem token_never_decreases (br : Browser) (a : Action) (s : System) :
  startToken (page s) <= startToken (page (act br a s)) <= startToken (page s) + 1.
Proof.
  destruct s as [g ts]. destruct a as [v| | | |r|i now w]; cbn [act page tasks].
  - unfold startPipeline. destruct (negb (truthy (trim v))); cbn [page]; lia.
  - cbn [stopPipeline page]. rewrite setHlsBadge_token. cbn. lia.
  - cbn [reloadClick page]. rewrite stopPlayer_token. cbn. lia.
  - rewrite stopPlayer_token. lia.
  - rewrite pollStatus_token. lia.
  - destruct (nth_error ts i) as [t|]; [|cbn [page]; lia].
    pose proof (resume_tokens br now w t g) as H. cbn zeta in H.
    destruct (resume br now w t g) as [g' t']. cbn [fst snd page] in *.
    destruct H as [[H _]|[H _]]; lia.
Qed.

End EventLoop.

(* ================================================================== *)
(** * Further properties of video.js                                    *)
(* ================================================================== *)

Section NearestMore.
Import Num Video.
Context {Nt : NumberType} {N : Number}.

(** The search loop ends within its bounds whatever the order of the
    entries. *)
Lemma search_loop_range tl tq :
  Z.of_nat (List.length tl) <= 2 ^ 30 ->
  forall fuel lo hi,
    0 <= lo -> hi < Z.of_nat (List.length tl) -> lo <= hi + 1 ->
    hi - lo + 1 <= Z.of_nat fuel ->
    exists lo', search_loop fuel tl tq lo hi = Done (lo', lo' - 1)
                /\ lo <= lo' <= hi + 1.
Proof.
  intros Hn. induction fuel as [|fuel IH]; intros lo hi Hlo Hhi Hle Hfuel.
  - cbn [search_loop]. destruct (lo <=? hi) eqn:E; [apply Z.leb_le in E; lia|].
    apply Z.leb_gt in E. exists lo. replace (lo - 1) with hi by lia. split; [reflexivity | lia].
  - cbn [search_loop]. destruct (lo <=? hi) eqn:E.
    + apply Z.leb_le in E. rewrite sar1_half by lia.
      assert (Hmid : lo <= (lo + hi) / 2 <= hi).
      { split; [apply Z.div_le_lower_bound | apply Z.div_le_upper_bound]; lia. }
      destruct (at_index_inrange tl ((lo + hi) / 2)) as [e He]; [lia|].
      rewrite He. destruct (t e <? tq)%num.
      * destruct (IH ((lo + hi) / 2 + 1) hi) as (lo' & E' & R); try lia.
        exists lo'. split; [exact E' | lia].
      * destruct (IH lo ((lo + hi) / 2 - 1)) as (lo' & E' & R); try lia.
        exists lo'. split; [exact E' | lia].
    + apply Z.leb_gt in E. exists lo. replace (lo - 1) with hi by lia.
      split; [reflexivity | lia].
Qed.

Lemma findNearestIndex_done (tl : list TimelineEntry) (tq : num) :
  Z.of_nat (List.length tl) <= 2 ^ 30 -> tl <> [] ->
  exists r, findNearestIndex tl tq = Done r /\ 0 <= r < Z.of_nat (List.length tl).
Proof.
  intros Hn Hne.
  assert (Hlen : 0 < Z.of_nat (List.length tl)).
  { destruct tl; [congruence | cbn [List.length]; lia]. }
  unfold findNearestIndex.
  destruct (Z.of_nat (List.length tl) =? 0) eqn:E0; [apply Z.eqb_eq in E0; lia|].
  destruct (search_loop_range tl tq Hn (S (List.length tl)) 0
              (Z.of_nat (List.length tl) - 1)) as (lo & Hrun & Hr); try lia.
  rewrite Hrun.
  destruct (lo - 1 <? 0) eqn:Ehi; [exists 0; split; [reflexivity | lia]|].
  apply Z.ltb_ge in Ehi.
  destruct (Z.of_nat (List.length tl) <=? lo) eqn:Elo;
    [exists (Z.of_nat (List.length tl) - 1); split; [reflexivity | lia]|].
  apply Z.leb_gt in Elo.
  destruct (at_index_inrange tl (lo - 1)) as [eh Hh]; [lia|].
  destruct (at_index_inrange tl lo) as [el Hl]; [lia|].
  rewrite Hh, Hl.
  destruct (tq - t eh <=? t el - tq)%num;
    [exists (lo - 1) | exists lo]; split; try reflexivity; lia.
Qed.

(** X12: on any timeline of at most 2^30 entries, sorted or not,
    [findNearestIndex] returns without throwing: -1 when the timeline is
    empty, otherwise an index of the timeline. *)
Theorem findNearestIndex_in_range (timeline : list TimelineEntry) (tq : num) :
  Z.of_nat (List.length timeline) <= 2 ^ 30 ->
  exists r,
    findNearestIndex timeline tq = Done r
    /\ (timeline = [] -> r = -1)
    /\ (timeline <> [] -> 0 <= r < Z.of_nat (List.length timeline)).
Proof.
  intros Hn. destruct timeline as [|e0 rest] eqn:Etl.
  - exists (-1). split; [reflexivity|]. split; [reflexivity | congruence].
  - rewrite <- Etl in *.
    assert (Hne : timeline <> []) by (rewrite Etl; discriminate).
    destruct (findNearestIndex_done timeline tq Hn Hne) as (r & F & R).
    exists r. split; [exact F|]. split; [intros H; contradiction | intros _; exact R].
Qed.

End NearestMore.

Section NearestMoreExact.
Import Num Video.
#[local] Existing Instance rationals.
#[local] Existing Instance exact.

Lemma nearest_in_unsorted_timeline :
  let tl := [Scenario.entry 5 0; Scenario.entry 1 0; Scenario.entry 3 0] in
  Z.of_nat (List.length tl) <= 2 ^ 30
  /\ exists r,
       findNearestIndex tl 2%Q = Done r
       /\ (tl = [] -> r = -1)
       /\ (tl <> [] -> 0 <= r < Z.of_nat (List.length tl)).
Proof.
  intros tl.
  assert (Hn : Z.of_nat (List.length tl) <= 2 ^ 30) by (vm_compute; discriminate).
  split; [exact Hn | exact (findNearestIndex_in_range tl 2%Q Hn)].
Defined.

(** Where the search stops, and what is returned from there. *)
Lemma findNearestIndex_split tl tq :
  sorted_by_t tl -> Z.of_nat (List.length tl) <= 2 ^ 30 -> tl <> [] ->
  exists lo r,
    findNearestIndex tl tq = Done r
    /\ 0 <= lo <= Z.of_nat (List.length tl)
    /\ ((forall j ej, at_index tl j = Some ej -> j < lo -> (t ej < tq)%Q)
        /\ (forall j ej, at_index tl j = Some ej -> lo - 1 < j -> (tq <= t ej)%Q))
    /\ ((lo = 0 /\ r = 0)
        \/ (lo = Z.of_nat (List.length tl) /\ r = lo - 1)
        \/ (0 < lo < Z.of_nat (List.length tl)
            /\ exists eh el,
                 at_index tl (lo - 1) = Some eh /\ at_index tl lo = Some el
                 /\ (((tq - t eh <= t el - tq)%Q /\ r = lo - 1)
                     \/ ((t el - tq < tq - t eh)%Q /\ r = lo)))).
Proof.
  intros Hs Hn Hne.
  assert (Hlen : 0 < Z.of_nat (List.length tl)).
  { destruct tl; [congruence | cbn [List.length]; lia]. }
  destruct (findNearestIndex_between exact_order tl tq Hs Hn Hne)
    as (lo & r & F & R & [Bl Br] & C0 & Cn & Cm).
  exists lo, r. split; [exact F|]. split; [exact R|]. split.
  { split; intros j ej Hj Hc.
    - apply Qltb_true. exact (Bl j ej Hj Hc).
    - apply Qltb_false. exact (Br j ej Hj Hc). }
  destruct (Z.eq_dec lo 0) as [H0|H0]; [left; split; [exact H0 | exact (C0 H0)]|].
  destruct (Z.eq_dec lo (Z.of_nat (List.length tl))) as [H1|H1];
    [right; left; split; [exact H1 | exact (Cn H1)]|].
  right; right. split; [lia|].
  destruct Cm as (eh & el & Hh & Hl & Hr); [lia|].
  exists eh, el. split; [exact Hh|]. split; [exact Hl|].
  cbn [leb sub exact] in Hr.
  destruct (Qle_bool (tq - t eh) (t el - tq)) eqn:C.
  - left. split; [apply Qle_bool_iff; exact C | exact Hr].
  - right. split; [|exact Hr].
    apply Qnot_le_lt. intros H. apply Qle_bool_iff in H. congruence.
Qed.

(** X13: on a sorted timeline the index found never goes back when the
    query advances. *)
Theorem findNearestIndex_monotone
    (timeline : list TimelineEntry) (tq1 tq2 : Q) (r1 r2 : Z) :
  sorted_by_t timeline ->
  Z.of_nat (List.length timeline) <= 2 ^ 30 ->
  (tq1 <= tq2)%Q ->
  findNearestIndex timeline tq1 = Done r1 ->
  findNearestIndex timeline tq2 = Done r2 ->
  r1 <= r2.
Proof.
  intros Hs Hn Hq E1 E2.
  destruct timeline as [|e0 rest] eqn:Etl.
  { cbn in E1, E2. injection E1 as <-. injection E2 as <-. lia. }
  rewrite <- Etl in *. assert (Hne : timeline <> []) by (rewrite Etl; discriminate).
  clear Etl.
  destruct (findNearestIndex_split timeline tq1 Hs Hn Hne)
    as (lo1 & r1' & F1 & R1 & [B1l B1r] & C1).
  destruct (findNearestIndex_split timeline tq2 Hs Hn Hne)
    as (lo2 & r2' & F2 & R2 & [B2l B2r] & C2).
  rewrite F1 in E1. rewrite F2 in E2. injection E1 as ->. injection E2 as ->.
  assert (Hpos : 0 < Z.of_nat (List.length timeline)).
  { destruct timeline; [congruence | cbn [List.length]; lia]. }
  set (n := Z.of_nat (List.length timeline)) in *.
  assert (Hlo : lo1 <= lo2).
  { destruct (Z_le_gt_dec lo1 lo2) as [L|G]; [exact L|].
    destruct (at_index_inrange timeline lo2) as [e He]; [fold n; lia|].
    assert (t e < tq1)%Q by (apply (B1l lo2 e He); lia).
    assert (tq2 <= t e)%Q by (apply (B2r lo2 e He); lia).
    lra. }
  assert (Hr1 : r1 <= lo1 /\ (lo1 = n -> r1 = n - 1)).
  { destruct C1 as [[? ?]|[[? ?]|(? & eh & el & _ & _ & [[_ ?]|[_ ?]])]]; lia. }
  assert (Hr2 : lo2 - 1 <= r2 /\ 0 <= r2).
  { destruct C2 as [[? ?]|[[? ?]|(? & eh & el & _ & _ & [[_ ?]|[_ ?]])]]; lia. }
  destruct (Z.eq_dec lo1 lo2) as [Heq|Hneq]; [|lia].
  subst lo2.
  destruct C1 as [[? ?]|[[? ?]|(? & eh & el & Hh & Hl & D1)]]; try lia.
  destruct C2 as [[? ?]|[[? ?]|(? & eh' & el' & Hh' & Hl' & D2)]]; try lia.
  rewrite Hh in Hh'. rewrite Hl in Hl'. injection Hh' as <-. injection Hl' as <-.
  destruct D1 as [[_ ->]|[D1 ->]]; destruct D2 as [[D2 ->]|[_ ->]]; try lia.
  lra.
Qed.

Lemma nearest_advances_with_query :
  sorted_by_t Scenario.three_entries
  /\ Z.of_nat (List.length Scenario.three_entries) <= 2 ^ 30
  /\ ((1 # 4) <= (3 # 10))%Q
  /\ findNearestIndex Scenario.three_entries (1 # 4) = Done 0
  /\ findNearestIndex Scenario.three_entries (3 # 10) = Done 1
  /\ 0 <= 1.
Proof.
  assert (Hs : sorted_by_t Scenario.three_entries) by exact three_entries_sorted.
  assert (Hn : Z.of_nat (List.length Scenario.three_entries) <= 2 ^ 30)
    by (vm_compute; discriminate).
  assert (Hq : ((1 # 4) <= (3 # 10))%Q) by (vm_compute; discriminate).
  assert (E1 : findNearestIndex Scenario.three_entries (1 # 4) = Done 0)
    by (vm_compute; reflexivity).
  assert (E2 : findNearestIndex Scenario.three_entries (3 # 10) = Done 1)
    by (vm_compute; reflexivity).
  split; [exact Hs|]. split; [exact Hn|]. split; [exact Hq|].
  split; [exact E1|]. split; [exact E2|].
  exact (findNearestIndex_monotone _ _ _ _ _ Hs Hn Hq E1 E2).
Defined.

(** X14: on a sorted timeline, a query equal to the time of some entry
    returns the first entry with that time. *)
Theorem findNearestIndex_exact_hit
    (timeline : list TimelineEntry) (tq : Q) (i : Z) (e : TimelineEntry) :
  sorted_by_t timeline ->
  Z.of_nat (List.length timeline) <= 2 ^ 30 ->
  at_index timeline i = Some e -> (t e == tq)%Q ->
  exists r er,
    findNearestIndex timeline tq = Done r
    /\ at_index timeline r = Some er /\ (t er == tq)%Q
    /\ r <= i
    /\ (forall j ej, at_index timeline j = Some ej -> j < r -> (t ej < tq)%Q).
Proof.
  intros Hs Hn Hi Heq.
  pose proof (at_index_Some _ _ _ Hi) as Ri.
  assert (Hne : timeline <> []).
  { intros ->. cbn [List.length] in Ri. lia. }
  destruct (findNearestIndex_split timeline tq Hs Hn Hne)
    as (lo & r & F & R & [Bl Br] & C).
  assert (Hlo : lo <= i).
  { destruct (Z_le_gt_dec lo i) as [L|G]; [exact L|].
    assert (t e < tq)%Q by (apply (Bl i e Hi); lia). lra. }
  destruct (at_index_inrange timeline lo) as [el Hl]; [lia|].
  assert (Hel : (t el == tq)%Q).
  { assert (tq <= t el)%Q by (apply (Br lo el Hl); lia).
    assert (t el <= t e)%Q by (apply (sorted_at_index timeline lo i el e Hs); trivial).
    lra. }
  assert (Hr : r = lo).
  { destruct C as [[? ?]|[[? ?]|(? & eh & el' & Hh & Hl' & [[D ?]|[_ ?]])]]; try lia.
    rewrite Hl in Hl'. injection Hl' as <-.
    assert (t eh < tq)%Q by (apply (Bl (lo - 1) eh Hh); lia). lra. }
  subst r. exists lo, el. repeat split; trivial.
Qed.

Lemma nearest_of_repeated_time :
  let tl := [Scenario.entry 0 0; Scenario.entry 1 0; Scenario.entry 1 0; Scenario.entry 2 0] in
  sorted_by_t tl
  /\ Z.of_nat (List.length tl) <= 2 ^ 30
  /\ at_index tl 2 = Some (Scenario.entry 1 0)
  /\ exists r er,
       findNearestIndex tl 1%Q = Done r
       /\ at_index tl r = Some er /\ (t er == 1)%Q
       /\ r <= 2
       /\ (forall j ej, at_index tl j = Some ej -> j < r -> (t ej < 1)%Q).
Proof.
  intros tl.
  assert (Hs : sorted_by_t tl) by (repeat constructor).
  assert (Hn : Z.of_nat (List.length tl) <= 2 ^ 30) by (vm_compute; discriminate).
  assert (Hi : at_index tl 2 = Some (Scenario.entry 1 0)) by reflexivity.
  split; [exact Hs|]. split; [exact Hn|]. split; [exact Hi|].
  apply (findNearestIndex_exact_hit tl 1%Q 2 (Scenario.entry 1 0) Hs Hn Hi).
  reflexivity.
Defined.

End NearestMoreExact.

Section OverlayChip.
Import Num Video.
#[local] Existing Instance rationals.
#[local] Existing Instance exact.

(** ** The label chip *)

Lemma Qmaxb_zero_nonneg (a : Q) : (0 <= Qmaxb 0 a)%Q.
Proof.
  unfold Qmaxb. destruct (Qle_bool 0 a) eqn:E; [apply Qle_bool_iff in E; exact E | lra].
Qed.

Lemma Qmaxb_zero_le (a c : Q) : (0 <= c -> a <= c -> Qmaxb 0 a <= c)%Q.
Proof. unfold Qmaxb. destruct (Qle_bool 0 a); trivial. Qed.

Lemma Qminb_le_l (a b : Q) : (Qminb a b <= a)%Q.
Proof.
  unfold Qminb. destruct (Qle_bool a b) eqn:E; [lra|].
  assert (~ (a <= b)%Q) by (intros H; apply Qle_bool_iff in H; congruence).
  apply Qnot_le_lt in H. lra.
Qed.


End OverlayChip.

Section OverlayMore.
Import Num Video.
Context {Nt : NumberType} {N : Number}.

(** ** The overlay *)

Lemma drawBoxes_keeps v bs s :
  timeline (drawBoxes v bs s) = timeline s
  /\ lastIdx (drawBoxes v bs s) = lastIdx s
  /\ overlayVisible (drawBoxes v bs s) = overlayVisible s
  /\ detectDisabled (drawBoxes v bs s) = detectDisabled s
  /\ (overlayVisible s = false -> painted (canvas (drawBoxes v bs s)) = []).
Proof.
  unfold drawBoxes. destruct (overlayVisible s) eqn:V; cbn [negb].
  - destruct ((videoWidth v =? 0) || (videoHeight v =? 0));
      repeat split; trivial; discriminate.
  - repeat split; trivial.
Qed.

Lemma search_loop_nonneg tl tq fuel :
  forall lo hi lo' hi',
    0 <= lo -> search_loop fuel tl tq lo hi = Done (lo', hi') -> 0 <= lo'.
Proof.
  induction fuel as [|fuel IH]; intros lo hi lo' hi' Hlo; cbn [search_loop].
  - destruct (lo <=? hi); [discriminate|]. intros H. injection H as <- <-. exact Hlo.
  - destruct (lo <=? hi); [| intros H; injection H as <- <-; exact Hlo].
    destruct (at_index tl (sar1 (lo + hi))) as [e|] eqn:He; [|discriminate].
    apply at_index_Some in He.
    destruct (t e <? tq)%num; intros H.
    + apply (IH (sar1 (lo + hi) + 1) hi lo' hi'); [lia | exact H].
    + apply (IH _ _ _ _ Hlo H).
Qed.

(** On a timeline that is not empty the index returned is never the
    "none" index. *)
Lemma findNearestIndex_nonneg tl tq r :
  tl <> [] -> findNearestIndex tl tq = Done r -> 0 <= r.
Proof.
  intros Hne. unfold findNearestIndex.
  assert (Hlen : 0 < Z.of_nat (List.length tl)).
  { destruct tl; [congruence | cbn [List.length]; lia]. }
  destruct (Z.of_nat (List.length tl) =? 0) eqn:E0; [apply Z.eqb_eq in E0; lia|].
  destruct (search_loop (S (List.length tl)) tl tq 0 (Z.of_nat (List.length tl) - 1))
    as [[lo hi]| |] eqn:Hrun; try discriminate.
  pose proof (search_loop_nonneg _ _ _ _ _ _ _ (Z.le_refl 0) Hrun) as Hlo.
  destruct (hi <? 0) eqn:Ehi; [intros H; injection H as <-; lia|].
  apply Z.ltb_ge in Ehi.
  destruct (Z.of_nat (List.length tl) <=? lo); [intros H; injection H as <-; lia|].
  destruct (at_index tl hi), (at_index tl lo); try discriminate.
  destruct (_ <=? _)%num; intros H; injection H as <-; lia.
Qed.



Lemma update_keeps_timeline v b s s' :
  updateOverlayFromCurrentTime v b s = Normal s' ->
  timeline s' = timeline s /\ overlayVisible s' = overlayVisible s
  /\ detectDisabled s' = detectDisabled s.
Proof.
  unfold updateOverlayFromCurrentTime.
  destruct (timeline s) as [|e0 rest] eqn:Etl.
  - intros H. injection H as <-. repeat split. cbn. exact Etl.
  - rewrite <- Etl.
    destruct (findNearestIndex (timeline s) (currentTime v)) as [idx| |];
      try discriminate.
    destruct (idx <? 0); [intros H; injection H as <-; repeat split|].
    destruct (b && (idx =? lastIdx s)); [intros H; injection H as <-; repeat split|].
    destruct (at_index (timeline s) idx) as [item|]; [|discriminate].
    intros H. injection H as <-.
    match goal with
    | |- context [drawBoxes v ?bs ?s3] =>
        destruct (drawBoxes_keeps v bs s3) as (K1 & _ & K3 & K4 & _)
    end.
    rewrite K1, K3, K4. repeat split.
Qed.

(** A recompute with [onlyIfChanged = false] leaves the overlay blank when
    it must be, whatever was painted before. *)
Lemma update_forced_blank v s s' :
  updateOverlayFromCurrentTime v false s = Normal s' -> blank_unless_shown s'.
Proof.
  unfold updateOverlayFromCurrentTime, blank_unless_shown.
  destruct (timeline s) as [|e0 rest] eqn:Etl.
  - intros H. injection H as <-. intros _. reflexivity.
  - rewrite <- Etl.
    destruct (findNearestIndex (timeline s) (currentTime v)) as [idx| |] eqn:F;
      try discriminate.
    assert (Hne : timeline s <> []) by (rewrite Etl; discriminate).
    pose proof (findNearestIndex_nonneg _ _ _ Hne F) as Hidx.
    destruct (idx <? 0) eqn:Eneg; [apply Z.ltb_lt in Eneg; lia|].
    cbn [andb].
    destruct (at_index (timeline s) idx) as [item|]; [|discriminate].
    intros H. injection H as <-.
    match goal with
    | |- context [drawBoxes v ?bs ?s3] =>
        destruct (drawBoxes_keeps v bs s3) as (K1 & _ & K3 & _ & K5)
    end.
    cbn [timeline overlayVisible set_tText set_countText set_lastIdx] in K1, K3, K5.
    intros [Hempty | Hhidden].
    + rewrite K1 in Hempty. contradiction.
    + rewrite K3 in Hhidden. apply K5. exact Hhidden.
Qed.

Lemma update_tick_blank v s s' :
  updateOverlayFromCurrentTime v true s = Normal s' ->
  blank_unless_shown s -> blank_unless_shown s'.
Proof.
  unfold updateOverlayFromCurrentTime, blank_unless_shown.
  destruct (timeline s) as [|e0 rest] eqn:Etl.
  - intros H _. injection H as <-. intros _. reflexivity.
  - rewrite <- Etl.
    destruct (findNearestIndex (timeline s) (currentTime v)) as [idx| |];
      try discriminate.
    destruct (idx <? 0); [intros H Hs; injection H as <-; exact Hs|].
    destruct (true && (idx =? lastIdx s)); [intros H Hs; injection H as <-; exact Hs|].
    destruct (at_index (timeline s) idx) as [item|]; [|discriminate].
    intros H _. injection H as <-.
    match goal with
    | |- context [drawBoxes v ?bs ?s3] =>
        destruct (drawBoxes_keeps v bs s3) as (K1 & _ & K3 & _ & K5)
    end.
    cbn [timeline overlayVisible set_tText set_countText set_lastIdx] in K1, K3, K5.
    intros [Hempty | Hhidden].
    + rewrite K1, Etl in Hempty. discriminate.
    + rewrite K3 in Hhidden. apply K5. exact Hhidden.
Qed.

(** X17: every listener that returns keeps the overlay blank unless a
    timeline is loaded and the overlay is shown; hiding or showing the
    overlay does not touch the timeline. *)
Theorem overlay_blank_unless_shown (v : Viewport) (ev : Event) (s s' : Page) :
  handle v ev s = Normal s' ->
  blank_unless_shown s ->
  blank_unless_shown s'
  /\ (ev = ToggleOverlay ->
      timeline s' = timeline s /\ overlayVisible s' = negb (overlayVisible s)).
Proof.
  intros H Hs. split.
  - destruct ev; cbn [handle] in H.
    + exact (update_tick_blank v s s' H Hs).
    + exact (update_forced_blank v s s' H).
    + exact (update_forced_blank v s s' H).
    + exact (update_forced_blank v _ s' H).
    + exact (update_forced_blank v _ s' H).
    + exact (update_forced_blank v _ s' H).
    + injection H as <-. intros _. unfold on_fileChange. destruct f; reflexivity.
    + injection H as <-. intros _. reflexivity.
    + injection H as <-. unfold detectVideo. destruct (currentFile s); exact Hs.
    + unfold detect_on_response in H.
      destruct (detect_try v r s) as [s1|e s1|] eqn:T; try discriminate.
      * injection H as <-.
        assert (Hb : blank_unless_shown s1).
        { unfold detect_try in T. destruct r as [|ok body]; [discriminate|].
          destruct body; try discriminate;
            (destruct (negb ok); [discriminate|]);
            exact (update_forced_blank v _ s1 T). }
        exact Hb.
      * injection H as <-. intros _. reflexivity.
  - intros ->. cbn [handle] in H. unfold on_toggleOverlay in H.
    destruct (update_keeps_timeline v false _ s' H) as (K1 & K2 & _).
    rewrite K1, K2. split; reflexivity.
Qed.


(** ** A detection that succeeds *)

Lemma drawBoxes_texts v bs s :
  countText (drawBoxes v bs s) = countText s
  /\ statsText (drawBoxes v bs s) = statsText s
  /\ avgCount (drawBoxes v bs s) = avgCount s
  /\ maxCount (drawBoxes v bs s) = maxCount s.
Proof.
  unfold drawBoxes. destruct (negb (overlayVisible s)); [repeat split|].
  destruct ((videoWidth v =? 0) || (videoHeight v =? 0)); repeat split.
Qed.

(** X18: a success response replaces the timeline wholesale by the array
    of the response (by the empty timeline when there is none, and a body
    that is not JSON counts as an empty object), sets the average and the
    maximum, enables the button again, and shows the entry found for the
    current playback position: none on an empty timeline, otherwise an
    entry of the new timeline with its count. *)
Theorem successful_detection_replaces_timeline
    (v : Viewport) (d : DetectResponse) (s : Page) :
  let tl := match r_timeline d with Some tl => tl | None => [] end in
  Z.of_nat (List.length tl) <= 2 ^ 30 ->
  (exists s',
     detect_on_response v (Response true (Obj d)) s = Normal s'
     /\ timeline s' = tl
     /\ avgCount s' = or_zero (avg_count d) /\ maxCount s' = or_zero (max_count d)
     /\ statsText s' = StatsOf (or_zero (avg_count d)) (or_zero (max_count d))
     /\ detectDisabled s' = false
     /\ (tl = [] -> lastIdx s' = -1 /\ countText s' = CountDash
                    /\ painted (canvas s') = [])
     /\ (tl <> [] ->
         exists item,
           at_index tl (lastIdx s') = Some item
           /\ countText s' = match count item with
                             | Some c => CountOf c
                             | None => CountDash
                             end))
  /\ detect_on_response v (Response true NotJson) s
     = detect_on_response v (Response true (Obj emptyResponse)) s.
Proof.
  intros tl Hn.
  assert (Hdef : match r_timeline d with Some l => l | None => [] end = tl)
    by reflexivity.
  clearbody tl.
  unfold detect_on_response, detect_try. cbn [negb]. rewrite Hdef.
  set (s6 := set_debugText _ _).
  assert (Htl : timeline s6 = tl) by reflexivity.
  assert (Hrest : avgCount s6 = or_zero (avg_count d)
                  /\ maxCount s6 = or_zero (max_count d)
                  /\ statsText s6 = StatsOf (or_zero (avg_count d)) (or_zero (max_count d)))
    by (repeat split).
  destruct Hrest as (Ha & Hm & Hst).
  clearbody s6.
  split.
  2:{ reflexivity. }
  unfold updateOverlayFromCurrentTime. rewrite Htl.
  destruct tl as [|e0 rest] eqn:Etl.
  - eexists. split; [reflexivity|].
    cbn. rewrite Htl, Ha, Hm, Hst. repeat split; congruence.
  - rewrite <- Etl in *.
    assert (Hne : tl <> []) by (rewrite Etl; discriminate).
    destruct (findNearestIndex_done tl (currentTime v) Hn Hne) as (r & F & R).
    rewrite F.
    destruct (r <? 0) eqn:Eneg; [apply Z.ltb_lt in Eneg; lia|].
    cbn [andb].
    destruct (at_index_inrange tl r R) as [item Hitem]. rewrite Hitem.
    eexists. split; [reflexivity|].
    match goal with
    | |- context [drawBoxes v ?bs ?s3] =>
        destruct (drawBoxes_keeps v bs s3) as (K1 & K2 & _ & K4 & _);
        destruct (drawBoxes_texts v bs s3) as (T1 & T2 & T3 & T4)
    end.
    cbn [detect_finally set_detectDisabled timeline avgCount maxCount statsText
         detectDisabled lastIdx countText].
    rewrite K1, K2, T1, T2, T3, T4.
    cbn [set_tText set_countText set_lastIdx timeline avgCount maxCount statsText
         lastIdx countText].
    rewrite Htl, Ha, Hm, Hst.
    split; [reflexivity|]. split; [reflexivity|]. split; [reflexivity|].
    split; [reflexivity|]. split; [reflexivity|]. split.
    + intros H. rewrite Etl in H. discriminate.
    + intros _. exists item. split; [exact Hitem | reflexivity].
Qed.


End OverlayMore.

Section OverlayExamples.
Import Num Video.
#[local] Existing Instance rationals.
#[local] Existing Instance exact.


(** Hiding the overlay of the loaded page. *)
Lemma hiding_the_loaded_overlay :
  exists s',
    handle Scenario.viewport ToggleOverlay Scenario.loaded = Normal s'
    /\ blank_unless_shown Scenario.loaded
    /\ painted (canvas Scenario.loaded) <> []
    /\ overlayVisible s' = false
    /\ painted (canvas s') = []
    /\ timeline s' = timeline Scenario.loaded.
Proof.
  eexists.
  assert (E : handle Scenario.viewport ToggleOverlay Scenario.loaded = Normal _)
    by (vm_compute; reflexivity).
  assert (Hs : blank_unless_shown Scenario.loaded).
  { intros [H|H]; discriminate H. }
  destruct (overlay_blank_unless_shown Scenario.viewport ToggleOverlay
              Scenario.loaded _ E Hs) as [Hb [Ht Hv]]; [reflexivity|].
  split; [exact E|]. split; [exact Hs|]. split; [discriminate|].
  split; [exact Hv|]. split; [apply Hb; right; exact Hv | exact Ht].
Defined.

(** A detection over the loaded page. *)
Lemma detection_over_loaded_page :
  let d := {| r_timeline := Some [Scenario.entry 0 5; Scenario.entry 2 7];
              avg_count := Some 6%Q; max_count := Some 7%Q;
              frames_processed := Some 2; infer_fps := Some 2%Q;
              include_boxes := Some true; r_detail := None |} in
  Z.of_nat (List.length [Scenario.entry 0 5; Scenario.entry 2 7]) <= 2 ^ 30
  /\ exists s',
       detect_on_response Scenario.viewport (Response true (Obj d)) Scenario.loaded
       = Normal s'
       /\ timeline s' = [Scenario.entry 0 5; Scenario.entry 2 7].
Proof.
  intros d.
  assert (Hn : Z.of_nat (List.length [Scenario.entry 0 5; Scenario.entry 2 7]) <= 2 ^ 30)
    by (vm_compute; discriminate).
  split; [exact Hn|].
  destruct (successful_detection_replaces_timeline Scenario.viewport d Scenario.loaded Hn)
    as ((s' & E & Ht & _) & _).
  exists s'. split; [exact E | exact Ht].
Defined.

End OverlayExamples.

(* ================================================================== *)
(** * Further properties of photo.js                                    *)
(* ================================================================== *)

Section Dragging.
Import Num Photo.
Context {Nt : NumberType} {N : Number}.

Lemma nth_error_assign_at a i p j :
  nth_error (assign_at a i p) j
  = if Nat.eqb j i
    then match nth_error a i with Some _ => Some p | None => None end
    else nth_error a j.
Proof.
  revert i j. induction a as [|q rest IH]; intros i j.
  - cbn [assign_at]. destruct (Nat.eqb j i); destruct i, j; reflexivity.
  - destruct i as [|i], j as [|j]; cbn [assign_at nth_error Nat.eqb]; try reflexivity.
    apply IH.
Qed.

End Dragging.

Section EditorArithmetic.
Import Num Photo.
#[local] Existing Instance rationals.
#[local] Existing Instance exact.

(** ** Coordinate transforms *)

Lemma Qmult_unit_interval (a b : Q) :
  (0 <= a -> a <= 1 -> 0 <= b -> 0 <= a * b <= b)%Q.
Proof.
  intros H0 H1 Hb. split.
  - apply Qmult_le_0_compat; assumption.
  - setoid_replace b with (1 * b)%Q at 2 by ring.
    apply Qmult_le_compat_r; assumption.
Qed.

(** X20: a display position inside the canvas is mapped inside the image:
    a press on the canvas appends a point within the native bounds. *)
Theorem dispToImg_inside_image (l : Layout) (s : Page) (dispX dispY : Q) :
  0 <= imgW s -> 0 <= imgH s ->
  (0 <= dispX <= inject_Z (fst (canvasSize l)))%Q ->
  (0 <= dispY <= inject_Z (snd (canvasSize l)))%Q ->
  let p := dispToImg l s dispX dispY in
  (0 <= x p <= inject_Z (imgW s))%Q /\ (0 <= y p <= inject_Z (imgH s))%Q.
Proof.
  intros HW HH [Hx0 Hx1] [Hy0 Hy1]. unfold dispToImg.
  pose proof (canvasSize_positive l) as [Hw Hh].
  destruct (canvasSize l) as [w h]. cbn [fst snd x y] in *.
  cbn [of_Z mul div exact].
  assert (Hwq : (0 < inject_Z w)%Q).
  { replace 0%Q with (inject_Z 0) by reflexivity. rewrite <- Zlt_Qlt. lia. }
  assert (Hhq : (0 < inject_Z h)%Q).
  { replace 0%Q with (inject_Z 0) by reflexivity. rewrite <- Zlt_Qlt. lia. }
  assert (HWq : (0 <= inject_Z (imgW s))%Q).
  { replace 0%Q with (inject_Z 0) by reflexivity. rewrite <- Zle_Qle. exact HW. }
  assert (HHq : (0 <= inject_Z (imgH s))%Q).
  { replace 0%Q with (inject_Z 0) by reflexivity. rewrite <- Zle_Qle. exact HH. }
  destruct (Qdiv_unit_interval dispX (inject_Z w) Hwq Hx0 Hx1) as [A0 A1].
  destruct (Qdiv_unit_interval dispY (inject_Z h) Hhq Hy0 Hy1) as [B0 B1].
  split; apply Qmult_unit_interval; assumption.
Qed.

Lemma corner_press_maps_to_image_edge :
  let s := Scenario.two_points in
  let l := Scenario.layout in
  0 <= imgW s /\ 0 <= imgH s
  /\ (0 <= 200 <= inject_Z (fst (canvasSize l)))%Q
  /\ (0 <= 0 <= inject_Z (snd (canvasSize l)))%Q
  /\ (0 <= x (dispToImg l s 200%Q 0%Q) <= inject_Z (imgW s))%Q.
Proof.
  intros s l.
  assert (H1 : 0 <= imgW s) by (vm_compute; discriminate).
  assert (H2 : 0 <= imgH s) by (vm_compute; discriminate).
  assert (H3 : (0 <= 200 <= inject_Z (fst (canvasSize l)))%Q)
    by (split; vm_compute; discriminate).
  assert (H4 : (0 <= 0 <= inject_Z (snd (canvasSize l)))%Q)
    by (split; vm_compute; discriminate).
  split; [exact H1|]. split; [exact H2|]. split; [exact H3|]. split; [exact H4|].
  exact (proj1 (dispToImg_inside_image l s 200%Q 0%Q H1 H2 H3 H4)).
Defined.

(** ** Dragging *)

Lemma clamp_in_range (hi a : Q) :
  (0 <= hi)%Q -> (0 <= Qmaxb 0 (Qminb hi a) <= hi)%Q.
Proof.
  intros H. split; [apply Qmaxb_zero_nonneg|].
  apply Qmaxb_zero_le; [exact H | apply Qminb_le_l].
Qed.

(** X21: while a point is dragged in edit mode on an image at least one
    pixel wide and high, a pointer move puts that point within
    [0, imgW - 1] x [0, imgH - 1], wherever the pointer is, and leaves the
    other points, the number of points and the drag as they are. *)
Theorem pointermove_clamps_dragged_point
    (l : Layout) (clientX clientY : Q) (s : Page) (i : nat) :
  roiEdit s = true -> dragIdx s = Z.of_nat i ->
  (i < List.length (roiPts s))%nat ->
  1 <= imgW s -> 1 <= imgH s ->
  let s' := on_pointermove l clientX clientY s in
  (exists q,
     nth_error (roiPts s') i = Some q
     /\ (0 <= x q <= inject_Z (imgW s - 1))%Q
     /\ (0 <= y q <= inject_Z (imgH s - 1))%Q)
  /\ List.length (roiPts s') = List.length (roiPts s)
  /\ (forall j, j <> i -> nth_error (roiPts s') j = nth_error (roiPts s) j)
  /\ dragIdx s' = dragIdx s /\ roiEdit s' = true.
Proof.
  intros Hedit Hdrag Hi HW HH s'. unfold s', on_pointermove.
  rewrite Hedit, Hdrag. cbn [negb orb].
  destruct (Z.of_nat i <? 0) eqn:E1; [apply Z.ltb_lt in E1; lia|].
  destruct (imgW s =? 0) eqn:E2; [apply Z.eqb_eq in E2; lia|].
  cbn [orb]. rewrite Nat2Z.id.
  match goal with
  | |- context [draw l ?s1] => destruct (draw_editor l s1) as (Hp & Hd & He)
  end.
  rewrite Hp, Hd, He.
  cbn [set_roiPts canvasSizeToImage set_overlaySize roiPts dragIdx roiEdit].
  assert (HWq : (0 <= inject_Z (imgW s - 1))%Q).
  { replace 0%Q with (inject_Z 0) by reflexivity. rewrite <- Zle_Qle. lia. }
  assert (HHq : (0 <= inject_Z (imgH s - 1))%Q).
  { replace 0%Q with (inject_Z 0) by reflexivity. rewrite <- Zle_Qle. lia. }
  destruct (nth_error (roiPts s) i) as [old|] eqn:Hold;
    [| apply nth_error_None in Hold; lia].
  split; [|split; [|split; [|split]]].
  - eexists. rewrite nth_error_assign_at, Nat.eqb_refl, Hold.
    split; [reflexivity|]. cbn [x y]. cbn [of_Z Math_max Math_min exact].
    change (inject_Z 0) with 0%Q.
    split; apply clamp_in_range; assumption.
  - apply assign_at_length.
  - intros j Hj. rewrite nth_error_assign_at.
    destruct (Nat.eqb j i) eqn:E; [apply Nat.eqb_eq in E; contradiction | reflexivity].
  - exact Hdrag.
  - exact Hedit.
Qed.

Lemma drag_far_outside_is_clamped :
  let s := Scenario.dragging_first in
  let s' := on_pointermove Scenario.layout 5000%Q (-300)%Q s in
  roiEdit s = true /\ dragIdx s = Z.of_nat 0
  /\ (0 < List.length (roiPts s))%nat /\ 1 <= imgW s /\ 1 <= imgH s
  /\ (exists q,
        nth_error (roiPts s') 0 = Some q
        /\ (0 <= x q <= inject_Z (imgW s - 1))%Q
        /\ (0 <= y q <= inject_Z (imgH s - 1))%Q)
  /\ nth_error (roiPts s') 0 = Some {| x := 399%Q; y := 0%Q |}.
Proof.
  intros s s'.
  assert (H1 : roiEdit s = true) by reflexivity.
  assert (H2 : dragIdx s = Z.of_nat 0) by reflexivity.
  assert (H3 : (0 < List.length (roiPts s))%nat) by (vm_compute; lia).
  assert (H4 : 1 <= imgW s) by (vm_compute; discriminate).
  assert (H5 : 1 <= imgH s) by (vm_compute; discriminate).
  split; [exact H1|]. split; [exact H2|]. split; [exact H3|].
  split; [exact H4|]. split; [exact H5|]. split.
  - exact (proj1 (pointermove_clamps_dragged_point Scenario.layout 5000%Q (-300)%Q s 0
                    H1 H2 H3 H4 H5)).
  - vm_compute. reflexivity.
Defined.

End EditorArithmetic.

Section EditorMore.
Import Num Photo.
Context {Nt : NumberType} {N : Number}.

(** ** What the events leave alone *)

(** X22: the polygon changes only by editing.  A press or a move outside
    edit mode leaves the whole page as it is; Clear ROI, Clear and the choice
    of a new file empty the polygon; every other event (Escape, the edit
    toggle, a release, the load of the image, a resize, the ROI checkbox, a
    detection and its response) keeps the points. *)
Theorem polygon_changes_only_by_editing (l : Layout) (ev : Event) (s : Page) :
  match ev with
  | PointerDown _ _ | PointerMove _ _ =>
      roiEdit s = false -> handle l ev s = s
  | ClearRoiClick | ClearClick | FileChange (Some _) =>
      roiPts (handle l ev s) = []
  | _ => roiPts (handle l ev s) = roiPts s
  end.
Proof.
  destruct ev; cbn [handle].
  - unfold on_editRoi. destruct (file s); [|reflexivity].
    cbn [set_status roiPts]. rewrite (proj1 (draw_editor l _)). reflexivity.
  - unfold on_clearRoi. rewrite (proj1 (draw_editor l _)). reflexivity.
  - reflexivity.
  - unfold on_keydown. destruct (escape && roiEdit s); [|reflexivity].
    cbn [set_status roiPts]. rewrite (proj1 (draw_editor l _)). reflexivity.
  - intros H. unfold on_pointerdown. rewrite H. reflexivity.
  - intros H. unfold on_pointermove. rewrite H. reflexivity.
  - unfold on_pointerup. destruct (0 <=? dragIdx s); [|reflexivity].
    rewrite (proj1 (draw_editor l _)). reflexivity.
  - destruct f; reflexivity.
  - unfold on_imgLoad. cbn [set_status roiPts].
    rewrite (proj1 (draw_editor l _)). reflexivity.
  - reflexivity.
  - apply draw_editor.
  - unfold on_detectClick. destruct (file s); reflexivity.
  - unfold detect_on_response. destruct r as [|ok code body]; [reflexivity|].
    destruct (negb ok); [reflexivity|].
    destruct body; try reflexivity; rewrite (proj1 (draw_editor l _)); reflexivity.
Qed.

Lemma draw_shown l s :
  ui (draw l s) = ui s /\ file (draw l s) = file s
  /\ boxes (draw l s) = boxes s /\ boxCountText (draw l s) = boxCountText s.
Proof. unfold draw. destruct ((imgW s =? 0) || (imgH s =? 0)); repeat split. Qed.

Lemma ui_in_step_of s s' :
  file s' = file s -> List.length (roiPts s') = List.length (roiPts s) ->
  roiEdit s' = roiEdit s -> ui s' = ui s ->
  ui_in_step s -> ui_in_step s'.
Proof.
  unfold ui_in_step, updateUiEnabled. cbn [set_ui ui].
  intros -> -> -> ->. trivial.
Qed.

Lemma ui_in_step_draw l s : ui_in_step s -> ui_in_step (draw l s).
Proof.
  destruct (draw_editor l s) as (Hp & _ & He). destruct (draw_shown l s) as (Hu & Hf & _).
  apply ui_in_step_of; trivial. rewrite Hp. reflexivity.
Qed.

Lemma ui_in_step_fresh s : ui_in_step (updateUiEnabled s).
Proof. reflexivity. Qed.

(** X23: after every event the point counter, the state of the Clear-ROI
    button, of the Detect, Clear and Edit buttons and the mode badge agree
    with the file, the polygon and the mode the page holds. *)
Theorem ui_stays_in_step (l : Layout) (ev : Event) (s : Page) :
  ui_in_step s ->
  ui_in_step (handle l ev s)
  /\ roiCountText (ui (handle l ev s)) = Z.of_nat (List.length (roiPts (handle l ev s)))
  /\ roiModeEdit (ui (handle l ev s)) = roiEdit (handle l ev s)
  /\ (clearRoiDisabled (ui (handle l ev s)) = true <-> roiPts (handle l ev s) = []).
Proof.
  intros Hs.
  assert (H : ui_in_step (handle l ev s)).
  { destruct ev; cbn [handle].
    - unfold on_editRoi. destruct (file s); [|exact Hs].
      apply (ui_in_step_of (draw l (updateUiEnabled (set_dragIdx (-1)
                               (set_roiEdit (negb (roiEdit s)) s))))); try reflexivity.
      apply ui_in_step_draw, ui_in_step_fresh.
    - unfold on_clearRoi. apply ui_in_step_draw, ui_in_step_fresh.
    - apply ui_in_step_fresh.
    - unfold on_keydown. destruct (escape && roiEdit s); [|exact Hs].
      apply (ui_in_step_of (draw l (updateUiEnabled (set_dragIdx (-1)
                               (set_roiEdit false s))))); try reflexivity.
      apply ui_in_step_draw, ui_in_step_fresh.
    - unfold on_pointerdown.
      destruct (negb (roiEdit s) || (imgW s =? 0)); [exact Hs|].
      assert (Hsync : ui_in_step (hit_test_sync l s)).
      { unfold hit_test_sync. destruct (roiPts s) eqn:R; [exact Hs|].
        apply (ui_in_step_of s); trivial. }
      destruct (0 <=? hitTestPoint l s _ _).
      + apply (ui_in_step_of (hit_test_sync l s)); trivial.
      + apply ui_in_step_draw, ui_in_step_fresh.
    - unfold on_pointermove.
      destruct (negb (roiEdit s) || (dragIdx s <? 0) || (imgW s =? 0)); [exact Hs|].
      apply ui_in_step_draw. apply (ui_in_step_of s); trivial.
      cbn [set_roiPts roiPts]. apply assign_at_length.
    - unfold on_pointerup. destruct (0 <=? dragIdx s); [|exact Hs].
      apply ui_in_step_draw, ui_in_step_fresh.
    - unfold on_fileChange. destruct f; [|exact Hs]. apply ui_in_step_fresh.
    - unfold on_imgLoad.
      apply (ui_in_step_of (draw l (updateUiEnabled (set_imgH naturalHeight
                               (set_imgW naturalWidth s))))); try reflexivity.
      apply ui_in_step_draw, ui_in_step_fresh.
    - apply (ui_in_step_of s); trivial.
    - apply ui_in_step_draw, Hs.
    - unfold on_detectClick. destruct (file s); [|exact Hs].
      apply (ui_in_step_of s); trivial.
    - unfold detect_on_response. destruct r as [|ok code body].
      + apply (ui_in_step_of s); trivial.
      + destruct (negb ok); [apply (ui_in_step_of s); trivial|].
        destruct body.
        * apply ui_in_step_draw. apply (ui_in_step_of s); trivial.
        * apply (ui_in_step_of s); trivial.
        * apply ui_in_step_draw. apply (ui_in_step_of s); trivial. }
  split; [exact H|]. unfold ui_in_step in H. rewrite H.
  cbn [updateUiEnabled set_ui ui roiCountText roiModeEdit clearRoiDisabled].
  split; [reflexivity|]. split; [reflexivity|].
  rewrite Nat.eqb_eq. destruct (roiPts (handle l ev s)); cbn [List.length];
    split; intros E; try reflexivity; discriminate.
Qed.

Lemma results_in_step_of s s' :
  boxes s' = boxes s -> boxCountText s' = boxCountText s ->
  results_in_step s -> results_in_step s'.
Proof. unfold results_in_step. intros -> ->. trivial. Qed.

Lemma results_in_step_draw l s : results_in_step s -> results_in_step (draw l s).
Proof.
  destruct (draw_shown l s) as (_ & _ & Hb & Hc). apply results_in_step_of; assumption.
Qed.

(** X24: after every event the box counter shows "-" while no box is held,
    or the number of boxes held; a detection that fails, by a rejected
    request, a non-success status or a null body, leaves the results as the
    click reset them. *)
Theorem results_stay_in_step (l : Layout) (ev : Event) (s : Page) :
  results_in_step s ->
  results_in_step (handle l ev s)
  /\ (forall sent r,
        ev = DetectResponse sent r ->
        r = Rejected \/ (exists code body, r = Response false code body)
        \/ (exists code, r = Response true code Null) ->
        boxes (handle l ev s) = boxes s
        /\ boxCountText (handle l ev s) = boxCountText s
        /\ countText (handle l ev s) = countText s).
Proof.
  intros Hs. split.
  - destruct ev; cbn [handle].
    + unfold on_editRoi. destruct (file s); [|exact Hs].
      apply (results_in_step_of (draw l (updateUiEnabled (set_dragIdx (-1)
                                   (set_roiEdit (negb (roiEdit s)) s))))); try reflexivity.
      apply results_in_step_draw. apply (results_in_step_of s); trivial.
    + unfold on_clearRoi. apply results_in_step_draw. apply (results_in_step_of s); trivial.
    + left. split; reflexivity.
    + unfold on_keydown. destruct (escape && roiEdit s); [|exact Hs].
      apply (results_in_step_of (draw l (updateUiEnabled (set_dragIdx (-1)
                                   (set_roiEdit false s))))); try reflexivity.
      apply results_in_step_draw. apply (results_in_step_of s); trivial.
    + unfold on_pointerdown.
      destruct (negb (roiEdit s) || (imgW s =? 0)); [exact Hs|].
      assert (Hsync : results_in_step (hit_test_sync l s)).
      { unfold hit_test_sync. destruct (roiPts s) eqn:R; [exact Hs|].
        apply (results_in_step_of s); trivial. }
      destruct (0 <=? hitTestPoint l s _ _).
      * apply (results_in_step_of (hit_test_sync l s)); trivial.
      * apply results_in_step_draw.
        apply (results_in_step_of (hit_test_sync l s)); trivial.
    + unfold on_pointermove.
      destruct (negb (roiEdit s) || (dragIdx s <? 0) || (imgW s =? 0)); [exact Hs|].
      apply results_in_step_draw. apply (results_in_step_of s); trivial.
    + unfold on_pointerup. destruct (0 <=? dragIdx s); [|exact Hs].
      apply results_in_step_draw. apply (results_in_step_of s); trivial.
    + unfold on_fileChange. destruct f; [|exact Hs]. left. split; reflexivity.
    + unfold on_imgLoad.
      apply (results_in_step_of (draw l (updateUiEnabled (set_imgH naturalHeight
                                   (set_imgW naturalWidth s))))); try reflexivity.
      apply results_in_step_draw. apply (results_in_step_of s); trivial.
    + apply (results_in_step_of s); trivial.
    + apply results_in_step_draw, Hs.
    + unfold on_detectClick. destruct (file s); [|exact Hs]. left. split; reflexivity.
    + unfold detect_on_response. destruct r as [|ok code body].
      * apply (results_in_step_of s); trivial.
      * destruct (negb ok); [apply (results_in_step_of s); trivial|].
        destruct body.
        -- apply results_in_step_draw. right. reflexivity.
        -- apply (results_in_step_of s); trivial.
        -- apply results_in_step_draw. right. reflexivity.
  - intros sent r -> [-> | [(code & body & ->) | (code & ->)]];
      cbn [handle detect_on_response negb]; repeat split.
Qed.

End EditorMore.

Section EditorMoreExamples.
Import Num Photo.
#[local] Existing Instance rationals.
#[local] Existing Instance exact.

(** Clearing the polygon of two points. *)
Lemma ui_after_clearing_polygon :
  ui_in_step Scenario.two_points
  /\ ui_in_step (handle Scenario.layout ClearRoiClick Scenario.two_points)
  /\ roiCountText (ui (handle Scenario.layout ClearRoiClick Scenario.two_points)) = 0.
Proof.
  assert (H : ui_in_step Scenario.two_points) by reflexivity.
  destruct (ui_stays_in_step Scenario.layout ClearRoiClick Scenario.two_points H)
    as (H1 & H2 & _).
  split; [exact H|]. split; [exact H1|]. rewrite H2. reflexivity.
Defined.

(** A response with one box. *)
Lemma results_after_one_box :
  let r := Response true 200 (Obj {| r_count := Some 2;
                                     r_boxes := Some [ {| Video.x1 := 1%Q; Video.y1 := 2%Q;
                                                          Video.x2 := 3%Q; Video.y2 := 4%Q;
                                                          Video.cls_name := None;
                                                          Video.conf := None |} ] |}) in
  results_in_step Scenario.two_points
  /\ results_in_step (handle Scenario.layout (DetectResponse false r) Scenario.two_points)
  /\ boxCountText (handle Scenario.layout (DetectResponse false r) Scenario.two_points)
     = CountOf 1.
Proof.
  intros r.
  assert (H : results_in_step Scenario.two_points) by (left; split; reflexivity).
  split; [exact H|]. split.
  - exact (proj1 (results_stay_in_step Scenario.layout (DetectResponse false r)
                    Scenario.two_points H)).
  - vm_compute. reflexivity.
Defined.

End EditorMoreExamples.
